(** * PFFaRVE: the request pipeline of [app.py], embedded and verified

    The development follows the source file top to bottom:
    - [PyStr]: Python text as sequences of code points, with the string
      operations the pipeline uses ([split], [strip], slicing, [in]);
    - [Codec]: the three codecs tried by [read_file_with_encoding] and the
      universal-newline translation of text-mode reads;
    - [Reader]: [read_file_with_encoding];
    - [Json]: the documents accepted by [json.loads];
    - [Pipeline]: [setup_logging], [call_abacus_api] and [analyze], with the
      log lines, the HTTP request and the artifact writes recorded as a trace.
*)

From Stdlib Require Import List NArith ZArith Bool Lia.
From Stdlib.Strings Require Import String Ascii Byte.
Import ListNotations.

Set Warnings "-register-all".
Local Open Scope N_scope.

(* ------------------------------------------------------------------ *)
(** ** Python text *)

Module PyStr.

(** A Python [str] is a sequence of Unicode code points. *)
Definition str := list N.

(** Text of a literal of the source (all literals of [app.py] are ASCII). *)
Definition lit (s : string) : str :=
  List.map N_of_ascii (list_ascii_of_string s).

Definition dquote : str := [34].
Definition squote : str := [39].
Definition newline : str := [10].

Fixpoint str_eqb (a b : str) : bool :=
  match a, b with
  | [], [] => true
  | x :: a', y :: b' => (x =? y) && str_eqb a' b'
  | _, _ => false
  end.

(** [s.startswith(p)] *)
Fixpoint startswith (p s : str) : bool :=
  match p, s with
  | [], _ => true
  | x :: p', y :: s' => (x =? y) && startswith p' s'
  | _ :: _, [] => false
  end.

(** [sub in s] for two strings. *)
Fixpoint contains (sub s : str) : bool :=
  startswith sub s ||
  match s with
  | [] => false
  | _ :: s' => contains sub s'
  end.

(** [sep.join(parts)] *)
Fixpoint join (sep : str) (parts : list str) : str :=
  match parts with
  | [] => []
  | [p] => p
  | p :: rest => p ++ sep ++ join sep rest
  end.

(** [s.split(sep)] for a non-empty separator: the pieces between the
    non-overlapping occurrences of [sep], found left to right.  [skip]
    counts the characters of a matched separator still to be passed over;
    [cur] holds the current piece, reversed. *)
Fixpoint split_aux (sep : str) (skip : nat) (cur : str) (s : str) : list str :=
  match s with
  | [] => [rev cur]
  | c :: s' =>
      match skip with
      | S k => split_aux sep k cur s'
      | O =>
          if startswith sep s
          then rev cur :: split_aux sep (Nat.pred (List.length sep)) [] s'
          else split_aux sep O (c :: cur) s'
      end
  end.

Definition split (sep s : str) : list str := split_aux sep O [] s.

(** [str.isspace] on one code point: the characters [str.strip()] removes. *)
Definition isspace (c : N) : bool :=
  ((9 <=? c) && (c <=? 13)) || ((28 <=? c) && (c <=? 32)) ||
  (c =? 133) || (c =? 160) || (c =? 5760) ||
  ((8192 <=? c) && (c <=? 8202)) || (c =? 8232) || (c =? 8233) ||
  (c =? 8239) || (c =? 8287) || (c =? 12288).

Fixpoint lstrip (s : str) : str :=
  match s with
  | c :: s' => if isspace c then lstrip s' else s
  | [] => []
  end.

Definition rstrip (s : str) : str := rev (lstrip (rev s)).

(** [s.strip()] *)
Definition strip (s : str) : str := rstrip (lstrip s).

(** [s[:n]] *)
Definition slice_to (n : nat) (s : str) : str := firstn n s.

End PyStr.
Import PyStr.

(* ------------------------------------------------------------------ *)
(** ** The codecs behind [open(path, 'r', encoding=...)] *)

Module Codec.

Inductive encoding := Utf8 | Windows1252 | Latin1.

Definition encoding_eqb (a b : encoding) : bool :=
  match a, b with
  | Utf8, Utf8 | Windows1252, Windows1252 | Latin1, Latin1 => true
  | _, _ => false
  end.

(** The name each codec carries in the source. *)
Definition encoding_name (e : encoding) : str :=
  match e with
  | Utf8 => lit "utf-8"
  | Windows1252 => lit "windows-1252"
  | Latin1 => lit "latin-1"
  end.

Definition byte_of_N (n : N) : byte :=
  match Byte.of_N n with
  | Some b => b
  | None => x00
  end.

Definition is_cont (n : N) : bool := (128 <=? n) && (n <=? 191).

Definition is_surrogate (c : N) : bool := (55296 <=? c) && (c <=? 57343).

(** Strict UTF-8, as CPython decodes it: shortest forms only, no
    surrogates, nothing above U+10FFFF. *)
Fixpoint utf8_decode (bs : list byte) : option str :=
  match bs with
  | [] => Some []
  | b0 :: r0 =>
      let n0 := Byte.to_N b0 in
      if n0 <? 128 then option_map (cons n0) (utf8_decode r0)
      else if (194 <=? n0) && (n0 <=? 223) then
        match r0 with
        | b1 :: r1 =>
            let n1 := Byte.to_N b1 in
            if is_cont n1
            then option_map (cons ((n0 - 192) * 64 + (n1 - 128))) (utf8_decode r1)
            else None
        | _ => None
        end
      else if (224 <=? n0) && (n0 <=? 239) then
        match r0 with
        | b1 :: b2 :: r2 =>
            let n1 := Byte.to_N b1 in
            let n2 := Byte.to_N b2 in
            if is_cont n1 && is_cont n2
               && (negb (n0 =? 224) || (160 <=? n1))
               && (negb (n0 =? 237) || (n1 <=? 159))
            then option_map
                   (cons ((n0 - 224) * 4096 + (n1 - 128) * 64 + (n2 - 128)))
                   (utf8_decode r2)
            else None
        | _ => None
        end
      else if (240 <=? n0) && (n0 <=? 244) then
        match r0 with
        | b1 :: b2 :: b3 :: r3 =>
            let n1 := Byte.to_N b1 in
            let n2 := Byte.to_N b2 in
            let n3 := Byte.to_N b3 in
            if is_cont n1 && is_cont n2 && is_cont n3
               && (negb (n0 =? 240) || (144 <=? n1))
               && (negb (n0 =? 244) || (n1 <=? 143))
            then option_map
                   (cons ((n0 - 240) * 262144 + (n1 - 128) * 4096
                          + (n2 - 128) * 64 + (n3 - 128)))
                   (utf8_decode r3)
            else None
        | _ => None
        end
      else None
  end.

(** The bytes of one code point in UTF-8; [None] where [str.encode] raises. *)
Definition utf8_encode_cp (c : N) : option (list byte) :=
  if c <? 128 then Some [byte_of_N c]
  else if c <? 2048 then
    Some [byte_of_N (192 + c / 64); byte_of_N (128 + c mod 64)]
  else if c <? 65536 then
    if is_surrogate c then None
    else Some [byte_of_N (224 + c / 4096);
               byte_of_N (128 + (c / 64) mod 64);
               byte_of_N (128 + c mod 64)]
  else if c <? 1114112 then
    Some [byte_of_N (240 + c / 262144);
          byte_of_N (128 + (c / 4096) mod 64);
          byte_of_N (128 + (c / 64) mod 64);
          byte_of_N (128 + c mod 64)]
  else None.

Fixpoint encode_with (f : N -> option (list byte)) (s : str) : option (list byte) :=
  match s with
  | [] => Some []
  | c :: s' =>
      match f c, encode_with f s' with
      | Some bs, Some rest => Some (bs ++ rest)
      | _, _ => None
      end
  end.

(** The upper half of code page 1252 that differs from Latin-1; five byte
    values are unassigned and make the codec raise. *)
Definition cp1252_high (n : N) : option N :=
  match n with
  | 128 => Some 8364 | 129 => None      | 130 => Some 8218 | 131 => Some 402
  | 132 => Some 8222 | 133 => Some 8230 | 134 => Some 8224 | 135 => Some 8225
  | 136 => Some 710  | 137 => Some 8240 | 138 => Some 352  | 139 => Some 8249
  | 140 => Some 338  | 141 => None      | 142 => Some 381  | 143 => None
  | 144 => None      | 145 => Some 8216 | 146 => Some 8217 | 147 => Some 8220
  | 148 => Some 8221 | 149 => Some 8226 | 150 => Some 8211 | 151 => Some 8212
  | 152 => Some 732  | 153 => Some 8482 | 154 => Some 353  | 155 => Some 8250
  | 156 => Some 339  | 157 => None      | 158 => Some 382  | 159 => Some 376
  | _ => Some n
  end.

Fixpoint cp1252_decode (bs : list byte) : option str :=
  match bs with
  | [] => Some []
  | b :: r =>
      match cp1252_high (Byte.to_N b), cp1252_decode r with
      | Some c, Some s => Some (c :: s)
      | _, _ => None
      end
  end.

Definition latin1_decode (bs : list byte) : option str :=
  Some (List.map Byte.to_N bs).

(** All byte values, in order. *)
Definition all_bytes : list byte :=
  List.map (fun n => byte_of_N (N.of_nat n)) (seq 0 256).

(** A character-map codec encodes a character as the byte its decoding
    table sends to that character. *)
Definition cp1252_encode_cp (c : N) : option (list byte) :=
  option_map (fun b => [b])
    (find (fun b => match cp1252_high (Byte.to_N b) with
                    | Some c' => c' =? c
                    | None => false
                    end) all_bytes).

Definition latin1_encode_cp (c : N) : option (list byte) :=
  if c <? 256 then Some [byte_of_N c] else None.

(** [bytes.decode(encoding)] with the default strict error handling. *)
Definition decode (e : encoding) (bs : list byte) : option str :=
  match e with
  | Utf8 => utf8_decode bs
  | Windows1252 => cp1252_decode bs
  | Latin1 => latin1_decode bs
  end.

(** [text.encode(encoding)]: [None] when the text has a character the
    encoding cannot represent. *)
Definition encode (e : encoding) (s : str) : option (list byte) :=
  match e with
  | Utf8 => encode_with utf8_encode_cp s
  | Windows1252 => encode_with cp1252_encode_cp s
  | Latin1 => encode_with latin1_encode_cp s
  end.

(** [str(e)] of the [UnicodeEncodeError] that writing [s] to a UTF-8 text
    file raises: it names the first character that cannot be encoded, a
    surrogate, with its position, or the positions of the run of such
    characters that starts there. *)
Definition unencodable (c : N) : bool :=
  match utf8_encode_cp c with
  | Some _ => false
  | None => true
  end.

Fixpoint run_length (s : str) : nat :=
  match s with
  | c :: s' => if unencodable c then S (run_length s') else O
  | [] => O
  end.

Fixpoint decimal_aux (fuel : nat) (n : N) (acc : str) : str :=
  match fuel with
  | O => acc
  | S fuel' =>
      let acc' := (48 + n mod 10) :: acc in
      if n <? 10 then acc' else decimal_aux fuel' (n / 10) acc'
  end.

(** [str(n)] of a natural number. *)
Definition decimal (n : nat) : str := decimal_aux (S n) (N.of_nat n) [].

Definition hex_digit (d : N) : N := if d <? 10 then 48 + d else 87 + d.

(** The four hexadecimal digits of [c], as [repr] writes a surrogate. *)
Definition hex4 (c : N) : str :=
  [hex_digit ((c / 4096) mod 16); hex_digit ((c / 256) mod 16);
   hex_digit ((c / 16) mod 16); hex_digit (c mod 16)].

Fixpoint encode_error_from (pos : nat) (s : str) : str :=
  match s with
  | [] => lit "surrogates not allowed"
  | c :: s' =>
      if unencodable c then
        match run_length s' with
        | O =>
            lit "'utf-8' codec can't encode character '\u" ++ hex4 c
            ++ lit "' in position " ++ decimal pos
            ++ lit ": surrogates not allowed"
        | S more =>
            lit "'utf-8' codec can't encode characters in position "
            ++ decimal pos ++ lit "-" ++ decimal (pos + S more)
            ++ lit ": surrogates not allowed"
        end
      else encode_error_from (S pos) s'
  end.

Definition encode_error_message (s : str) : str := encode_error_from 0 s.

(** Text mode with the default [newline=None]: on input, both a carriage
    return followed by a line feed and a carriage return on its own are
    handed to the program as one line feed. *)
Fixpoint translate_newlines (s : str) : str :=
  match s with
  | [] => []
  | c :: rest =>
      if c =? 13 then
        10 :: match rest with
              | d :: rest' =>
                  if d =? 10 then translate_newlines rest'
                  else translate_newlines rest
              | [] => []
              end
      else c :: translate_newlines rest
  end.

End Codec.
Import Codec.

(* ------------------------------------------------------------------ *)
(** ** Exceptions and results *)

Module Py.

(** The exception classes that occur in the pipeline. *)
Inductive exn_class :=
| UnicodeDecodeError
| UnicodeEncodeError
| JSONDecodeError
| RequestException
| ValueError
| KeyError
| IndexError
| TypeError
| AttributeError
| PlainException.

(** An exception value: its class and the text [str(e)] gives. *)
Record exn := Exn { exn_cls : exn_class; exn_str : str }.

(** The outcome of a call: a returned value or a raised exception. *)
Inductive result (A : Type) :=
| Return (a : A)
| Raise (e : exn).
Arguments Return {A} a.
Arguments Raise {A} e.

Definition bind {A B} (r : result A) (k : A -> result B) : result B :=
  match r with
  | Return a => k a
  | Raise e => Raise e
  end.

Definition is_return {A} (r : result A) : bool :=
  match r with
  | Return _ => true
  | Raise _ => false
  end.

End Py.
Import Py.

(* ------------------------------------------------------------------ *)
(** ** [read_file_with_encoding] *)

Module Reader.

(** [repr] of a string that has no quote, backslash or non-printable
    character (the encoding names). *)
Definition repr_plain (s : str) : str := squote ++ s ++ squote.

(** [repr] of a list of such strings. *)
Definition repr_list (l : list str) : str :=
  lit "[" ++ join (lit ", ") (List.map repr_plain l) ++ lit "]".

(** The f-string of the last statement of the function. *)
Definition exhausted_message (file_path : str) (encodings : list encoding) : str :=
  lit "Could not decode file " ++ file_path
  ++ lit " with any of the attempted encodings: "
  ++ repr_list (List.map encoding_name encodings).

(** [UnicodeDecodeError(message)]: the constructor takes five arguments
    (encoding, object, start, end, reason).  Called with the one message,
    it raises [TypeError] itself; no decode error comes to exist and the
    message is lost. *)
Definition unicode_decode_error (message : str) : exn :=
  Exn TypeError (lit "function takes exactly 5 arguments (1 given)").

(** The [for] loop over the candidates still to try.  [content] is what the
    file at [file_path] holds.  A candidate that decodes the whole content
    returns at once; a [UnicodeDecodeError] moves on to the next one.  The
    statement after the loop formats its message and raises what the
    constructor call gives. *)
Fixpoint try_encodings (file_path : str) (encodings remaining : list encoding)
    (content : list byte) : result (str * encoding) :=
  match remaining with
  | [] => Raise (unicode_decode_error (exhausted_message file_path encodings))
  | encoding :: rest =>
      match decode encoding content with
      | Some text => Return (translate_newlines text, encoding)
      | None => try_encodings file_path encodings rest content
      end
  end.

(** The function body over its local list [encodings]. *)
Definition read_with (encodings : list encoding) (file_path : str)
    (content : list byte) : result (str * encoding) :=
  try_encodings file_path encodings encodings content.

Definition encodings : list encoding := [Utf8; Windows1252; Latin1].

Definition read_file_with_encoding (file_path : str) (content : list byte)
  : result (str * encoding) :=
  read_with encodings file_path content.

(** The candidates of [l] the loop tries before it reaches [enc]. *)
Fixpoint before (enc : encoding) (l : list encoding) : list encoding :=
  match l with
  | [] => []
  | e :: rest => if encoding_eqb e enc then [] else e :: before enc rest
  end.

Definition tried_before (enc : encoding) : list encoding := before enc encodings.

End Reader.
Import Reader.

(* ------------------------------------------------------------------ *)
(** ** JSON documents and [json.loads] *)

Module Json.

(** The Python value [json.loads] builds.  An integer literal becomes an
    [int]; a literal with a fraction or an exponent, and the three
    constants [NaN], [Infinity] and [-Infinity], become a [float], kept
    here as the literal's text.  A [dict] keeps its keys in insertion
    order, each key once. *)
Inductive json :=
| JNull
| JBool (b : bool)
| JInt (z : Z)
| JFloat (lexeme : str)
| JStr (s : str)
| JList (items : list json)
| JDict (items : list (str * json)).

(** [d[k] = v] on a [dict]. *)
Fixpoint dict_set (k : str) (v : json) (d : list (str * json)) : list (str * json) :=
  match d with
  | [] => [(k, v)]
  | (k', v') :: d' =>
      if str_eqb k k' then (k', v) :: d' else (k', v') :: dict_set k v d'
  end.

(** [dict(pairs)]: a later pair with the same key overwrites the value. *)
Definition dict_of_pairs (pairs : list (str * json)) : list (str * json) :=
  fold_left (fun d kv => dict_set (fst kv) (snd kv) d) pairs [].

Fixpoint dict_lookup (k : str) (d : list (str * json)) : option json :=
  match d with
  | [] => None
  | (k', v) :: d' => if str_eqb k k' then Some v else dict_lookup k d'
  end.

(** *** Tokens *)

Inductive token :=
| TLBrace | TRBrace | TLBracket | TRBracket | TColon | TComma
| TScalar (v : json).

(** The four characters the scanner skips between tokens. *)
Definition is_json_ws (c : N) : bool :=
  (c =? 32) || (c =? 9) || (c =? 10) || (c =? 13).

Fixpoint skip_ws (s : str) : str :=
  match s with
  | c :: s' => if is_json_ws c then skip_ws s' else s
  | [] => []
  end.

Definition is_digit (c : N) : bool := (48 <=? c) && (c <=? 57).

(** The longest run of digits at the head of [s], and what follows. *)
Fixpoint scan_digits (s : str) : str * str :=
  match s with
  | c :: s' =>
      if is_digit c
      then let (ds, r) := scan_digits s' in (c :: ds, r)
      else ([], s)
  | [] => ([], [])
  end.

Definition digits_value (ds : str) : Z :=
  fold_left (fun acc c => (acc * 10 + Z.of_N (c - 48))%Z) ds 0%Z.

(** The integer part: a lone zero, or a non-zero digit and more digits. *)
Definition scan_int (s : str) : option (str * str) :=
  match s with
  | c :: s' =>
      if c =? 48 then Some ([c], s')
      else if is_digit c then let (ds, r) := scan_digits s' in Some (c :: ds, r)
      else None
  | [] => None
  end.

(** The fraction, taken only when a digit follows the point. *)
Definition scan_frac (s : str) : str * str :=
  match s with
  | c :: s' =>
      if c =? 46 then
        match scan_digits s' with
        | ([], _) => ([], s)
        | (ds, r) => (c :: ds, r)
        end
      else ([], s)
  | [] => ([], s)
  end.

(** The exponent, taken only when a digit follows the marker and sign. *)
Definition scan_exp (s : str) : str * str :=
  match s with
  | e :: s' =>
      if (e =? 101) || (e =? 69) then
        match s' with
        | sg :: s'' =>
            if (sg =? 43) || (sg =? 45) then
              match scan_digits s'' with
              | ([], _) => ([], s)
              | (ds, r) => (e :: sg :: ds, r)
              end
            else
              match scan_digits s' with
              | ([], _) => ([], s)
              | (ds, r) => (e :: ds, r)
              end
        | [] => ([], s)
        end
      else ([], s)
  | [] => ([], s)
  end.

(** The digits of a number literal, after its sign if it has one. *)
Definition scan_unsigned (neg : bool) (s : str) : option (json * str) :=
  match scan_int s with
  | None => None
  | Some (ip, r1) =>
      let (fp, r2) := scan_frac r1 in
      let (ep, r3) := scan_exp r2 in
      match fp, ep with
      | [], [] =>
          Some (JInt (if neg then - digits_value ip else digits_value ip)%Z, r3)
      | _, _ =>
          Some (JFloat ((if neg then [45] else []) ++ ip ++ fp ++ ep), r3)
      end
  end.

(** A number literal at the head of [s]. *)
Definition scan_number (s : str) : option (json * str) :=
  match s with
  | c :: s' => if c =? 45 then scan_unsigned true s' else scan_unsigned false s
  | [] => None
  end.

Definition hex_value (c : N) : option N :=
  if (48 <=? c) && (c <=? 57) then Some (c - 48)
  else if (97 <=? c) && (c <=? 102) then Some (c - 87)
  else if (65 <=? c) && (c <=? 70) then Some (c - 55)
  else None.

Definition is_high_surrogate (c : N) : bool := (55296 <=? c) && (c <=? 56319).
Definition is_low_surrogate (c : N) : bool := (56320 <=? c) && (c <=? 57343).

Definition join_surrogates (hi lo : N) : N :=
  65536 + (hi - 55296) * 1024 + (lo - 56320).

(** Where the scanner stands inside a string literal. *)
Inductive string_mode :=
| Plain                   (* between escapes *)
| Escape                  (* after a backslash *)
| Hex (k : nat) (v : N).  (* after [\u] and [k] of its four digits, worth [v] *)

(** The characters decoded so far, last one first; a high surrogate
    written as an escape, held back until it is known whether the escape
    of a low surrogate follows it; and the mode. *)
Record string_state := {
  decoded : str;
  held : option N;
  mode : string_mode
}.

Inductive string_step :=
| Closed (s : str)
| Goes (st : string_state)
| Invalid.

(** What was decoded, with a held surrogate put down on its own. *)
Definition flushed (st : string_state) : str :=
  match held st with
  | Some hi => hi :: decoded st
  | None => decoded st
  end.

Definition simple_escape (e : N) : option N :=
  if e =? 34 then Some 34
  else if e =? 92 then Some 92
  else if e =? 47 then Some 47
  else if e =? 98 then Some 8
  else if e =? 102 then Some 12
  else if e =? 110 then Some 10
  else if e =? 114 then Some 13
  else if e =? 116 then Some 9
  else None.

(** The unit [u] of a complete [\uXXXX] escape arrives. *)
Definition after_escape_unit (st : string_state) (u : N) : string_state :=
  match held st with
  | Some hi =>
      if is_low_surrogate u
      then {| decoded := join_surrogates hi u :: decoded st;
              held := None; mode := Plain |}
      else if is_high_surrogate u
      then {| decoded := hi :: decoded st; held := Some u; mode := Plain |}
      else {| decoded := u :: hi :: decoded st; held := None; mode := Plain |}
  | None =>
      if is_high_surrogate u
      then {| decoded := decoded st; held := Some u; mode := Plain |}
      else {| decoded := u :: decoded st; held := None; mode := Plain |}
  end.

(** One character of a string literal (strict mode: a raw control
    character is an error). *)
Definition string_char (st : string_state) (c : N) : string_step :=
  match mode st with
  | Plain =>
      if c =? 34 then Closed (rev (flushed st))
      else if c =? 92
      then Goes {| decoded := decoded st; held := held st; mode := Escape |}
      else if c <? 32 then Invalid
      else Goes {| decoded := c :: flushed st; held := None; mode := Plain |}
  | Escape =>
      if c =? 117
      then Goes {| decoded := decoded st; held := held st; mode := Hex 0 0 |}
      else match simple_escape c with
           | Some x =>
               Goes {| decoded := x :: flushed st; held := None; mode := Plain |}
           | None => Invalid
           end
  | Hex k v =>
      match hex_value c with
      | Some d =>
          let v' := v * 16 + d in
          match k with
          | 3%nat => Goes (after_escape_unit st v')
          | _ => Goes {| decoded := decoded st; held := held st;
                         mode := Hex (S k) v' |}
          end
      | None => Invalid
      end
  end.

Fixpoint scan_string_from (st : string_state) (s : str) : option (str * str) :=
  match s with
  | [] => None
  | c :: r =>
      match string_char st c with
      | Closed v => Some (v, r)
      | Goes st' => scan_string_from st' r
      | Invalid => None
      end
  end.

(** The body of a string literal, after its opening quote, up to and
    including the closing quote: the decoded text and what follows. *)
Definition scan_string (s : str) : option (str * str) :=
  scan_string_from {| decoded := []; held := None; mode := Plain |} s.

(** The token at the head of [s] (which does not start with white space),
    and what follows it. *)
Definition scan_token (s : str) : option (token * str) :=
  match s with
  | [] => None
  | c :: r =>
      if c =? 123 then Some (TLBrace, r)
      else if c =? 125 then Some (TRBrace, r)
      else if c =? 91 then Some (TLBracket, r)
      else if c =? 93 then Some (TRBracket, r)
      else if c =? 58 then Some (TColon, r)
      else if c =? 44 then Some (TComma, r)
      else if c =? 34 then
        option_map (fun p => (TScalar (JStr (fst p)), snd p)) (scan_string r)
      else if startswith (lit "null") s then
        Some (TScalar JNull, skipn 4 s)
      else if startswith (lit "true") s then
        Some (TScalar (JBool true), skipn 4 s)
      else if startswith (lit "false") s then
        Some (TScalar (JBool false), skipn 5 s)
      else
        match scan_number s with
        | Some (v, r') => Some (TScalar v, r')
        | None =>
            if startswith (lit "NaN") s then
              Some (TScalar (JFloat (lit "NaN")), skipn 3 s)
            else if startswith (lit "Infinity") s then
              Some (TScalar (JFloat (lit "Infinity")), skipn 8 s)
            else if startswith (lit "-Infinity") s then
              Some (TScalar (JFloat (lit "-Infinity")), skipn 9 s)
            else None
        end
  end.

(** The tokens of a text.  Every token takes at least one character, so
    [fuel] above the length of the text is never used up. *)
Fixpoint tokens_aux (fuel : nat) (s : str) : option (list token) :=
  match skip_ws s with
  | [] => Some []
  | s' =>
      match fuel with
      | O => None
      | S fuel' =>
          match scan_token s' with
          | None => None
          | Some (t, r) => option_map (cons t) (tokens_aux fuel' r)
          end
      end
  end.

Definition tokens (s : str) : option (list token) :=
  tokens_aux (S (List.length s)) s.

(** *** The grammar, as a machine over the tokens *)

(** An enclosing container under construction. *)
Inductive frame :=
| FList (done : list json)
| FDict (done : list (str * json)) (key : str).

Inductive pstate :=
| PValue (st : list frame)
| PFirstItem (st : list frame)
| PFirstKey (st : list frame)
| PKey (done : list (str * json)) (st : list frame)
| PColon (done : list (str * json)) (key : str) (st : list frame)
| PAfter (v : json) (st : list frame).

Definition start_value (t : token) (st : list frame) : option pstate :=
  match t with
  | TScalar v => Some (PAfter v st)
  | TLBracket => Some (PFirstItem st)
  | TLBrace => Some (PFirstKey st)
  | _ => None
  end.

Definition step (p : pstate) (t : token) : option pstate :=
  match p with
  | PValue st => start_value t st
  | PFirstItem st =>
      match t with
      | TRBracket => Some (PAfter (JList []) st)
      | _ => start_value t (FList [] :: st)
      end
  | PFirstKey st =>
      match t with
      | TRBrace => Some (PAfter (JDict []) st)
      | TScalar (JStr k) => Some (PColon [] k st)
      | _ => None
      end
  | PKey done st =>
      match t with
      | TScalar (JStr k) => Some (PColon done k st)
      | _ => None
      end
  | PColon done k st =>
      match t with
      | TColon => Some (PValue (FDict done k :: st))
      | _ => None
      end
  | PAfter v st =>
      match st, t with
      | FList done :: st', TComma => Some (PValue (FList (v :: done) :: st'))
      | FList done :: st', TRBracket =>
          Some (PAfter (JList (rev (v :: done))) st')
      | FDict done k :: st', TComma => Some (PKey ((k, v) :: done) st')
      | FDict done k :: st', TRBrace =>
          Some (PAfter (JDict (dict_of_pairs (rev ((k, v) :: done)))) st')
      | _, _ => None
      end
  end.

Fixpoint run (p : pstate) (ts : list token) : option json :=
  match ts with
  | [] =>
      match p with
      | PAfter v [] => Some v
      | _ => None
      end
  | t :: ts' =>
      match step p t with
      | Some p' => run p' ts'
      | None => None
      end
  end.

(** [json.loads(text)]: [None] stands for a raised [JSONDecodeError].
    The interpreter's limits (recursion depth, digits of an integer) are
    left out. *)
Definition json_loads (text : str) : option json :=
  match tokens text with
  | Some ts => run (PValue []) ts
  | None => None
  end.

End Json.
Import Json.

(* ------------------------------------------------------------------ *)
(** ** Python operations on parsed documents *)

Module PyOps.

Definition type_name (v : json) : str :=
  match v with
  | JNull => lit "NoneType"
  | JBool _ => lit "bool"
  | JInt _ => lit "int"
  | JFloat _ => lit "float"
  | JStr _ => lit "str"
  | JList _ => lit "list"
  | JDict _ => lit "dict"
  end.

Definition no_attribute (v : json) (attr : str) : exn :=
  Exn AttributeError
      (squote ++ type_name v ++ lit "' object has no attribute '" ++ attr ++ squote).

Definition is_str (key : str) (v : json) : bool :=
  match v with
  | JStr s => str_eqb s key
  | _ => false
  end.

(** [key in v] *)
Definition py_contains (key : str) (v : json) : result bool :=
  match v with
  | JDict d =>
      Return (match dict_lookup key d with Some _ => true | None => false end)
  | JList l => Return (existsb (is_str key) l)
  | JStr s => Return (contains key s)
  | _ =>
      Raise (Exn TypeError
                 (lit "argument of type '" ++ type_name v ++ lit "' is not iterable"))
  end.

(** [v[key]] for a string [key] *)
Definition py_getitem (v : json) (key : str) : result json :=
  match v with
  | JDict d =>
      match dict_lookup key d with
      | Some x => Return x
      | None => Raise (Exn KeyError (squote ++ key ++ squote))
      end
  | JList _ =>
      Raise (Exn TypeError (lit "list indices must be integers or slices, not str"))
  | JStr _ =>
      Raise (Exn TypeError (lit "string indices must be integers, not 'str'"))
  | _ =>
      Raise (Exn TypeError
                 (squote ++ type_name v ++ lit "' object is not subscriptable"))
  end.

(** [v[0]] *)
Definition py_first (v : json) : result json :=
  match v with
  | JList (x :: _) => Return x
  | JList [] => Raise (Exn IndexError (lit "list index out of range"))
  | JStr (c :: _) => Return (JStr [c])
  | JStr [] => Raise (Exn IndexError (lit "string index out of range"))
  | JDict _ => Raise (Exn KeyError (lit "0"))
  | _ =>
      Raise (Exn TypeError
                 (squote ++ type_name v ++ lit "' object is not subscriptable"))
  end.

(** [len(v)] *)
Definition py_len (v : json) : result nat :=
  match v with
  | JList l => Return (List.length l)
  | JDict d => Return (List.length d)
  | JStr s => Return (List.length s)
  | _ =>
      Raise (Exn TypeError
                 (lit "object of type '" ++ type_name v ++ lit "' has no len()"))
  end.

(** [v.get(key, default)] *)
Definition py_get (v : json) (key : str) (default : json) : result json :=
  match v with
  | JDict d =>
      Return (match dict_lookup key d with Some x => x | None => default end)
  | _ => Raise (no_attribute v (lit "get"))
  end.

(** [list(v.keys())] *)
Definition py_keys (v : json) : result (list str) :=
  match v with
  | JDict d => Return (List.map fst d)
  | _ => Raise (no_attribute v (lit "keys"))
  end.

(** [parts[i]] on a list of strings *)
Definition py_index {A} (l : list A) (i : nat) : result A :=
  match nth_error l i with
  | Some x => Return x
  | None => Raise (Exn IndexError (lit "list index out of range"))
  end.

(** The exponent a float literal carries, zero when it has none. *)
Definition exponent_value (ep : str) : Z :=
  match ep with
  | _ :: 45 :: ds => (- digits_value ds)%Z
  | _ :: 43 :: ds => digits_value ds
  | _ :: ds => digits_value ds
  | [] => 0%Z
  end.

(** Whether the [float] a literal denotes is another number than zero.
    The constants [NaN], [Infinity] and [-Infinity] are.  A literal with
    digits [m] in integer part and fraction, [k] of them in the fraction,
    and exponent [x] has the value [m * 10^(x - k)]; Python rounds it to
    the nearest double, ties to even, so the result is zero exactly when
    the value is at most [2^-1075], half the smallest positive double. *)
Definition float_nonzero (lexeme : str) : bool :=
  let body := match lexeme with
              | 45 :: r => r
              | _ => lexeme
              end in
  match scan_int body with
  | None => match body with
            | [] => false
            | _ => true
            end
  | Some (ip, r1) =>
      let (fp, r2) := scan_frac r1 in
      let (ep, _) := scan_exp r2 in
      let m := digits_value (ip ++ tl fp) in
      let k := Z.of_nat (List.length (tl fp)) in
      let x := exponent_value ep in
      ((0 <? m) && ((k <=? x) || (10 ^ (k - x) <? m * 2 ^ 1075)))%Z
  end.

(** The truth value of a document in a condition. *)
Definition truthy (v : json) : bool :=
  match v with
  | JNull => false
  | JBool b => b
  | JInt z => negb (z =? 0)%Z
  | JFloat lexeme => float_nonzero lexeme
  | JStr s => match s with [] => false | _ => true end
  | JList l => match l with [] => false | _ => true end
  | JDict d => match d with [] => false | _ => true end
  end.

End PyOps.
Import PyOps.

(* ------------------------------------------------------------------ *)
(** ** The pipeline: logging, the API client, the splitter, [analyze] *)

Module Pipeline.

(** *** What the request does to the outside world *)

Inductive level := INFO | DEBUG | ERROR.

(** A fragment of a formatted log line. *)
Inductive piece :=
| Text (s : str)
| Shown (v : json)
| Count (n : nat)
| Names (l : list str).

(** The request handed to [requests.post]. *)
Record http_request := {
  req_url : json;
  req_authorization : json;   (* the key after [Bearer] *)
  req_payload : json;
  req_timeout : json
}.

Inductive event :=
| Log (lv : level) (msg : list piece)
| TruncateLog (log_file : json)
| OpenLog (log_file : json)
| SaveUpload (path : str) (data : list byte)
| HttpPost (r : http_request)
| WriteText (path : str) (text : str)
| WriteJson (path : str) (doc : json)
| Unlink (path : str).

Definition is_http (ev : event) : bool :=
  match ev with
  | HttpPost _ => true
  | _ => false
  end.

(** *** What the outside world answers *)

Inductive body_outcome :=
| BodyJson (v : json)               (* [response.json()] returns *)
| BodyRequestError (detail : str)   (* it raises a [RequestException] *)
| BodyJsonError (detail : str).     (* it raises a [json.JSONDecodeError]
                                       that is no [RequestException] *)

Record http_response := {
  status_code : N;
  status_detail : str;   (* [str] of the error [raise_for_status] builds *)
  body : body_outcome
}.

Inductive post_outcome :=
| PostRaises (detail : str)         (* a [RequestException] *)
| PostReturns (r : http_response).

Record env := {
  post : http_request -> post_outcome;
  json_error_detail : str -> str;   (* [str(e)] of the [JSONDecodeError] *)
  severity_tmp : str;               (* the names [tempfile] hands out *)
  json_tmp : str;
  markdown_name : str;
  json_name : str
}.

(** *** Computations that log, call out and may raise *)

Definition M (A : Type) : Type := (list event * result A)%type.

Definition ret {A} (a : A) : M A := ([], Return a).
Definition raise {A} (e : exn) : M A := ([], Raise e).
Definition emit (ev : event) : M unit := ([ev], Return tt).
Definition lift {A} (r : result A) : M A := ([], r).

Definition mbind {A B} (m : M A) (k : A -> M B) : M B :=
  match m with
  | (tr, Return a) => let (tr', r) := k a in (tr ++ tr', r)
  | (tr, Raise e) => (tr, Raise e)
  end.

Notation "x <- m ;; k" := (mbind m (fun x => k))
  (at level 61, m at next level, right associativity).
Notation "m ;;; k" := (mbind m (fun _ => k))
  (at level 61, right associativity).

(** *** Configuration and logger *)

(** The dictionary [load_config] returns for a [config.json] that holds a
    JSON object. *)
Definition config := list (str * json).

(** [config.get(key, default)] *)
Definition config_get (c : config) (key : str) (default : json) : json :=
  match dict_lookup key c with
  | Some v => v
  | None => default
  end.

(** [config[key]] *)
Definition config_item (c : config) (key : str) : result json :=
  match dict_lookup key c with
  | Some v => Return v
  | None => Raise (Exn KeyError (squote ++ key ++ squote))
  end.

Inductive logger := Logger.

(** A call guarded by [if logger:]. *)
Definition log (lg : option logger) (lv : level) (msg : list piece) : M unit :=
  match lg with
  | Some _ => emit (Log lv msg)
  | None => ret tt
  end.

(** A formatted call guarded by [if logger:]; the arguments of the
    f-string are evaluated only when the logger is there. *)
Definition log_with {A} (lg : option logger) (lv : level) (arg : result A)
    (msg : A -> list piece) : M unit :=
  match lg with
  | Some _ => a <- lift arg ;; emit (Log lv (msg a))
  | None => ret tt
  end.

(** A call on [logger] without the guard: the attribute is looked up on
    [None] before the argument is evaluated. *)
Definition log_unguarded {A} (lg : option logger) (lv : level) (arg : result A)
    (msg : A -> list piece) : M unit :=
  match lg with
  | Some _ => a <- lift arg ;; emit (Log lv (msg a))
  | None => raise (no_attribute JNull (lit "info"))
  end.

(** [setup_logging].  The log file is taken to open: where
    [logging.FileHandler] raises at line 45, outside any [try] block, the
    exception leaves the caller; that case is left out. *)
Definition setup_logging (c : config) : list event * option logger :=
  if negb (truthy (config_get c (lit "debug_logging") (JBool false)))
  then ([], None)
  else
    let log_file := config_get c (lit "log_file") (JStr (lit "pffavre_debug.log")) in
    let truncate := config_get c (lit "truncate_log_file_on_run") (JBool false) in
    ((if truthy truncate then [TruncateLog log_file] else [])
     ++ [OpenLog log_file;
         Log INFO [Text (lit "=== PFFaRVE Application Started ===")];
         Log INFO [Text (lit "Logging to file: "); Shown log_file];
         Log INFO [Text (lit "Log truncation on run: "); Shown truncate]],
     Some Logger).

(** *** The API client *)

Definition lines (ls : list str) : str :=
  List.concat (List.map (fun l => l ++ newline) ls).

Definition mock_response : str :=
  lines [
    lit "# Vulnerability Risk Analysis Report";
    lit "";
    lit "## Executive Summary";
    lit "This is a mock analysis response for testing purposes. The actual API call was skipped due to 'just_log_prompts' being enabled in the configuration.";
    lit "";
    lit "## Analysis Results";
    lit "- Total tickets analyzed: [Mock Data]";
    lit "- High severity issues: [Mock Data]";
    lit "- Medium severity issues: [Mock Data]";
    lit "- Low severity issues: [Mock Data]";
    lit "";
    lit "## Recommendations";
    lit "1. Review high-severity vulnerabilities immediately";
    lit "2. Implement security patches for critical systems";
    lit "3. Conduct regular security assessments";
    lit "";
    lit "*Note: This is mock data generated for testing purposes.*"
  ].

Definition default_model : json := JStr (lit "claude-sonnet-4").

Definition payload_of (c : config) (prompt : str) : json :=
  JDict [
    (lit "model", config_get c (lit "model") default_model);
    (lit "messages",
       JList [JDict [(lit "role", JStr (lit "user"));
                     (lit "content", JStr prompt)]]);
    (lit "max_tokens", config_get c (lit "max_tokens") (JInt 4000));
    (lit "temperature", config_get c (lit "temperature") (JFloat (lit "0.1")))
  ].

(** The two [except] clauses: log, then raise a plain [Exception]. *)
Definition api_failure {A} (lg : option logger) (prefix detail : str) : M A :=
  let error_msg := prefix ++ detail in
  log lg ERROR [Text error_msg] ;;;
  raise (Exn PlainException error_msg).

Definition unexpected_format : str := lit "Unexpected API response format".

(** The condition ['choices' in result and len(result['choices']) > 0]. *)
Definition has_choices (result : json) : Py.result bool :=
  Py.bind (py_contains (lit "choices") result) (fun present =>
    if present
    then Py.bind (py_getitem result (lit "choices")) (fun choices =>
         Py.bind (py_len choices) (fun n => Return (Nat.ltb 0 n)))
    else Return false).

(** [result['choices'][0]['message']['content']] *)
Definition extract_content (result : json) : Py.result json :=
  Py.bind (py_getitem result (lit "choices")) (fun choices =>
  Py.bind (py_first choices) (fun first =>
  Py.bind (py_getitem first (lit "message")) (fun message =>
  py_getitem message (lit "content")))).

Definition call_abacus_api (E : env) (c : config) (prompt : str)
    (lg : option logger) : M json :=
  log lg INFO [Text (lit "=== API Call Starting ===")] ;;;
  log lg INFO [Text (lit "Model: "); Shown (config_get c (lit "model") default_model)] ;;;
  log lg INFO [Text (lit "Max tokens: "); Shown (config_get c (lit "max_tokens") (JInt 4000))] ;;;
  log lg INFO [Text (lit "Temperature: ");
               Shown (config_get c (lit "temperature") (JFloat (lit "0.1")))] ;;;
  log lg INFO [Text (lit "Prompt length: "); Count (List.length prompt);
               Text (lit " characters")] ;;;
  log lg DEBUG [Text (lit "=== PROMPT START ===")] ;;;
  log lg DEBUG [Text prompt] ;;;
  log lg DEBUG [Text (lit "=== PROMPT END ===")] ;;;
  if truthy (config_get c (lit "just_log_prompts") (JBool false)) then
    log lg INFO [Text (lit "=== MOCK RESPONSE (just_log_prompts=true) ===")] ;;;
    log lg INFO [Text (lit "Returning mock analysis instead of calling API")] ;;;
    ret (JStr mock_response)
  else
    api_key <- lift (config_item c (lit "abacus_api_key")) ;;
    let payload := payload_of c prompt in
    log lg INFO [Text (lit "Sending request to Abacus.AI API...")] ;;;
    url <- lift (config_item c (lit "abacus_api_url")) ;;
    let request := {| req_url := url;
                      req_authorization := api_key;
                      req_payload := payload;
                      req_timeout := config_get c (lit "timeout") (JInt 300) |} in
    emit (HttpPost request) ;;;
    match post E request with
    | PostRaises detail => api_failure lg (lit "API request failed: ") detail
    | PostReturns response =>
        log lg INFO [Text (lit "API Response Status: ");
                     Shown (JInt (Z.of_N (status_code response)))] ;;;
        if (400 <=? status_code response) && (status_code response <? 600)
        then api_failure lg (lit "API request failed: ") (status_detail response)
        else
          match body response with
          | BodyRequestError detail =>
              api_failure lg (lit "API request failed: ") detail
          | BodyJsonError detail =>
              api_failure lg (lit "Failed to parse API response: ") detail
          | BodyJson result =>
              log lg DEBUG [Text (lit "=== API RESPONSE START ===")] ;;;
              log lg DEBUG [Shown result] ;;;
              log lg DEBUG [Text (lit "=== API RESPONSE END ===")] ;;;
              ok <- lift (has_choices result) ;;
              if ok then
                content <- lift (extract_content result) ;;
                log_with lg INFO (py_len content)
                  (fun n => [Text (lit "Successfully received response (");
                             Count n; Text (lit " characters)")]) ;;;
                ret content
              else
                log lg ERROR [Text unexpected_format] ;;;
                raise (Exn ValueError unexpected_format)
          end
    end.

(** *** The prompt *)

Definition build_prompt (severity_content json_content : str) : str :=
  lit "You are a cybersecurity expert analyzing vulnerability data. Please analyze the following AttackIQ assessment data using the provided severity classification criteria." ++ newline
  ++ newline
  ++ lit "SEVERITY CLASSIFICATION CRITERIA:" ++ newline
  ++ severity_content ++ newline
  ++ newline
  ++ lit "ATTACKIQ ASSESSMENT DATA:" ++ newline
  ++ json_content ++ newline
  ++ newline
  ++ lit "Please provide:" ++ newline
  ++ lit "1. A comprehensive markdown analysis report" ++ newline
  ++ lit "2. For each ticket in the JSON data, add a " ++ dquote
       ++ lit "severity_analysis" ++ dquote ++ lit " object with:" ++ newline
  ++ lit "   - initial_severity: Based on the raw data" ++ newline
  ++ lit "   - adjusted_severity: Your expert assessment" ++ newline
  ++ lit "   - risk_factors: List of factors that increase risk" ++ newline
  ++ lit "   - mitigating_factors: List of factors that reduce risk" ++ newline
  ++ lit "   - confidence_score: Your confidence in the assessment (0-100)" ++ newline
  ++ lit "   - reasoning: Brief explanation of your assessment" ++ newline
  ++ newline
  ++ lit "Return your response in the following format:" ++ newline
  ++ lit "1. First, provide the markdown analysis report" ++ newline
  ++ lit "2. Then, provide the enhanced JSON with severity_analysis added to each ticket" ++ newline
  ++ newline
  ++ lit "Separate the markdown and JSON sections clearly.".

(** *** The response splitter *)

Definition json_marker : str := lit "```json".
Definition fence : str := lit "```".

(** Lines 272 to 282: the report text and the enhanced document taken
    from the model's answer, with the uploaded document as fallback. *)
Definition split_response (analysis_result : str) (json_data : json)
  : result (str * json) :=
  let parts := split json_marker analysis_result in
  if Nat.ltb 1 (List.length parts) then
    Py.bind (py_index parts 0) (fun part0 =>
    Py.bind (py_index parts 1) (fun part1 =>
    Py.bind (py_index (split fence part1) 0) (fun inner =>
      let markdown_part := strip part0 in
      let json_part := strip inner in
      let enhanced_json :=
        match json_loads json_part with
        | Some v => v
        | None => json_data
        end in
      Return (markdown_part, enhanced_json))))
  else Return (analysis_result, json_data).

(** *** The request and its answer *)

Record upload := { filename : str; data : list byte }.

(** [request.files]: each of the two fields may be missing. *)
Record request := {
  severity_file : option upload;
  json_file : option upload
}.

(** The dictionary handed to [jsonify]. *)
Inductive response :=
| Failure (error : str)
| Success (markdown_file json_file : str) (tickets_analyzed : nat)
          (model_used prompt_only_mode : json)
          (analysis_preview analysis : str) (modified_json : json).

Definition success (r : response) : bool :=
  match r with
  | Success _ _ _ _ _ _ _ _ => true
  | Failure _ => false
  end.

Definition is_empty (s : str) : bool :=
  match s with
  | [] => true
  | _ => false
  end.

(** [analysis_result[:500] + '...' if len(analysis_result) > 500 else
    analysis_result] *)
Definition preview (analysis_result : str) : str :=
  if Nat.ltb 500 (List.length analysis_result)
  then slice_to 500 analysis_result ++ lit "..."
  else analysis_result.

(** The [try] block of [analyze], after both uploads were found and named. *)
Definition analyze_files (E : env) (c : config) (lg : option logger)
    (sev js : upload) : M response :=
  log lg INFO [Text (lit "Processing files: "); Text (filename sev);
               Text (lit ", "); Text (filename js)] ;;;
  emit (SaveUpload (severity_tmp E) (data sev)) ;;;
  sr <- lift (read_file_with_encoding (severity_tmp E) (data sev)) ;;
  emit (SaveUpload (json_tmp E) (data js)) ;;;
  jr <- lift (read_file_with_encoding (json_tmp E) (data js)) ;;
  let severity_content := fst sr in
  let json_content := fst jr in
  log lg INFO [Text (lit "Severity file encoding: ");
               Text (encoding_name (snd sr))] ;;;
  log lg INFO [Text (lit "JSON file encoding: ");
               Text (encoding_name (snd jr))] ;;;
  match json_loads json_content with
  | None =>
      let error_msg := lit "Invalid JSON file: " ++ json_error_detail E json_content in
      log lg ERROR [Text error_msg] ;;;
      ret (Failure error_msg)
  | Some json_data =>
      log_with lg INFO (py_keys json_data)
        (fun ks => [Text (lit "JSON parsed successfully. Keys: "); Names ks]) ;;;
      has_tickets <- lift (py_contains (lit "tickets") json_data) ;;
      (if has_tickets
       then log_unguarded lg INFO
              (Py.bind (py_getitem json_data (lit "tickets")) py_len)
              (fun n => [Text (lit "Found "); Count n; Text (lit " tickets")])
       else ret tt) ;;;
      let prompt := build_prompt severity_content json_content in
      log lg INFO [Text (lit "Calling Abacus.AI API for analysis...")] ;;;
      answer <- call_abacus_api E c prompt lg ;;
      log lg INFO [Text (lit "Analysis completed successfully")] ;;;
      match answer with
      | JStr analysis_result =>
          parts <- lift (split_response analysis_result json_data) ;;
          let markdown_part := fst parts in
          let enhanced_json := snd parts in
          match encode Utf8 markdown_part with
          | None =>
              (* the file has been created and stays empty *)
              emit (WriteText (markdown_name E) []) ;;;
              raise (Exn UnicodeEncodeError (encode_error_message markdown_part))
          | Some _ =>
              emit (WriteText (markdown_name E) markdown_part) ;;;
              emit (WriteJson (json_name E) enhanced_json) ;;;
              log lg INFO [Text (lit "Results saved to: "); Text (markdown_name E);
                           Text (lit ", "); Text (json_name E)] ;;;
              log lg INFO [Text (lit "=== Analysis Request Completed Successfully ===")] ;;;
              emit (Unlink (severity_tmp E)) ;;;
              emit (Unlink (json_tmp E)) ;;;
              tickets <- lift (py_get json_data (lit "tickets") (JList [])) ;;
              n <- lift (py_len tickets) ;;
              ret (Success (markdown_name E) (json_name E) n
                     (config_get c (lit "model") default_model)
                     (config_get c (lit "just_log_prompts") (JBool false))
                     (preview analysis_result) analysis_result enhanced_json)
          end
      | other => raise (no_attribute other (lit "split"))
      end
  end.

(** The whole [try] block. *)
Definition analyze_try (E : env) (c : config) (lg : option logger)
    (req : request) : M response :=
  match severity_file req, json_file req with
  | Some sev, Some js =>
      if is_empty (filename sev) || is_empty (filename js) then
        let error_msg := lit "Both files must be selected" in
        log lg ERROR [Text error_msg] ;;;
        ret (Failure error_msg)
      else analyze_files E c lg sev js
  | _, _ =>
      let error_msg := lit "Both severity_file and json_file are required" in
      log lg ERROR [Text error_msg] ;;;
      ret (Failure error_msg)
  end.

(** [analyze] once the logger is known: the [try] block and its
    [except Exception] clause.  Every exception of the model is an
    [Exception], so the clause catches them all. *)
Definition analyze_logged (E : env) (c : config) (lg : option logger)
    (req : request) : list event * response :=
  match analyze_try E c lg req with
  | (tr, Return r) => (tr, r)
  | (tr, Raise e) =>
      let error_msg := lit "Analysis failed: " ++ exn_str e in
      let (tr', _) :=
        log lg ERROR [Text error_msg] ;;;
        log lg ERROR [Text (lit "=== Analysis Request Failed ===")] in
      (tr ++ tr', Failure error_msg)
  end.

(** The route [/analyze].  [loaded] is what [load_config] returned. *)
Definition analyze (E : env) (loaded : option config) (req : request)
  : list event * response :=
  match loaded with
  | None | Some [] =>
      ([], Failure (lit "Configuration file not found or invalid"))
  | Some c =>
      let (tr0, lg) := setup_logging c in
      let (tr1, _) := log lg INFO [Text (lit "=== New Analysis Request ===")] in
      let (tr2, r) := analyze_logged E c lg req in
      (tr0 ++ tr1 ++ tr2, r)
  end.

End Pipeline.
Import Pipeline.

(* ------------------------------------------------------------------ *)
(** ** Notions used in the statements *)

Module Notions.

(** *** Occurrences of a separator *)

(** [sep] occurs nowhere in [s]. *)
Definition NoOcc (sep s : str) : Prop :=
  forall pre post, s <> pre ++ sep ++ post.

(** [pre] is what precedes the first occurrence of [sep] in [s], and
    [post] what follows it. *)
Definition FirstOcc (sep s pre post : str) : Prop :=
  s = pre ++ sep ++ post
  /\ forall pre' post', s = pre' ++ sep ++ post' ->
                        (List.length pre <= List.length pre')%nat.

(** [s.partition(sep)], with [None] when [sep] is not found. *)
Fixpoint partition (sep s : str) {struct s} : option (str * str) :=
  if startswith sep s then Some ([], skipn (List.length sep) s)
  else match s with
       | [] => None
       | c :: s' =>
           option_map (fun p => (c :: fst p, snd p)) (partition sep s')
       end.

(** *** The splitter's candidate *)

(** The parsed candidate, or the uploaded document when it does not parse. *)
Definition or_original (parsed : option json) (json_data : json) : json :=
  match parsed with
  | Some v => v
  | None => json_data
  end.

(** What precedes the first occurrence of [sep], or all of [s]. *)
Definition head_piece (sep s : str) : str :=
  match partition sep s with
  | None => s
  | Some (pre, _) => pre
  end.

(** *** Traces *)

(** No event of [tr] satisfies [p]. *)
Definition none_of (p : event -> bool) (tr : list event) : Prop :=
  existsb p tr = false.

Definition is_artifact_write (ev : event) : bool :=
  match ev with
  | WriteText _ _ | WriteJson _ _ => true
  | _ => false
  end.

(** *** Requests *)

(** A text as the bytes of an uploaded UTF-8 file. *)
Definition utf8_bytes (s : str) : list byte :=
  match encode Utf8 s with
  | Some bs => bs
  | None => []
  end.

Definition request_of (sev js : upload) : request :=
  {| severity_file := Some sev; json_file := Some js |}.

(** The number of tickets a dataset is reported with. *)
Definition ticket_count (json_data : json) : result nat :=
  Py.bind (py_get json_data (lit "tickets") (JList [])) py_len.

(** *** The first end-to-end scenario of the specification *)

Definition scenario_severity : str := lit "Critical: CVSS>=9".

Definition scenario_dataset : str :=
  lit "{" ++ dquote ++ lit "tickets" ++ dquote ++ lit ":[{"
  ++ dquote ++ lit "id" ++ dquote ++ lit ":1}]}".

Definition scenario_request : request :=
  request_of {| filename := lit "severity.md";
                data := utf8_bytes scenario_severity |}
             {| filename := lit "tickets.json";
                data := utf8_bytes scenario_dataset |}.

Definition scenario_document : list (str * json) :=
  [(lit "tickets", JList [JDict [(lit "id", JInt 1)]])].

Definition report_heading : str := lit "# Vulnerability Risk Analysis Report".

(** *** Sample surroundings *)

Definition sample_env : env :=
  {| post := fun _ => PostRaises (lit "connection refused");
     json_error_detail := fun _ => lit "Expecting value: line 1 column 12 (char 11)";
     severity_tmp := lit "/tmp/tmpa1.md";
     json_tmp := lit "/tmp/tmpb2.json";
     markdown_name := lit "/tmp/tmpc3.md";
     json_name := lit "/tmp/tmpd4.json" |}.

Definition mock_config : config := [(lit "just_log_prompts", JBool true)].

Definition live_config : config :=
  [(lit "abacus_api_url", JStr (lit "https://api.example/v1/chat"));
   (lit "abacus_api_key", JStr (lit "secret"))].

Definition reply_without_message : http_response :=
  {| status_code := 200;
     status_detail := [];
     body := BodyJson (JDict [(lit "choices", JList [JDict []])]) |}.

Definition replying_env (response : http_response) : env :=
  {| post := fun _ => PostReturns response;
     json_error_detail := fun _ => lit "Expecting value: line 1 column 12 (char 11)";
     severity_tmp := lit "/tmp/tmpa1.md";
     json_tmp := lit "/tmp/tmpb2.json";
     markdown_name := lit "/tmp/tmpc3.md";
     json_name := lit "/tmp/tmpd4.json" |}.

End Notions.
Import Notions.

(* ------------------------------------------------------------------ *)
(** ** The routes around [analyze]: configuration and retrieval *)

Module Routes.

(** [load_config]: what the function returns for the text of
    [config.json], [None] standing for a missing file.  Both handled
    exceptions, the missing file and the text that is not JSON, give
    [None]. *)
Definition load_config (config_json : option str) : option json :=
  match config_json with
  | None => None
  | Some text => json_loads text
  end.

(** The route [/analyze] over the text of [config.json].  A loaded value
    that is false in a condition gives the configuration error.  A true
    value that is no dictionary has no method [get]: [setup_logging]
    raises outside the [try] block and the route does not answer. *)
Definition analyze_route (E : env) (config_json : option str) (req : request)
  : result (list event * response) :=
  match load_config config_json with
  | None => Return (analyze E None req)
  | Some (JDict c) => Return (analyze E (Some c) req)
  | Some other =>
      if truthy other then Raise (no_attribute other (lit "get"))
      else Return ([], Failure (lit "Configuration file not found or invalid"))
  end.

(** [s.endswith(suffix)] *)
Definition endswith (suffix s : str) : bool :=
  startswith (rev suffix) (rev s).

(** [os.path.join(directory, name)] on a POSIX system. *)
Definition path_join (directory name : str) : str :=
  if startswith (lit "/") name then name
  else if is_empty directory || endswith (lit "/") directory
       then directory ++ name
       else directory ++ lit "/" ++ name.

(** What a path holds: an upload as it was saved, a text or a document
    as [analyze] wrote it. *)
Inductive file :=
| Uploaded (data : list byte)
| TextFile (text : str)
| JsonFile (doc : json).

(** The files by path. *)
Definition files := str -> option file.

Definition write_file (path : str) (f : file) (fs : files) : files :=
  fun p => if str_eqb p path then Some f else fs p.

Definition remove_file (path : str) (fs : files) : files :=
  fun p => if str_eqb p path then None else fs p.

(** What an event of a request does to the files (the log file is left
    out). *)
Definition apply_event (fs : files) (ev : event) : files :=
  match ev with
  | SaveUpload path data => write_file path (Uploaded data) fs
  | WriteText path text => write_file path (TextFile text) fs
  | WriteJson path doc => write_file path (JsonFile doc) fs
  | Unlink path => remove_file path fs
  | _ => fs
  end.

Definition files_after (tr : list event) (fs : files) : files :=
  fold_left apply_event tr fs.

(** The answer of a download route: the file sent as an attachment, or a
    status with an error.  (The [except] clause of the routes, status 500,
    is left out: nothing modelled here raises.) *)
Inductive download_response :=
| Sent (file_path : str) (content : file) (download_name : str)
| Refused (status : N) (error : str).

Definition download_markdown (temp_dir : str) (fs : files) (filename : str)
  : download_response :=
  if negb (endswith (lit ".md") filename)
  then Refused 400 (lit "Invalid file type")
  else
    let file_path := path_join temp_dir filename in
    match fs file_path with
    | None => Refused 404 (lit "File not found")
    | Some content => Sent file_path content (lit "vulnerability_analysis.md")
    end.

Definition download_json (temp_dir : str) (fs : files) (filename : str)
  : download_response :=
  if negb (endswith (lit ".json") filename)
  then Refused 400 (lit "Invalid file type")
  else
    let file_path := path_join temp_dir filename in
    match fs file_path with
    | None => Refused 404 (lit "File not found")
    | Some content => Sent file_path content (lit "enhanced_tickets.json")
    end.

End Routes.
Import Routes.

(* ------------------------------------------------------------------ *)
(** ** Further notions used in the statements *)

Module MoreNotions.

(** A text made of characters [strip] removes. *)
Definition spaces (tail : str) : Prop :=
  Forall (fun c => isspace c = true) tail.

(** A scanner's result with [tail] put back after what it left. *)
Definition with_tail {A} (tail : str) (p : A * str) : A * str :=
  (fst p, snd p ++ tail).

(** The requests posted, in order. *)
Definition posts (tr : list event) : list http_request :=
  flat_map (fun ev => match ev with HttpPost r => [r] | _ => [] end) tr.

(** An event that touches the log. *)
Definition is_logging (ev : event) : bool :=
  match ev with
  | Log _ _ | TruncateLog _ | OpenLog _ => true
  | _ => false
  end.

(** The byte values code page 1252 leaves unassigned. *)
Definition cp1252_unassigned (b : byte) : bool :=
  existsb (N.eqb (Byte.to_N b)) [129; 141; 143; 144; 157].

(** The encoding the reader reports for a content. *)
Definition reported_encoding (content : list byte) : encoding :=
  match utf8_decode content with
  | Some _ => Utf8
  | None => if existsb cp1252_unassigned content then Latin1 else Windows1252
  end.

(** The log calls raise no event that [p] holds of: there is no logger,
    or [p] holds of no log line. *)
Definition quiet (p : event -> bool) (lg : option logger) : Prop :=
  lg = None \/ forall lv msg, p (Log lv msg) = false.

(** The text the reader returns for a content. *)
Definition read_text (content : list byte) : str :=
  match decode (reported_encoding content) content with
  | Some text => translate_newlines text
  | None => []
  end.

Definition is_unlink (ev : event) : bool :=
  match ev with
  | Unlink _ => true
  | _ => false
  end.

(** What the two log calls that follow the parse of the dataset raise or
    return, without their events (lines 226 to 229). *)
Definition ticket_stage (lg : option logger) (json_data : json) : result unit :=
  Py.bind (match lg with
           | Some _ => Py.bind (py_keys json_data) (fun _ => Return tt)
           | None => Return tt
           end) (fun _ =>
  Py.bind (py_contains (lit "tickets") json_data) (fun has_tickets =>
    if has_tickets
    then match lg with
         | Some _ =>
             Py.bind (Py.bind (py_getitem json_data (lit "tickets")) py_len)
                     (fun _ => Return tt)
         | None => Raise (no_attribute JNull (lit "info"))
         end
    else Return tt)).

(** What the request answers once the client has returned, without the
    events (lines 272 to 313). *)
Definition finish (E : env) (c : config) (json_data : json) (answer : json)
  : result response :=
  match answer with
  | JStr analysis_result =>
      Py.bind (split_response analysis_result json_data) (fun parts =>
      match encode Utf8 (fst parts) with
      | None =>
          Raise (Exn UnicodeEncodeError (encode_error_message (fst parts)))
      | Some _ =>
          Py.bind (ticket_count json_data) (fun n =>
          Return (Success (markdown_name E) (json_name E) n
                    (config_get c (lit "model") default_model)
                    (config_get c (lit "just_log_prompts") (JBool false))
                    (preview analysis_result) analysis_result (snd parts)))
      end)
  | other => Raise (no_attribute other (lit "split"))
  end.

(** The events of the request from the first artifact on, once the
    splitter has given [parts] (lines 285 to 298). *)
Definition persist_events (E : env) (lg : option logger) (parts : str * json)
  : list event :=
  [WriteText (markdown_name E) (fst parts);
   WriteJson (json_name E) (snd parts)]
  ++ fst (log lg INFO [Text (lit "Results saved to: "); Text (markdown_name E);
                       Text (lit ", "); Text (json_name E)])
  ++ fst (log lg INFO [Text (lit "=== Analysis Request Completed Successfully ===")])
  ++ [Unlink (severity_tmp E); Unlink (json_tmp E)].

(** The request the client posts for a configuration and a prompt. *)
Definition request_for (c : config) (prompt : str) (key url : json)
  : http_request :=
  {| req_url := url;
     req_authorization := key;
     req_payload := payload_of c prompt;
     req_timeout := config_get c (lit "timeout") (JInt 300) |}.

(** A reply whose first choice carries [content] as its message. *)
Definition reply_with (content : json) : json :=
  JDict [(lit "choices",
          JList [JDict [(lit "message", JDict [(lit "content", content)])]])].

(** *** The instruction template of the prompt *)

(** What the f-string of lines 237 to 259 holds before the severity
    text, between the two texts, and after the dataset text, line by
    line. *)
Definition prompt_head : str :=
  join newline [
    lit "You are a cybersecurity expert analyzing vulnerability data. Please analyze the following AttackIQ assessment data using the provided severity classification criteria.";
    lit "";
    lit "SEVERITY CLASSIFICATION CRITERIA:";
    lit ""
  ].

Definition prompt_middle : str :=
  join newline [
    lit "";
    lit "";
    lit "ATTACKIQ ASSESSMENT DATA:";
    lit ""
  ].

Definition prompt_tail : str :=
  join newline [
    lit "";
    lit "";
    lit "Please provide:";
    lit "1. A comprehensive markdown analysis report";
    lit "2. For each ticket in the JSON data, add a " ++ dquote
      ++ lit "severity_analysis" ++ dquote ++ lit " object with:";
    lit "   - initial_severity: Based on the raw data";
    lit "   - adjusted_severity: Your expert assessment";
    lit "   - risk_factors: List of factors that increase risk";
    lit "   - mitigating_factors: List of factors that reduce risk";
    lit "   - confidence_score: Your confidence in the assessment (0-100)";
    lit "   - reasoning: Brief explanation of your assessment";
    lit "";
    lit "Return your response in the following format:";
    lit "1. First, provide the markdown analysis report";
    lit "2. Then, provide the enhanced JSON with severity_analysis added to each ticket";
    lit "";
    lit "Separate the markdown and JSON sections clearly."
  ].

(** *** JSON by the standard *)

(** One of the three constants Python adds to the grammar of JSON. *)
Definition is_constant (t : token) : bool :=
  match t with
  | TScalar (JFloat lexeme) =>
      str_eqb lexeme (lit "NaN") || str_eqb lexeme (lit "Infinity")
      || str_eqb lexeme (lit "-Infinity")
  | _ => false
  end.

(** A text that is JSON as RFC 8259 has it: [json.loads] accepts it and
    it holds none of [NaN], [Infinity] and [-Infinity]. *)
Definition standard_json (text : str) : bool :=
  match tokens text, json_loads text with
  | Some ts, Some _ => negb (existsb is_constant ts)
  | _, _ => false
  end.

End MoreNotions.
Import MoreNotions.

(* ------------------------------------------------------------------ *)
(** ** Properties of the codecs *)

Section CodecFacts.

Lemma to_N_byte_of_N (n : N) : n < 256 -> Byte.to_N (byte_of_N n) = n.
Proof.
  intros Hn. unfold byte_of_N.
  destruct (Byte.of_N n) as [b|] eqn:Hb.
  - now apply Byte.to_of_N.
  - apply Byte.of_N_None_iff in Hb. lia.
Qed.

(** Quotient and remainder by 64, named so that linear arithmetic
    applies. *)
Lemma split64 (c : N) : exists q r, c = 64 * q + r /\ r < 64 /\ c / 64 = q /\ c mod 64 = r.
Proof.
  exists (c / 64), (c mod 64). repeat split.
  - apply N.div_mod. discriminate.
  - apply N.mod_lt. discriminate.
Qed.

Lemma some_inj {A} (x y : A) : Some x = Some y -> x = y.
Proof. congruence. Qed.

Ltac decide_test :=
  match goal with
  | |- context [?a <? ?b] =>
      let H := fresh in destruct (N.ltb_spec a b) as [H|H]; try lia
  | |- context [?a <=? ?b] =>
      let H := fresh in destruct (N.leb_spec a b) as [H|H]; try lia
  | |- context [?a =? ?b] =>
      let H := fresh in destruct (N.eqb_spec a b) as [H|H]; try lia
  end.

(** Decoding undoes the encoding of one code point, whatever follows. *)
Lemma utf8_decode_encode_cp (c : N) (bs rest : list byte) :
  utf8_encode_cp c = Some bs ->
  utf8_decode (bs ++ rest) = option_map (cons c) (utf8_decode rest).
Proof.
  unfold utf8_encode_cp, is_surrogate.
  destruct (split64 c) as (q1 & r1 & Hc & Hr1 & Hq1 & Hm1).
  destruct (split64 q1) as (q2 & r2 & Hc2 & Hr2 & Hq2 & Hm2).
  destruct (split64 q2) as (q3 & r3 & Hc3 & Hr3 & Hq3 & Hm3).
  replace (c / 4096) with q2
    by (change 4096 with (64 * 64); rewrite <- N.Div0.div_div; congruence).
  replace (c / 262144) with q3
    by (change 262144 with (64 * 64 * 64);
        rewrite <- !N.Div0.div_div; congruence).
  rewrite Hq1, Hm1, Hm2.
  destruct (N.ltb_spec c 128) as [H1|H1].
  { intros Hbs; apply some_inj in Hbs; subst bs. cbn [app utf8_decode].
    rewrite to_N_byte_of_N by lia.
    destruct (N.ltb_spec c 128); [reflexivity | lia]. }
  destruct (N.ltb_spec c 2048) as [H2|H2].
  { intros Hbs; apply some_inj in Hbs; subst bs. cbn [app utf8_decode].
    rewrite !to_N_byte_of_N by lia. unfold is_cont.
    repeat decide_test; cbn [andb negb orb]; f_equal; f_equal; lia. }
  destruct (N.ltb_spec c 65536) as [H3|H3].
  { destruct (N.leb_spec 55296 c) as [H4|H4];
      destruct (N.leb_spec c 57343) as [H5|H5]; cbn [andb];
      try discriminate;
      intros Hbs; apply some_inj in Hbs; subst bs; cbn [app utf8_decode];
      rewrite !to_N_byte_of_N by lia; unfold is_cont;
      repeat decide_test; cbn [andb negb orb];
      f_equal; f_equal; lia. }
  destruct (N.ltb_spec c 1114112) as [H4|H4]; [|discriminate].
  intros Hbs; apply some_inj in Hbs; subst bs. cbn [app utf8_decode].
  rewrite !to_N_byte_of_N by lia. unfold is_cont.
  repeat decide_test; cbn [andb negb orb];
  f_equal; f_equal; lia.
Qed.

End CodecFacts.

Section CodecRoundTrip.

Lemma cp1252_decode_cons (b : byte) (r : list byte) (c : N) :
  cp1252_high (Byte.to_N b) = Some c ->
  cp1252_decode (b :: r) = option_map (cons c) (cp1252_decode r).
Proof.
  intros H. cbn [cp1252_decode]. rewrite H.
  now destruct (cp1252_decode r).
Qed.

Lemma cp1252_decode_encode_cp (c : N) (bs rest : list byte) :
  cp1252_encode_cp c = Some bs ->
  cp1252_decode (bs ++ rest) = option_map (cons c) (cp1252_decode rest).
Proof.
  unfold cp1252_encode_cp.
  destruct (find _ all_bytes) as [b|] eqn:Hfind; [|discriminate].
  intros Hbs. apply some_inj in Hbs. subst bs.
  apply find_some in Hfind. destruct Hfind as [_ Hb].
  destruct (cp1252_high (Byte.to_N b)) as [c'|] eqn:Hhigh; [|discriminate].
  apply N.eqb_eq in Hb. subst c'.
  now apply cp1252_decode_cons.
Qed.

Lemma latin1_decode_encode_cp (c : N) (bs rest : list byte) :
  latin1_encode_cp c = Some bs ->
  latin1_decode (bs ++ rest) = option_map (cons c) (latin1_decode rest).
Proof.
  unfold latin1_encode_cp, latin1_decode.
  destruct (N.ltb_spec c 256) as [Hc|Hc]; [|discriminate].
  intros Hbs. apply some_inj in Hbs. subst bs.
  cbn. now rewrite to_N_byte_of_N.
Qed.

(** A decoder that undoes the encoder one character at a time undoes it
    on whole texts. *)
Lemma decode_encode_with (enc : N -> option (list byte))
    (dec : list byte -> option str) :
  dec [] = Some [] ->
  (forall c bs rest, enc c = Some bs ->
                     dec (bs ++ rest) = option_map (cons c) (dec rest)) ->
  forall s bs, encode_with enc s = Some bs -> dec bs = Some s.
Proof.
  intros Hnil Hstep. induction s as [|c s IH]; intros bs; cbn [encode_with].
  - intros Hbs. apply some_inj in Hbs. now subst bs.
  - destruct (enc c) as [b1|] eqn:Hc; [|discriminate].
    destruct (encode_with enc s) as [b2|] eqn:Hs; [|discriminate].
    intros Hbs. apply some_inj in Hbs. subst bs.
    rewrite (Hstep _ _ _ Hc), (IH _ eq_refl). reflexivity.
Qed.

(** Each codec reads back what it wrote. *)
Lemma decode_encode (e : encoding) (s : str) (bs : list byte) :
  encode e s = Some bs -> decode e bs = Some s.
Proof.
  destruct e; cbn [encode decode]; apply decode_encode_with;
    try reflexivity.
  - apply utf8_decode_encode_cp.
  - apply cp1252_decode_encode_cp.
  - apply latin1_decode_encode_cp.
Qed.

Lemma translate_newlines_id (s : str) :
  ~ In 13 s -> translate_newlines s = s.
Proof.
  induction s as [|c s IH]; intros Hcr; [reflexivity|].
  cbn [translate_newlines].
  destruct (N.eqb_spec c 13) as [->|Hc].
  - exfalso. apply Hcr. now left.
  - f_equal. apply IH. intros Hin. apply Hcr. now right.
Qed.

End CodecRoundTrip.

(* ------------------------------------------------------------------ *)
(** ** Properties of text search *)

Section TextFacts.

Lemma startswith_app (p s : str) : startswith p (p ++ s) = true.
Proof.
  induction p as [|x p IH]; [reflexivity|].
  cbn. now rewrite N.eqb_refl.
Qed.

Lemma startswith_spec (p s : str) :
  startswith p s = true <-> exists post, s = p ++ post.
Proof.
  split.
  - revert s. induction p as [|x p IH]; intros s H.
    + now exists s.
    + destruct s as [|y s]; [discriminate|]. cbn in H.
      apply andb_prop in H. destruct H as [Hxy H].
      apply N.eqb_eq in Hxy. subst y.
      destruct (IH _ H) as [post ->]. now exists post.
  - intros [post ->]. apply startswith_app.
Qed.

Lemma contains_here (sub s : str) :
  startswith sub s = true -> contains sub s = true.
Proof. intros H. destruct s; cbn [contains]; now rewrite H. Qed.

Lemma contains_app (sub pre post : str) :
  contains sub (pre ++ sub ++ post) = true.
Proof.
  induction pre as [|c pre IH].
  - cbn [app]. apply contains_here, startswith_app.
  - cbn [app contains]. rewrite IH. apply orb_true_r.
Qed.

Lemma contains_spec (sub s : str) :
  contains sub s = true <-> exists pre post, s = pre ++ sub ++ post.
Proof.
  split.
  - induction s as [|c s IH]; cbn [contains]; intros H.
    + destruct sub; [|discriminate]. now exists [], [].
    + apply orb_prop in H. destruct H as [H|H].
      * apply startswith_spec in H. destruct H as [post ->].
        now exists [], post.
      * destruct (IH H) as (pre & post & ->). now exists (c :: pre), post.
  - intros (pre & post & ->). apply contains_app.
Qed.

End TextFacts.

(* ------------------------------------------------------------------ *)
(** ** The encoding-tolerant reader *)

Section ReaderFacts.

Variable file_path : str.

(** The loop returns at the first candidate that decodes the content. *)
Lemma try_encodings_first (all tried rest : list encoding) (enc : encoding)
    (content : list byte) (text : str) :
  Forall (fun e => decode e content = None) tried ->
  decode enc content = Some text ->
  try_encodings file_path all (tried ++ enc :: rest) content
  = Return (translate_newlines text, enc).
Proof.
  intros Htried Henc. induction Htried as [|e tried He _ IH]; cbn.
  - now rewrite Henc.
  - now rewrite He.
Qed.

(** The loop runs out of candidates only when every one of them failed,
    and then raises the exception of the last statement. *)
Lemma try_encodings_raise (all remaining : list encoding)
    (content : list byte) (e : exn) :
  try_encodings file_path all remaining content = Raise e ->
  Forall (fun enc => decode enc content = None) remaining
  /\ e = unicode_decode_error (exhausted_message file_path all).
Proof.
  induction remaining as [|enc rest IH]; cbn.
  - intros [= <-]. split; [constructor | reflexivity].
  - destruct (decode enc content) eqn:Hdec; [discriminate|].
    intros H. destruct (IH H) as [Hrest ->]. split; [|reflexivity].
    now constructor.
Qed.

Lemma before_split (enc : encoding) (l : list encoding) :
  In enc l -> exists rest, l = before enc l ++ enc :: rest.
Proof.
  induction l as [|e l IH]; [contradiction|]. cbn [before].
  destruct (encoding_eqb e enc) eqn:Heq.
  - intros _. exists l. destruct e, enc; try discriminate; reflexivity.
  - intros [->|Hin].
    + destruct enc; discriminate.
    + destruct (IH Hin) as [rest Hrest]. exists rest. cbn. now f_equal.
Qed.

Lemma all_encodings (enc : encoding) : In enc encodings.
Proof. destruct enc; cbn; auto. Qed.

End ReaderFacts.

(** C10. The reader returns a text and an encoding for every byte
    sequence: Latin-1, the last candidate, gives a character to every byte
    value, so the statement after the loop is never reached. *)
Theorem reader_total (file_path : str) (content : list byte) :
  exists text enc,
    read_file_with_encoding file_path content = Return (text, enc)
    /\ In enc encodings
    /\ (enc = Latin1 -> text = translate_newlines (List.map Byte.to_N content)).
Proof.
  unfold read_file_with_encoding, read_with, encodings. cbn.
  destruct (utf8_decode content) as [t|].
  { exists (translate_newlines t), Utf8. repeat split; auto; discriminate. }
  destruct (cp1252_decode content) as [t|].
  { exists (translate_newlines t), Windows1252. repeat split; auto; discriminate. }
  exists (translate_newlines (List.map Byte.to_N content)), Latin1.
  repeat split; auto.
Qed.


(** C5 as stated does not hold: the one-character text U+00E9 stored in
    Latin-1 is the byte E9, which Windows-1252 is tried on first and
    accepts; the reader reports [windows-1252]. *)
Lemma reader_reports_first_match_not_origin :
  ~ (forall (file_path : str) (enc : encoding) (text : str) (content : list byte),
        encode enc text = Some content ->
        read_file_with_encoding file_path content = Return (text, enc)).
Proof.
  intros H. specialize (H [] Latin1 [233] [xe9] eq_refl).
  vm_compute in H. discriminate H.
Qed.

(** C5, amended. A text written in one of the three encodings is read
    back with its line ends normalised (unchanged when it has no carriage
    return) and under that encoding's name, provided no candidate tried
    earlier accepts the same bytes; for UTF-8, the first candidate, that
    proviso is empty. *)
Theorem reader_recovers_text (file_path : str) (enc : encoding) (text : str)
    (content : list byte) :
  encode enc text = Some content ->
  Forall (fun e => decode e content = None) (tried_before enc) ->
  read_file_with_encoding file_path content
  = Return (translate_newlines text, enc)
  /\ (~ In 13 text ->
      read_file_with_encoding file_path content = Return (text, enc)).
Proof.
  intros Henc Hbefore.
  assert (Hread : read_file_with_encoding file_path content
                  = Return (translate_newlines text, enc)).
  { unfold read_file_with_encoding, read_with.
    destruct (before_split enc encodings (all_encodings enc)) as [rest Hrest].
    rewrite Hrest at 2.
    apply try_encodings_first; [exact Hbefore|].
    now apply decode_encode. }
  split; [exact Hread|].
  intros Hcr. rewrite Hread. now rewrite translate_newlines_id.
Qed.

Lemma reader_recovers_text_witness :
  read_file_with_encoding (lit "upload.md") [xc3; xa9; x0d; x0a; x41]
  = Return ([233; 10; 65], Utf8)
  /\ read_file_with_encoding (lit "upload.md") [x41; x81]
     = Return ([65; 129], Latin1).
Proof.
  split.
  - apply (reader_recovers_text (lit "upload.md") Utf8 [233; 13; 10; 65]
             [xc3; xa9; x0d; x0a; x41]).
    + reflexivity.
    + constructor.
  - apply (reader_recovers_text (lit "upload.md") Latin1 [65; 129] [x41; x81]).
    + reflexivity.
    + repeat constructor.
    + cbn. intros [H|[H|[]]]; discriminate H.
Defined.

(* ------------------------------------------------------------------ *)
(** ** Occurrences of a separator and [split] *)

Section SplitFacts.

Variable sep : str.

Lemma partition_unfold (s : str) :
  partition sep s
  = if startswith sep s then Some ([], skipn (List.length sep) s)
    else match s with
         | [] => None
         | c :: s' =>
             option_map (fun p => (c :: fst p, snd p)) (partition sep s')
         end.
Proof. now destruct s. Qed.

Lemma partition_none (s : str) : partition sep s = None -> NoOcc sep s.
Proof.
  induction s as [|c s IH]; intros Hp pre post Heq; rewrite partition_unfold in Hp.
  - assert (Hs : startswith sep [] = true).
    { destruct pre, sep; try discriminate Heq. reflexivity. }
    rewrite Hs in Hp. discriminate Hp.
  - destruct pre as [|x pre]; cbn [app] in Heq.
    + rewrite Heq, startswith_app in Hp. discriminate Hp.
    + injection Heq as -> ->.
      destruct (startswith sep _); [discriminate Hp|].
      destruct (partition sep (pre ++ sep ++ post)) eqn:E; [discriminate Hp|].
      exact (IH eq_refl pre post eq_refl).
Qed.

Lemma partition_some (s pre post : str) :
  partition sep s = Some (pre, post) -> FirstOcc sep s pre post.
Proof.
  revert pre. induction s as [|c s IH]; intros pre Hp.
  - rewrite partition_unfold in Hp. destruct (startswith sep []) eqn:Hs; [|discriminate Hp].
    injection Hp as <- <-. apply startswith_spec in Hs. destruct Hs as [q Hq].
    destruct sep; [|discriminate Hq]. split; [reflexivity | intros; apply Nat.le_0_l].
  - rewrite partition_unfold in Hp.
    destruct (startswith sep (c :: s)) eqn:Hs.
    + injection Hp as <- <-. apply startswith_spec in Hs. destruct Hs as [q Hq].
      rewrite Hq. split; [|intros; apply Nat.le_0_l].
      cbn [app]. f_equal. rewrite skipn_app, skipn_all, Nat.sub_diag. reflexivity.
    + destruct (partition sep s) as [[p q]|] eqn:E; [|discriminate Hp].
      cbn in Hp. injection Hp as <- <-.
      destruct (IH _ eq_refl) as [Heq Hmin]. split.
      * cbn [app]. now f_equal.
      * intros pre' post' Heq'. destruct pre' as [|x pre']; cbn [app] in Heq'.
        -- rewrite Heq', startswith_app in Hs. discriminate Hs.
        -- injection Heq' as _ Heq'. cbn [List.length].
           apply le_n_S. now apply (Hmin pre' post').
Qed.

Lemma first_occ_unique (s pre post pre' post' : str) :
  FirstOcc sep s pre post -> FirstOcc sep s pre' post' ->
  pre = pre' /\ post = post'.
Proof.
  intros [Heq Hmin] [Heq' Hmin'].
  assert (Hlen : List.length pre = List.length pre').
  { apply Nat.le_antisymm; [eapply Hmin | eapply Hmin']; eassumption. }
  rewrite Heq in Heq'.
  apply app_eq_app in Heq'. destruct Heq' as [l [[H1 H2]|[H1 H2]]].
  - assert (l = []) as ->.
    { apply (f_equal (@List.length _)) in H1. rewrite length_app in H1.
      destruct l; [reflexivity | cbn in H1; lia]. }
    rewrite app_nil_r in H1. cbn [app] in H2. subst pre'.
    apply app_inv_head in H2. now split.
  - assert (l = []) as ->.
    { apply (f_equal (@List.length _)) in H1. rewrite length_app in H1.
      destruct l; [reflexivity | cbn in H1; lia]. }
    rewrite app_nil_r in H1. cbn [app] in H2. subst pre'.
    apply app_inv_head in H2. now split.
Qed.

Lemma partition_first_occ (s pre post : str) :
  FirstOcc sep s pre post -> partition sep s = Some (pre, post).
Proof.
  intros H. destruct (partition sep s) as [[p q]|] eqn:E.
  - apply partition_some in E.
    destruct (first_occ_unique _ _ _ _ _ E H) as [-> ->]. reflexivity.
  - apply partition_none in E. destruct H as [Heq _]. now apply E in Heq.
Qed.

Lemma partition_no_occ (s : str) : NoOcc sep s -> partition sep s = None.
Proof.
  intros H. destruct (partition sep s) as [[p q]|] eqn:E; [|reflexivity].
  apply partition_some in E. destruct E as [Heq _]. now apply H in Heq.
Qed.

(** Passing over [k] characters is dropping them. *)
Lemma split_aux_skip (s : str) :
  forall k cur, split_aux sep k cur s = split_aux sep 0 cur (skipn k s).
Proof.
  induction s as [|c s IH]; intros k cur.
  - now destruct k.
  - destruct k as [|k]; [reflexivity|]. cbn [split_aux skipn]. apply IH.
Qed.

Hypothesis sep_nonempty : sep <> [].

Lemma split_aux_partition (s : str) :
  forall cur,
    split_aux sep 0 cur s
    = match partition sep s with
      | None => [rev cur ++ s]
      | Some (pre, post) => (rev cur ++ pre) :: split sep post
      end.
Proof.
  induction s as [|c s IH]; intros cur.
  - cbn. destruct sep; [contradiction|]. cbn. now rewrite app_nil_r.
  - rewrite partition_unfold. cbn [split_aux].
    destruct (startswith sep (c :: s)) eqn:Hs.
    + rewrite app_nil_r. f_equal. rewrite split_aux_skip. unfold split.
      destruct sep; [contradiction|]. reflexivity.
    + rewrite IH. destruct (partition sep s) as [[p q]|]; cbn [option_map fst snd rev];
        now rewrite <- app_assoc.
Qed.

(** [split] cuts at the first occurrence and goes on with what follows. *)
Lemma split_partition (s : str) :
  split sep s
  = match partition sep s with
    | None => [s]
    | Some (pre, post) => pre :: split sep post
    end.
Proof. unfold split at 1. now rewrite split_aux_partition. Qed.

(** The first piece of a split. *)
Lemma split_head (s : str) :
  exists rest,
    split sep s
    = match partition sep s with
      | None => s
      | Some (pre, _) => pre
      end :: rest.
Proof.
  rewrite split_partition. destruct (partition sep s) as [[p q]|]; eauto.
Qed.

End SplitFacts.

(* ------------------------------------------------------------------ *)
(** ** The response splitter *)

Section SplitterFacts.

Lemma json_marker_nonempty : json_marker <> [].
Proof. discriminate. Qed.

Lemma fence_nonempty : fence <> [].
Proof. discriminate. Qed.

Lemma json_marker_fence : json_marker = fence ++ lit "json".
Proof. reflexivity. Qed.

(** The splitter in closed form: no list indexing is left, so no index can
    be out of range. *)
Lemma split_response_eq (text : str) (json_data : json) :
  split_response text json_data
  = match partition json_marker text with
    | None => Return (text, json_data)
    | Some (pre, rest) =>
        Return (strip pre,
                or_original
                  (json_loads
                     (strip (head_piece fence (head_piece json_marker rest))))
                  json_data)
    end.
Proof.
  unfold split_response.
  rewrite (split_partition json_marker json_marker_nonempty text).
  destruct (partition json_marker text) as [[pre rest]|]; [|reflexivity].
  destruct (split_head json_marker json_marker_nonempty rest) as [tl Htl].
  rewrite Htl. fold (head_piece json_marker rest).
  cbn [List.length Nat.ltb Nat.leb py_index nth_error Py.bind].
  destruct (split_head fence fence_nonempty (head_piece json_marker rest))
    as [tl' Htl'].
  rewrite Htl'. fold (head_piece fence (head_piece json_marker rest)).
  cbn [py_index nth_error Py.bind]. reflexivity.
Qed.

(** A marker occurrence is a fence occurrence. *)
Lemma no_fence_no_marker (s : str) : NoOcc fence s -> NoOcc json_marker s.
Proof.
  intros H pre post Heq. apply (H pre (lit "json" ++ post)).
  rewrite Heq, json_marker_fence. now rewrite <- app_assoc.
Qed.

(** When the first fence after the marker is not the head of a second
    marker that starts one or two backquotes later, the candidate is
    exactly what lies between the marker and that fence. *)
Lemma length_app_nil (a l : str) :
  (List.length (a ++ l) <= List.length a)%nat -> l = [].
Proof.
  rewrite length_app. destruct l; [reflexivity|]. cbn. lia.
Qed.

Lemma candidate_closed (rest body post : str) :
  FirstOcc fence rest body post ->
  (forall post', post <> lit "`json" ++ post') ->
  (forall post', post <> lit "``json" ++ post') ->
  head_piece fence (head_piece json_marker rest) = body.
Proof.
  intros Hfirst Hone Htwo. unfold head_piece at 2.
  destruct (partition json_marker rest) as [[b q]|] eqn:Hm.
  2:{ unfold head_piece. now rewrite (partition_first_occ _ _ _ _ Hfirst). }
  apply partition_some in Hm. destruct Hm as [Hrest _].
  destruct Hfirst as [Hbody Hmin].
  assert (Hle : (List.length body <= List.length b)%nat).
  { apply (Hmin b (lit "json" ++ q)).
    rewrite Hrest, json_marker_fence. now rewrite <- app_assoc. }
  assert (Hb : exists l, b = body ++ l /\ fence ++ post = l ++ json_marker ++ q).
  { pose proof Hrest as Heq. rewrite Hbody in Heq. apply app_eq_app in Heq.
    destruct Heq as [l [[H1 H2]|[H1 H2]]].
    - assert (l = []) as ->.
      { apply (length_app_nil b). now rewrite <- H1. }
      exists []. rewrite app_nil_r in H1. cbn [app] in *. subst b.
      rewrite app_nil_r. now split.
    - now exists l. }
  destruct Hb as (l & -> & Hl).
  unfold head_piece.
  destruct l as [|x [|y [|z l]]].
  - (* the marker starts where the fence does *)
    rewrite app_nil_r. rewrite partition_no_occ; [reflexivity|].
    intros p r Heq.
    assert (Hp : (List.length body <= List.length p)%nat).
    { apply (Hmin p (r ++ fence ++ post)).
      rewrite Hbody, Heq. now rewrite <- !app_assoc. }
    rewrite Heq, !length_app in Hp. cbn in Hp. lia.
  - (* the marker starts one backquote later *)
    injection Hl as _ Hl. now apply Hone in Hl.
  - (* the marker starts two backquotes later *)
    injection Hl as _ _ Hl. now apply Htwo in Hl.
  - (* the fence lies before the next marker *)
    injection Hl as <- <- <- Hl.
    rewrite (partition_first_occ fence _ body l); [reflexivity|].
    split; [reflexivity|].
    intros p r Heq. apply (Hmin p (r ++ json_marker ++ q)).
    rewrite Hrest.
    rewrite Heq. now rewrite <- !app_assoc.
Qed.

(** When the fence found is the head of a second marker that starts one
    or two backquotes later, the candidate runs up to that marker. *)
Lemma candidate_shifted (rest body l post' : str) :
  l = lit "`" \/ l = lit "``" ->
  FirstOcc fence rest body (l ++ lit "json" ++ post') ->
  head_piece fence (head_piece json_marker rest) = body ++ l.
Proof.
  intros Hl [Hbody Hmin].
  assert (Hrest : rest = (body ++ l) ++ json_marker ++ post').
  { rewrite Hbody, <- app_assoc. f_equal.
    destruct Hl as [-> | ->]; reflexivity. }
  assert (Hfree : NoOcc fence (body ++ l)).
  { intros p r Heq.
    assert (Hp : (List.length body <= List.length p)%nat).
    { apply (Hmin p (r ++ json_marker ++ post')).
      rewrite Hrest, Heq. now rewrite <- !app_assoc. }
    apply (f_equal (@List.length _)) in Heq. rewrite !length_app in Heq.
    change (List.length fence) with 3%nat in Heq.
    destruct Hl as [-> | ->]; cbn [List.length lit List.map list_ascii_of_string] in Heq; lia. }
  unfold head_piece at 2.
  rewrite (partition_first_occ json_marker rest (body ++ l) post').
  - unfold head_piece. now rewrite (partition_no_occ fence _ Hfree).
  - split; [exact Hrest|].
    intros p r Heq.
    assert (Hp : (List.length body <= List.length p)%nat).
    { apply (Hmin p (lit "json" ++ r)).
      rewrite Heq, json_marker_fence. now rewrite <- app_assoc. }
    pose proof Heq as Heq'. rewrite Hbody in Heq'. apply app_eq_app in Heq'.
    destruct Heq' as [k [[H1 H2]|[H1 H2]]].
    + assert (k = []) as ->.
      { apply (length_app_nil p). now rewrite <- H1. }
      cbn [app] in H2. exfalso.
      destruct Hl as [-> | ->]; discriminate H2.
    + rewrite H1, !length_app.
      destruct k as [|x [|y k]].
      * exfalso. cbn [app] in H2. destruct Hl as [-> | ->]; discriminate H2.
      * destruct Hl as [-> | ->]; [cbn; lia|].
        exfalso. discriminate H2.
      * destruct Hl as [-> | ->]; cbn; lia.
Qed.

(** With no fence after the marker, the candidate is all that follows. *)
Lemma candidate_unclosed (rest : str) :
  NoOcc fence rest ->
  head_piece fence (head_piece json_marker rest) = rest.
Proof.
  intros H. unfold head_piece.
  rewrite (partition_no_occ json_marker rest (no_fence_no_marker rest H)).
  now rewrite (partition_no_occ fence rest H).
Qed.

End SplitterFacts.

(** C3 as stated does not hold, in neither direction.  An answer whose
    [```json] marker is never closed has no JSON fence, yet what follows
    the marker is parsed and replaces the uploaded document.  And an
    answer whose marker is closed by a fence around a slice that parses
    keeps the uploaded document when [`json] follows that fence: the
    answer is cut at the second marker first, one backquote later. *)
Lemma fence_claim_fails :
  ~ (forall (text : str) (d : list (str * json)),
        (forall pre body post,
            text <> pre ++ json_marker ++ body ++ fence ++ post) ->
        exists markdown_part,
          split_response text (JDict d) = Return (markdown_part, JDict d))
  /\ ~ (forall (text : str) (d : list (str * json)) (pre rest body post : str)
               (v : json),
           FirstOcc json_marker text pre rest ->
           FirstOcc fence rest body post ->
           json_loads body = Some v ->
           exists markdown_part,
             split_response text (JDict d) = Return (markdown_part, v)).
Proof.
  split; intros H.
  - destruct (H (lit "```json{}") [(lit "a", JInt 1)]) as [md Hmd].
    + intros pre body post Heq.
      apply (f_equal (@List.length _)) in Heq.
      rewrite !length_app in Heq.
      change (List.length (lit "```json{}")) with 9%nat in Heq.
      change (List.length json_marker) with 7%nat in Heq.
      change (List.length fence) with 3%nat in Heq. lia.
    + vm_compute in Hmd. discriminate Hmd.
  - destruct (H (lit "```json [1] ````json") [(lit "a", JInt 1)]
                [] (lit " [1] ````json") (lit " [1] ") (lit "`json")
                (JList [JInt 1])) as [md Hmd].
    + apply partition_some. reflexivity.
    + apply partition_some. reflexivity.
    + reflexivity.
    + vm_compute in Hmd. discriminate Hmd.
Qed.

(** C3, amended.  The splitter always returns.  Without a [```json]
    marker the answer is the report and the uploaded document is kept.
    With a marker, the report is the trimmed text before the first one, and
    the candidate is what follows it up to the next fence; or, when that
    fence is itself the head of a second marker that starts one or two
    backquotes later, up to that second marker; or, with no fence after
    the marker, up to the end of the answer.  The trimmed candidate
    replaces the uploaded document when it parses as JSON, and the
    uploaded document is kept when it does not. *)
Theorem split_response_spec (text : str) (json_data : json) :
  (NoOcc json_marker text ->
   split_response text json_data = Return (text, json_data))
  /\ (forall pre rest body post,
         FirstOcc json_marker text pre rest ->
         FirstOcc fence rest body post ->
         (forall post', post <> lit "`json" ++ post') ->
         (forall post', post <> lit "``json" ++ post') ->
         split_response text json_data
         = Return (strip pre,
                   or_original (json_loads (strip body)) json_data))
  /\ (forall pre rest body l post',
         FirstOcc json_marker text pre rest ->
         FirstOcc fence rest body (l ++ lit "json" ++ post') ->
         l = lit "`" \/ l = lit "``" ->
         split_response text json_data
         = Return (strip pre,
                   or_original (json_loads (strip (body ++ l))) json_data))
  /\ (forall pre rest,
         FirstOcc json_marker text pre rest ->
         NoOcc fence rest ->
         split_response text json_data
         = Return (strip pre,
                   or_original (json_loads (strip rest)) json_data))
  /\ (exists markdown_part enhanced_json,
         split_response text json_data = Return (markdown_part, enhanced_json)
         /\ (enhanced_json = json_data
             \/ exists candidate, json_loads candidate = Some enhanced_json)).
Proof.
  rewrite split_response_eq. repeat split.
  - intros H. now rewrite (partition_no_occ _ _ H).
  - intros pre rest body post Hm Hf Hone Htwo.
    rewrite (partition_first_occ _ _ _ _ Hm).
    now rewrite (candidate_closed _ _ _ Hf Hone Htwo).
  - intros pre rest body l post' Hm Hf Hl.
    rewrite (partition_first_occ _ _ _ _ Hm).
    now rewrite (candidate_shifted _ _ _ _ Hl Hf).
  - intros pre rest Hm Hf.
    rewrite (partition_first_occ _ _ _ _ Hm).
    now rewrite (candidate_unclosed _ Hf).
  - destruct (partition json_marker text) as [[pre rest]|].
    + eexists _, _. split; [reflexivity|].
      destruct (json_loads (strip (head_piece fence (head_piece json_marker rest))))
        as [v|] eqn:Hv; cbn [or_original]; [right | left; reflexivity].
      eexists. exact Hv.
    + eexists _, _. split; [reflexivity | left; reflexivity].
Qed.

(** The cases on concrete answers and an uploaded object: a closed fence,
    no marker, a candidate that does not parse, a fence followed by one
    more backquote, a fence that is the head of a second marker, and a
    marker that is never closed. *)
Lemma split_response_spec_witness :
  let original := JDict [(lit "id", JInt 7)] in
  let doc := lit "{" ++ dquote ++ lit "a" ++ dquote ++ lit ": [1, 2]}" in
  let closed := lit "# Report" ++ newline ++ json_marker ++ newline ++ doc
                ++ newline ++ fence ++ newline ++ lit "Done." in
  let broken := lit "# Report" ++ newline ++ json_marker ++ lit " {oops "
                ++ fence in
  split_response closed original
  = Return (lit "# Report", JDict [(lit "a", JList [JInt 1; JInt 2])])
  /\ split_response (lit "# Report") original
     = Return (lit "# Report", original)
  /\ split_response broken original = Return (lit "# Report", original)
  /\ split_response (lit "```json [1] ````") original
     = Return ([], JList [JInt 1])
  /\ split_response (lit "```json [1] ````json") original
     = Return ([], original)
  /\ split_response (lit "```json [1]") original = Return ([], JList [JInt 1]).
Proof.
  intros original doc closed broken.
  split; [|split; [|split; [|split; [|split]]]].
  - refine (proj1 (proj2 (split_response_spec closed original))
              (lit "# Report" ++ newline)
              (newline ++ doc ++ newline ++ fence ++ newline ++ lit "Done.")
              (newline ++ doc ++ newline)
              (newline ++ lit "Done.") _ _ _ _).
    + apply partition_some. reflexivity.
    + apply partition_some. reflexivity.
    + discriminate.
    + discriminate.
  - apply (proj1 (split_response_spec (lit "# Report") original)).
    apply partition_none. reflexivity.
  - refine (proj1 (proj2 (split_response_spec broken original))
              (lit "# Report" ++ newline) (lit " {oops " ++ fence)
              (lit " {oops ") [] _ _ _ _).
    + apply partition_some. reflexivity.
    + apply partition_some. reflexivity.
    + discriminate.
    + discriminate.
  - refine (proj1 (proj2 (split_response_spec (lit "```json [1] ````") original))
              [] (lit " [1] ````") (lit " [1] ") (lit "`") _ _ _ _).
    + apply partition_some. reflexivity.
    + apply partition_some. reflexivity.
    + discriminate.
    + discriminate.
  - refine (proj1 (proj2 (proj2 (split_response_spec (lit "```json [1] ````json")
                                   original)))
              [] (lit " [1] ````json") (lit " [1] ") (lit "`") [] _ _ _).
    + apply partition_some. reflexivity.
    + apply partition_some. reflexivity.
    + left. reflexivity.
  - refine (proj1 (proj2 (proj2 (proj2 (split_response_spec (lit "```json [1]")
                                          original))))
              [] (lit " [1]") _ _).
    + apply partition_some. reflexivity.
    + apply partition_none. reflexivity.
Defined.

(* ------------------------------------------------------------------ *)
(** ** Reasoning about computations *)

Section MonadFacts.

Context {A B : Type}.

Lemma snd_mbind (m : M A) (k : A -> M B) :
  snd (mbind m k)
  = match snd m with
    | Return a => snd (k a)
    | Raise e => Raise e
    end.
Proof.
  destruct m as [tr [a|e]]; cbn; [|reflexivity]. now destruct (k a).
Qed.

Lemma fst_mbind (m : M A) (k : A -> M B) :
  fst (mbind m k)
  = fst m ++ match snd m with
             | Return a => fst (k a)
             | Raise e => []
             end.
Proof.
  destruct m as [tr [a|e]]; cbn; [|now rewrite app_nil_r]. now destruct (k a).
Qed.

End MonadFacts.

Lemma snd_log (lg : option logger) (lv : level) (msg : list piece) :
  snd (log lg lv msg) = Return tt.
Proof. now destruct lg. Qed.

Lemma none_of_app (p : event -> bool) (tr tr' : list event) :
  none_of p tr -> none_of p tr' -> none_of p (tr ++ tr').
Proof.
  unfold none_of. intros H H'. now rewrite existsb_app, H, H'.
Qed.

Lemma none_of_mbind {A B} (p : event -> bool) (m : M A) (k : A -> M B) :
  none_of p (fst m) ->
  (forall a, snd m = Return a -> none_of p (fst (k a))) ->
  none_of p (fst (mbind m k)).
Proof.
  intros Hm Hk. rewrite fst_mbind. apply none_of_app; [exact Hm|].
  destruct (snd m) as [a|e]; [now apply Hk | reflexivity].
Qed.

Lemma none_of_log (p : event -> bool) (lg : option logger) (lv : level)
    (msg : list piece) :
  (forall lv' msg', p (Log lv' msg') = false) ->
  none_of p (fst (log lg lv msg)).
Proof.
  intros Hp. destruct lg; cbn; [|reflexivity].
  unfold none_of. cbn. now rewrite Hp.
Qed.

Lemma none_of_lift {A} (p : event -> bool) (r : result A) :
  none_of p (fst (lift r)).
Proof. reflexivity. Qed.

(* ------------------------------------------------------------------ *)
(** ** The API client in mock mode *)

(** C4. With [just_log_prompts] set, the client returns the fixed
    placeholder report whatever the prompt, the logger, the rest of the
    configuration and the network would answer, and posts no request. *)
Theorem mock_mode_returns_placeholder (E : env) (c : config) (prompt : str)
    (lg : option logger) :
  truthy (config_get c (lit "just_log_prompts") (JBool false)) = true ->
  snd (call_abacus_api E c prompt lg) = Return (JStr mock_response)
  /\ none_of is_http (fst (call_abacus_api E c prompt lg)).
Proof.
  intros Hmock. unfold call_abacus_api. rewrite Hmock. split.
  - repeat (rewrite snd_mbind, snd_log). reflexivity.
  - repeat (apply none_of_mbind; [now apply none_of_log | intros _ _]).
    reflexivity.
Qed.

Lemma mock_mode_returns_placeholder_witness :
  let E := {| post := fun _ => PostRaises (lit "unreachable");
              json_error_detail := fun _ => [];
              severity_tmp := lit "a.md"; json_tmp := lit "b.json";
              markdown_name := lit "c.md"; json_name := lit "d.json" |} in
  let c := [(lit "just_log_prompts", JBool true);
            (lit "debug_logging", JBool true)] in
  snd (call_abacus_api E c (lit "any prompt") (Some Logger))
  = Return (JStr mock_response)
  /\ none_of is_http (fst (call_abacus_api E c (lit "any prompt") (Some Logger))).
Proof.
  intros E c. apply (mock_mode_returns_placeholder E c). reflexivity.
Defined.

(* ------------------------------------------------------------------ *)
(** ** The prompt *)

(** C9.  The prompt is the fixed instruction text of lines 237 to 259
    around the two texts: for all inputs it is the heading, the severity
    text unchanged, the line that announces the data, the dataset text
    unchanged, and the instructions.  Nothing else enters it. *)
Theorem build_prompt_template (severity_text dataset_text : str) :
  build_prompt severity_text dataset_text
  = prompt_head ++ severity_text ++ prompt_middle ++ dataset_text
    ++ prompt_tail.
Proof. reflexivity. Qed.

(* ------------------------------------------------------------------ *)
(** ** The request pipeline *)

Section PipelineFacts.

Variables (E : env) (c : config).

Lemma mock_response_has_no_marker (json_data : json) :
  split_response mock_response json_data = Return (mock_response, json_data).
Proof.
  rewrite split_response_eq.
  replace (partition json_marker mock_response) with (@None (str * str))
    by (vm_compute; reflexivity).
  reflexivity.
Qed.

Lemma mock_response_encodable : exists bs, encode Utf8 mock_response = Some bs.
Proof. vm_compute. eexists. reflexivity. Qed.

(** Without a logger, a dataset that has a [tickets] key stops the request
    at the unguarded call on [logger]. *)
Lemma tickets_key_needs_logger (sev js : upload) (text : str) (enc : encoding)
    (d : list (str * json)) (tickets : json) :
  read_file_with_encoding (json_tmp E) (data js) = Return (text, enc) ->
  json_loads text = Some (JDict d) ->
  dict_lookup (lit "tickets") d = Some tickets ->
  snd (analyze_files E c None sev js) = Raise (no_attribute JNull (lit "info")).
Proof.
  intros Hread Hloads Htickets. unfold analyze_files.
  destruct (reader_total (severity_tmp E) (data sev)) as (st & se & Hsev & _).
  rewrite Hsev, Hread.
  repeat (rewrite snd_mbind; cbn [snd fst log emit ret lift]).
  rewrite Hloads.
  repeat (rewrite snd_mbind; cbn [snd fst log log_with emit ret lift py_contains]).
  rewrite Htickets. reflexivity.
Qed.

(** In mock mode, a dataset that is a JSON object goes through when the
    logger is there or the object has no [tickets] key. *)
Lemma analyze_files_mock (lg : option logger) (sev js : upload)
    (stext text : str) (senc enc : encoding) (d : list (str * json)) (n : nat) :
  read_file_with_encoding (severity_tmp E) (data sev) = Return (stext, senc) ->
  read_file_with_encoding (json_tmp E) (data js) = Return (text, enc) ->
  json_loads text = Some (JDict d) ->
  ticket_count (JDict d) = Return n ->
  (lg = None -> dict_lookup (lit "tickets") d = None) ->
  truthy (config_get c (lit "just_log_prompts") (JBool false)) = true ->
  snd (analyze_files E c lg sev js)
  = Return (Success (markdown_name E) (json_name E) n
              (config_get c (lit "model") default_model)
              (config_get c (lit "just_log_prompts") (JBool false))
              (preview mock_response) mock_response (JDict d)).
Proof.
  intros Hsev Hread Hloads Hcount Hlg Hmock. unfold analyze_files.
  rewrite Hsev, Hread.
  repeat (rewrite snd_mbind; rewrite ?snd_log; cbn [snd fst emit ret lift]).
  rewrite Hloads.
  assert (Hkeys : forall msg, snd (log_with lg INFO (py_keys (JDict d)) msg)
                              = Return tt).
  { intros msg. now destruct lg. }
  rewrite snd_mbind, Hkeys.
  rewrite snd_mbind. cbn [snd lift py_contains].
  assert (Hfound :
    snd (match match dict_lookup (lit "tickets") d with
               | Some _ => true
               | None => false
               end return M unit
         with
         | true =>
             log_unguarded lg INFO
               (Py.bind (py_getitem (JDict d) (lit "tickets")) py_len)
               (fun n => [Text (lit "Found "); Count n; Text (lit " tickets")])
         | false => ret tt
         end) = Return tt).
  { unfold ticket_count in Hcount. cbn [py_get py_getitem] in *.
    destruct (dict_lookup (lit "tickets") d) as [t|] eqn:Ht; [|reflexivity].
    destruct lg as [l|]; [|now discriminate (Hlg eq_refl)].
    change (py_len t = Return n) in Hcount.
    unfold log_unguarded, Py.bind. rewrite Hcount. reflexivity. }
  rewrite snd_mbind, Hfound.
  rewrite snd_mbind, snd_log.
  rewrite snd_mbind.
  rewrite (proj1 (mock_mode_returns_placeholder E c _ lg Hmock)).
  rewrite snd_mbind, snd_log.
  rewrite snd_mbind. cbn [snd lift]. rewrite mock_response_has_no_marker.
  cbn [fst snd].
  destruct mock_response_encodable as [bs ->].
  repeat (rewrite snd_mbind; rewrite ?snd_log; cbn [snd fst emit ret lift]).
  unfold ticket_count, Py.bind in Hcount.
  destruct (py_get (JDict d) (lit "tickets") (JList [])) as [t|e];
    [|discriminate Hcount].
  rewrite ?snd_mbind. cbn [snd lift]. rewrite Hcount. reflexivity.
Qed.

End PipelineFacts.

Section AnalyzeFacts.

Variables (E : env) (c : config).

Lemma analyze_logged_raise (lg : option logger) (req : request) (e : exn) :
  snd (analyze_try E c lg req) = Raise e ->
  snd (analyze_logged E c lg req) = Failure (lit "Analysis failed: " ++ exn_str e).
Proof.
  unfold analyze_logged. destruct (analyze_try E c lg req) as [tr [r|e']]; cbn [snd].
  - discriminate.
  - intros [= ->]. now destruct (mbind _ _).
Qed.

Lemma analyze_logged_return (lg : option logger) (req : request) (r : response) :
  snd (analyze_try E c lg req) = Return r ->
  snd (analyze_logged E c lg req) = r.
Proof.
  unfold analyze_logged. destruct (analyze_try E c lg req) as [tr [r'|e]]; cbn [snd].
  - now intros [= ->].
  - discriminate.
Qed.

Lemma analyze_try_files (lg : option logger) (sev js : upload) :
  is_empty (filename sev) = false ->
  is_empty (filename js) = false ->
  analyze_try E c lg (request_of sev js) = analyze_files E c lg sev js.
Proof.
  intros Hs Hj. unfold analyze_try, request_of. cbn [severity_file json_file].
  now rewrite Hs, Hj.
Qed.

Lemma analyze_with_config (req : request) :
  c <> [] ->
  snd (analyze E (Some c) req)
  = snd (analyze_logged E c (snd (setup_logging c)) req).
Proof.
  intros Hc. unfold analyze. destruct c as [|kv c']; [contradiction|].
  destruct (setup_logging (kv :: c')) as [tr0 lg]. cbn [snd].
  destruct (log lg INFO _) as [tr1 u].
  now destruct (analyze_logged E (kv :: c') lg req).
Qed.

Lemma mock_config_nonempty :
  truthy (config_get c (lit "just_log_prompts") (JBool false)) = true -> c <> [].
Proof. intros H ->. discriminate H. Qed.

Lemma setup_logging_off :
  truthy (config_get c (lit "debug_logging") (JBool false)) = false ->
  snd (setup_logging c) = None.
Proof. intros H. unfold setup_logging. now rewrite H. Qed.

End AnalyzeFacts.

Lemma scenario_dataset_read (path : str) :
  read_file_with_encoding path (utf8_bytes scenario_dataset)
  = Return (scenario_dataset, Utf8).
Proof. reflexivity. Qed.

Lemma scenario_severity_read (path : str) :
  read_file_with_encoding path (utf8_bytes scenario_severity)
  = Return (scenario_severity, Utf8).
Proof. reflexivity. Qed.

Lemma scenario_dataset_loads :
  json_loads scenario_dataset = Some (JDict scenario_document).
Proof. reflexivity. Qed.

(** With the logger attached the first scenario succeeds as the
    specification describes. *)
Lemma scenario_succeeds_with_logger (E : env) (c : config) :
  truthy (config_get c (lit "just_log_prompts") (JBool false)) = true ->
  snd (analyze_logged E c (Some Logger) scenario_request)
  = Success (markdown_name E) (json_name E) 1
      (config_get c (lit "model") default_model)
      (config_get c (lit "just_log_prompts") (JBool false))
      (preview mock_response) mock_response (JDict scenario_document)
  /\ startswith report_heading (preview mock_response) = true.
Proof.
  intros Hmock. split; [|reflexivity].
  apply analyze_logged_return. unfold scenario_request.
  rewrite analyze_try_files by reflexivity.
  apply (analyze_files_mock E c (Some Logger) _ _
           scenario_severity scenario_dataset Utf8 Utf8 scenario_document 1).
  - apply scenario_severity_read.
  - apply scenario_dataset_read.
  - apply scenario_dataset_loads.
  - reflexivity.
  - discriminate.
  - exact Hmock.
Qed.

(** C1 fails on the code: with mock mode on and debug logging off (its
    default), the first scenario ends in the failure raised by the call on
    the absent logger, not in [success=true]. *)
Theorem scenario_fails_without_logging (E : env) (c : config) :
  truthy (config_get c (lit "just_log_prompts") (JBool false)) = true ->
  truthy (config_get c (lit "debug_logging") (JBool false)) = false ->
  snd (analyze E (Some c) scenario_request)
  = Failure (lit "Analysis failed: 'NoneType' object has no attribute 'info'").
Proof.
  intros Hmock Hdebug.
  rewrite analyze_with_config by now apply mock_config_nonempty.
  rewrite setup_logging_off by exact Hdebug.
  rewrite (analyze_logged_raise E c None scenario_request
             (no_attribute JNull (lit "info"))); [reflexivity|].
  unfold scenario_request. rewrite analyze_try_files by reflexivity.
  apply (tickets_key_needs_logger E c _ _ scenario_dataset Utf8
           scenario_document (JList [JDict [(lit "id", JInt 1)]])).
  - apply scenario_dataset_read.
  - apply scenario_dataset_loads.
  - reflexivity.
Qed.

Lemma scenario_fails_without_logging_witness :
  snd (analyze sample_env (Some mock_config) scenario_request)
  = Failure (lit "Analysis failed: 'NoneType' object has no attribute 'info'").
Proof.
  apply (scenario_fails_without_logging sample_env mock_config); reflexivity.
Defined.

(** C2 fails on the code: on the first scenario in mock mode the request
    succeeds with a logger attached and fails without one. *)
Theorem logger_changes_the_result (E : env) (c : config) :
  truthy (config_get c (lit "just_log_prompts") (JBool false)) = true ->
  success (snd (analyze_logged E c (Some Logger) scenario_request)) = true
  /\ success (snd (analyze_logged E c None scenario_request)) = false.
Proof.
  intros Hmock. split.
  - now rewrite (proj1 (scenario_succeeds_with_logger E c Hmock)).
  - rewrite (analyze_logged_raise E c None scenario_request
               (no_attribute JNull (lit "info"))); [reflexivity|].
    unfold scenario_request. rewrite analyze_try_files by reflexivity.
    apply (tickets_key_needs_logger E c _ _ scenario_dataset Utf8
             scenario_document (JList [JDict [(lit "id", JInt 1)]])).
    + apply scenario_dataset_read.
    + apply scenario_dataset_loads.
    + reflexivity.
Qed.

Lemma logger_changes_the_result_witness :
  success (snd (analyze_logged sample_env mock_config (Some Logger)
                  scenario_request)) = true
  /\ success (snd (analyze_logged sample_env mock_config None
                     scenario_request)) = false.
Proof.
  apply (logger_changes_the_result sample_env mock_config). reflexivity.
Defined.

(* ------------------------------------------------------------------ *)
(** ** The dataset stage of [analyze] *)

Section DatasetStage.

Variables (E : env) (c : config) (lg : option logger).

Lemma snd_mbind_return {A B} (m : M A) (k : A -> M B) (b : B) :
  snd (mbind m k) = Return b ->
  exists a, snd m = Return a /\ snd (k a) = Return b.
Proof.
  rewrite snd_mbind. destruct (snd m) as [a|e]; [|discriminate].
  intros H. now exists a.
Qed.

Lemma analyze_logged_of_return (req : request) (r : response) :
  snd (analyze_try E c lg req) = Return r ->
  analyze_logged E c lg req = (fst (analyze_try E c lg req), r).
Proof.
  unfold analyze_logged.
  destruct (analyze_try E c lg req) as [tr [r'|e]]; cbn [snd fst].
  - now intros [= ->].
  - discriminate.
Qed.

Lemma analyze_logged_success (req : request) (r : response) :
  snd (analyze_logged E c lg req) = r -> success r = true ->
  snd (analyze_try E c lg req) = Return r.
Proof.
  unfold analyze_logged.
  destruct (analyze_try E c lg req) as [tr [r'|e]]; cbn [snd].
  - now intros ->.
  - destruct (mbind _ _). cbn [snd]. intros <-. discriminate.
Qed.

Variables (sev js : upload) (text : str) (enc : encoding).

Hypothesis dataset_read :
  read_file_with_encoding (json_tmp E) (data js) = Return (text, enc).

(** A payload that is not JSON ends the request with the parse error. *)
Lemma invalid_json_result :
  json_loads text = None ->
  snd (analyze_files E c lg sev js)
  = Return (Failure (lit "Invalid JSON file: " ++ json_error_detail E text)).
Proof.
  intros Hloads. unfold analyze_files.
  destruct (reader_total (severity_tmp E) (data sev)) as (st & se & Hsev & _).
  rewrite Hsev, dataset_read.
  repeat (rewrite snd_mbind; rewrite ?snd_log; cbn [snd fst emit ret lift]).
  rewrite Hloads.
  rewrite snd_mbind, snd_log. reflexivity.
Qed.

(** ... and before that point nothing but log lines and the two saved
    uploads has happened. *)
Lemma invalid_json_trace (p : event -> bool) :
  (forall lv msg, p (Log lv msg) = false) ->
  (forall path bs, p (SaveUpload path bs) = false) ->
  json_loads text = None ->
  none_of p (fst (analyze_files E c lg sev js)).
Proof.
  intros Hlog Hsave Hloads. unfold analyze_files.
  rewrite dataset_read.
  apply none_of_mbind; [now apply none_of_log | intros _ _].
  apply none_of_mbind; [unfold none_of; cbn; now rewrite Hsave | intros _ _].
  apply none_of_mbind; [apply none_of_lift | intros sr _].
  apply none_of_mbind; [unfold none_of; cbn; now rewrite Hsave | intros _ _].
  apply none_of_mbind; [apply none_of_lift | intros jr Hjr].
  cbn [snd lift] in Hjr. injection Hjr as <-. cbn [fst snd].
  apply none_of_mbind; [now apply none_of_log | intros _ _].
  apply none_of_mbind; [now apply none_of_log | intros _ _].
  rewrite Hloads.
  apply none_of_mbind; [now apply none_of_log | intros _ _].
  reflexivity.
Qed.

(** Whenever the request succeeds, the count it reports is the length of
    the dataset's [tickets] entry, or of the empty list when there is
    none. *)
Lemma success_reports_ticket_count (json_data : json)
    (md jn : str) (n : nat) (m p : json) (pv a : str) (mj : json) :
  json_loads text = Some json_data ->
  snd (analyze_files E c lg sev js) = Return (Success md jn n m p pv a mj) ->
  ticket_count json_data = Return n.
Proof.
  intros Hloads. unfold analyze_files. rewrite dataset_read.
  intros H.
  do 4 (apply snd_mbind_return in H; destruct H as (? & _ & H)).
  apply snd_mbind_return in H. destruct H as (jr & Hjr & H).
  cbn [snd lift] in Hjr. injection Hjr as <-.
  do 2 (apply snd_mbind_return in H; destruct H as (? & _ & H)).
  cbn [fst snd] in H. rewrite Hloads in H.
  do 4 (apply snd_mbind_return in H; destruct H as (? & _ & H)).
  apply snd_mbind_return in H. destruct H as (answer & _ & H).
  apply snd_mbind_return in H. destruct H as (? & _ & H).
  destruct answer; try discriminate H.
  apply snd_mbind_return in H. destruct H as (parts & _ & H).
  destruct (encode Utf8 (fst parts)); [|discriminate H].
  do 6 (apply snd_mbind_return in H; destruct H as (? & _ & H)).
  apply snd_mbind_return in H. destruct H as (tickets & Ht & H).
  apply snd_mbind_return in H. destruct H as (k & Hk & H).
  cbn [snd ret lift] in *. injection H as _ _ <- _ _ _ _ _.
  unfold ticket_count. now rewrite Ht.
Qed.

End DatasetStage.

(** C7 as stated does not hold, in neither half.  The payload
    [{"a": NaN}] is no JSON by the standard, yet [json.loads] accepts the
    constant and the request succeeds.  The payload [[]] parses and has no
    [tickets] key, yet the request fails, because the code reads the
    dataset with the methods of a dictionary. *)
Lemma dataset_claim_fails :
  ~ (forall (E : env) (c : config) (lg : option logger) (sev js : upload)
            (text : str) (enc : encoding),
        is_empty (filename sev) = false ->
        is_empty (filename js) = false ->
        read_file_with_encoding (json_tmp E) (data js) = Return (text, enc) ->
        standard_json text = false ->
        success (snd (analyze_logged E c lg (request_of sev js))) = false)
  /\ ~ (forall (E : env) (c : config) (lg : option logger) (sev js : upload)
               (text : str) (enc : encoding) (json_data : json),
           is_empty (filename sev) = false ->
           is_empty (filename js) = false ->
           read_file_with_encoding (json_tmp E) (data js) = Return (text, enc) ->
           json_loads text = Some json_data ->
           py_contains (lit "tickets") json_data = Return false ->
           truthy (config_get c (lit "just_log_prompts") (JBool false)) = true ->
           exists md jn m p pv a mj,
             snd (analyze_logged E c lg (request_of sev js))
             = Success md jn 0 m p pv a mj).
Proof.
  split; intros H.
  - pose (payload := lit "{" ++ dquote ++ lit "a" ++ dquote ++ lit ": NaN}").
    specialize (H sample_env mock_config None
                  {| filename := lit "severity.md";
                     data := utf8_bytes scenario_severity |}
                  {| filename := lit "tickets.json"; data := utf8_bytes payload |}
                  payload Utf8 eq_refl eq_refl eq_refl eq_refl).
    vm_compute in H. discriminate H.
  - destruct (H sample_env mock_config None
                {| filename := lit "severity.md";
                   data := utf8_bytes scenario_severity |}
                {| filename := lit "tickets.json"; data := utf8_bytes (lit "[]") |}
                (lit "[]") Utf8 (JList [])
                eq_refl eq_refl eq_refl eq_refl eq_refl eq_refl)
      as (md & jn & m & p & pv & a & mj & Hres).
    vm_compute in Hres. discriminate Hres.
Qed.

(** C7, amended.  A payload that [json.loads] rejects ends the request
    with [success=false] and the error [Invalid JSON file: ...]; no HTTP
    request was posted and no artifact written.  A payload that parses to a
    JSON object without a [tickets] key is not fatal: in mock mode the
    request succeeds with [tickets_analyzed=0], and in any mode a
    successful result reports [tickets_analyzed=0]. *)
Theorem dataset_parse_stage (E : env) (c : config) (lg : option logger)
    (sev js : upload) (text : str) (enc : encoding) :
  is_empty (filename sev) = false ->
  is_empty (filename js) = false ->
  read_file_with_encoding (json_tmp E) (data js) = Return (text, enc) ->
  (json_loads text = None ->
   snd (analyze_logged E c lg (request_of sev js))
   = Failure (lit "Invalid JSON file: " ++ json_error_detail E text)
   /\ none_of is_http (fst (analyze_logged E c lg (request_of sev js)))
   /\ none_of is_artifact_write
        (fst (analyze_logged E c lg (request_of sev js))))
  /\ (forall d,
         json_loads text = Some (JDict d) ->
         dict_lookup (lit "tickets") d = None ->
         (truthy (config_get c (lit "just_log_prompts") (JBool false)) = true ->
          snd (analyze_logged E c lg (request_of sev js))
          = Success (markdown_name E) (json_name E) 0
              (config_get c (lit "model") default_model)
              (config_get c (lit "just_log_prompts") (JBool false))
              (preview mock_response) mock_response (JDict d))
         /\ (forall md jn n m p pv a mj,
                snd (analyze_logged E c lg (request_of sev js))
                = Success md jn n m p pv a mj ->
                n = 0%nat)).
Proof.
  intros Hs Hj Hread. split.
  - intros Hloads.
    pose proof (invalid_json_result E c lg sev js text enc Hread Hloads) as Hres.
    rewrite <- (analyze_try_files E c lg sev js Hs Hj) in Hres.
    rewrite (analyze_logged_of_return E c lg _ _ Hres). cbn [fst snd].
    rewrite (analyze_try_files E c lg sev js Hs Hj).
    split; [reflexivity|].
    split; apply (invalid_json_trace E c lg sev js text enc Hread);
      try reflexivity; exact Hloads.
  - intros d Hloads Hnone. split.
    + intros Hmock. apply analyze_logged_return.
      rewrite (analyze_try_files E c lg sev js Hs Hj).
      destruct (reader_total (severity_tmp E) (data sev)) as (st & se & Hsev & _).
      apply (analyze_files_mock E c lg sev js st text se enc d 0);
        try assumption.
      * unfold ticket_count. cbn [py_get]. now rewrite Hnone.
      * intros _. exact Hnone.
    + intros md jn n m p pv a mj Hres.
      apply analyze_logged_success in Hres; [|reflexivity].
      rewrite (analyze_try_files E c lg sev js Hs Hj) in Hres.
      pose proof (success_reports_ticket_count E c lg sev js text enc Hread
                    (JDict d) md jn n m p pv a mj Hloads Hres) as Hcount.
      unfold ticket_count in Hcount. cbn [py_get] in Hcount.
      rewrite Hnone in Hcount. cbn in Hcount. now injection Hcount as <-.
Qed.

Lemma dataset_parse_stage_witness :
  let sev := {| filename := lit "severity.md";
                data := utf8_bytes scenario_severity |} in
  let broken := {| filename := lit "tickets.json";
                   data := utf8_bytes (lit "{" ++ dquote ++ lit "tickets"
                                       ++ dquote ++ lit ":") |} in
  let empty := {| filename := lit "tickets.json";
                  data := utf8_bytes (lit "{}") |} in
  (snd (analyze_logged sample_env mock_config None (request_of sev broken))
   = Failure (lit "Invalid JSON file: Expecting value: line 1 column 12 (char 11)")
   /\ none_of is_http
        (fst (analyze_logged sample_env mock_config None (request_of sev broken)))
   /\ none_of is_artifact_write
        (fst (analyze_logged sample_env mock_config None (request_of sev broken))))
  /\ snd (analyze_logged sample_env mock_config None (request_of sev empty))
     = Success (lit "/tmp/tmpc3.md") (lit "/tmp/tmpd4.json") 0
         default_model (JBool true) (preview mock_response) mock_response
         (JDict []).
Proof.
  intros sev broken empty. split.
  - apply (proj1 (dataset_parse_stage sample_env mock_config None sev broken
                    (lit "{" ++ dquote ++ lit "tickets" ++ dquote ++ lit ":")
                    Utf8 eq_refl eq_refl eq_refl)).
    reflexivity.
  - apply (proj2 (dataset_parse_stage sample_env mock_config None sev empty
                    (lit "{}") Utf8 eq_refl eq_refl eq_refl) []);
      reflexivity.
Defined.

(* ------------------------------------------------------------------ *)
(** ** The API client on an unexpected response *)

Section ResponseFormat.

Variables (E : env) (c : config) (prompt : str) (lg : option logger).
Variables (key url : json) (response : http_response) (reply : json).

Hypothesis live_mode :
  truthy (config_get c (lit "just_log_prompts") (JBool false)) = false.
Hypothesis has_key : config_item c (lit "abacus_api_key") = Return key.
Hypothesis has_url : config_item c (lit "abacus_api_url") = Return url.
Hypothesis answered : forall r, post E r = PostReturns response.
Hypothesis status_ok : status_code response = 200.
Hypothesis parsed : body response = BodyJson reply.

(** The client once the reply has been parsed. *)
Lemma client_after_parse :
  snd (call_abacus_api E c prompt lg)
  = match has_choices reply with
    | Return true =>
        match extract_content reply with
        | Return content =>
            match lg with
            | Some _ => Py.bind (py_len content) (fun _ => Return content)
            | None => Return content
            end
        | Raise e => Raise e
        end
    | Return false => Raise (Exn ValueError unexpected_format)
    | Raise e => Raise e
    end.
Proof.
  unfold call_abacus_api. rewrite live_mode.
  repeat (rewrite snd_mbind, snd_log).
  rewrite snd_mbind, has_key. cbn [snd lift].
  rewrite snd_mbind, snd_log.
  rewrite snd_mbind, has_url. cbn [snd lift].
  rewrite snd_mbind. cbn [snd emit].
  rewrite answered.
  rewrite snd_mbind, snd_log.
  rewrite status_ok. cbn [N.leb N.ltb N.compare Pos.compare Pos.compare_cont andb].
  rewrite parsed.
  repeat (rewrite snd_mbind, snd_log).
  rewrite snd_mbind. cbn [snd lift].
  destruct (has_choices reply) as [[|]|e]; [| |reflexivity].
  - rewrite snd_mbind. cbn [snd lift].
    destruct (extract_content reply) as [content|e]; [|reflexivity].
    rewrite snd_mbind. destruct lg as [l|]; cbn [log_with snd ret].
    + rewrite snd_mbind. cbn [snd lift Py.bind].
      now destruct (py_len content).
    + reflexivity.
  - rewrite snd_mbind, snd_log. reflexivity.
Qed.

End ResponseFormat.

(** C8 fails on the code: a reply whose first choice has no [message]
    raises the [KeyError] of the subscript, not the error the client
    raises for an unexpected format. *)
Theorem missing_message_is_a_key_error (E : env) (c : config) (prompt : str)
    (lg : option logger) (key url : json) (response : http_response) :
  truthy (config_get c (lit "just_log_prompts") (JBool false)) = false ->
  config_item c (lit "abacus_api_key") = Return key ->
  config_item c (lit "abacus_api_url") = Return url ->
  (forall r, post E r = PostReturns response) ->
  status_code response = 200 ->
  body response = BodyJson (JDict [(lit "choices", JList [JDict []])]) ->
  snd (call_abacus_api E c prompt lg) = Raise (Exn KeyError (lit "'message'"))
  /\ Exn KeyError (lit "'message'") <> Exn ValueError unexpected_format.
Proof.
  intros Hlive Hkey Hurl Hpost Hstatus Hbody. split; [|discriminate].
  rewrite (client_after_parse E c prompt lg key url response _
             Hlive Hkey Hurl Hpost Hstatus Hbody).
  reflexivity.
Qed.

Lemma missing_message_is_a_key_error_witness :
  snd (call_abacus_api (replying_env reply_without_message) live_config
         (lit "prompt") None)
  = Raise (Exn KeyError (lit "'message'"))
  /\ Exn KeyError (lit "'message'") <> Exn ValueError unexpected_format.
Proof.
  apply (missing_message_is_a_key_error
           (replying_env reply_without_message) live_config (lit "prompt") None
           (JStr (lit "secret")) (JStr (lit "https://api.example/v1/chat"))
           reply_without_message); reflexivity.
Defined.

(** When the reply has no [choices] entry, or an empty one, the client
    does raise its own error for an unexpected format. *)
Lemma missing_choices_is_reported (E : env) (c : config) (prompt : str)
    (lg : option logger) (key url : json) (response : http_response)
    (reply : json) :
  truthy (config_get c (lit "just_log_prompts") (JBool false)) = false ->
  config_item c (lit "abacus_api_key") = Return key ->
  config_item c (lit "abacus_api_url") = Return url ->
  (forall r, post E r = PostReturns response) ->
  status_code response = 200 ->
  body response = BodyJson reply ->
  has_choices reply = Return false ->
  snd (call_abacus_api E c prompt lg) = Raise (Exn ValueError unexpected_format).
Proof.
  intros Hlive Hkey Hurl Hpost Hstatus Hbody Hnone.
  rewrite (client_after_parse E c prompt lg key url response reply
             Hlive Hkey Hurl Hpost Hstatus Hbody).
  now rewrite Hnone.
Qed.

(* ------------------------------------------------------------------ *)
(** ** The scanner of [json.loads] *)

Section ScannerLengths.

Lemma skip_ws_length (s : str) :
  (List.length (skip_ws s) <= List.length s)%nat.
Proof.
  induction s as [|c s IH]; cbn; [lia|].
  destruct (is_json_ws c); cbn; lia.
Qed.

Lemma scan_string_from_length (s : str) :
  forall st v r, scan_string_from st s = Some (v, r) ->
                 (List.length r < List.length s)%nat.
Proof.
  induction s as [|c s IH]; intros st v r; cbn [scan_string_from]; [discriminate|].
  destruct (string_char st c) as [w|st'|]; [| |discriminate].
  - intros [= _ <-]. cbn. lia.
  - intros H. apply IH in H. cbn. lia.
Qed.

Lemma scan_digits_length (s : str) :
  (List.length (snd (scan_digits s)) <= List.length s)%nat.
Proof.
  induction s as [|c s IH]; cbn; [lia|].
  destruct (is_digit c); cbn; [|lia].
  destruct (scan_digits s). cbn in *. lia.
Qed.

Lemma scan_int_length (s ip r : str) :
  scan_int s = Some (ip, r) -> (List.length r < List.length s)%nat.
Proof.
  destruct s as [|c s]; cbn; [discriminate|].
  destruct (c =? 48).
  - intros [= _ <-]. lia.
  - destruct (is_digit c); [|discriminate].
    pose proof (scan_digits_length s) as Hlen.
    destruct (scan_digits s) as [ds r']. intros [= _ <-]. cbn in Hlen. lia.
Qed.

Lemma scan_frac_length (s : str) :
  (List.length (snd (scan_frac s)) <= List.length s)%nat.
Proof.
  destruct s as [|c s]; cbn; [lia|].
  destruct (c =? 46); cbn; [|lia].
  pose proof (scan_digits_length s) as Hlen.
  destruct (scan_digits s) as [[|d ds] r]; cbn in *; lia.
Qed.

Lemma scan_exp_length (s : str) :
  (List.length (snd (scan_exp s)) <= List.length s)%nat.
Proof.
  unfold scan_exp. destruct s as [|e s]; [cbn; lia|].
  destruct ((e =? 101) || (e =? 69)); [|cbn; lia].
  destruct s as [|sg s]; [cbn; lia|].
  destruct ((sg =? 43) || (sg =? 45)).
  - pose proof (scan_digits_length s) as Hlen.
    destruct (scan_digits s) as [[|d ds] r]; cbn [snd List.length] in *; lia.
  - pose proof (scan_digits_length (sg :: s)) as Hlen.
    destruct (scan_digits (sg :: s)) as [[|d ds] r];
      cbn [snd List.length] in *; lia.
Qed.

Lemma scan_unsigned_length (neg : bool) (s : str) (v : json) (r : str) :
  scan_unsigned neg s = Some (v, r) -> (List.length r < List.length s)%nat.
Proof.
  unfold scan_unsigned.
  destruct (scan_int s) as [[ip r1]|] eqn:Hint; [|discriminate].
  apply scan_int_length in Hint.
  pose proof (scan_frac_length r1) as Hfrac.
  destruct (scan_frac r1) as [fp r2]. cbn [snd] in Hfrac.
  pose proof (scan_exp_length r2) as Hexp.
  destruct (scan_exp r2) as [ep r3]. cbn [snd] in Hexp.
  destruct fp, ep; intros [= _ <-]; lia.
Qed.

Lemma scan_number_length (s : str) (v : json) (r : str) :
  scan_number s = Some (v, r) -> (List.length r < List.length s)%nat.
Proof.
  unfold scan_number. destruct s as [|c s]; [discriminate|].
  destruct (c =? 45); intros H; apply scan_unsigned_length in H; cbn in *; lia.
Qed.

Lemma startswith_length (p s : str) :
  startswith p s = true -> (List.length p <= List.length s)%nat.
Proof.
  revert s. induction p as [|x p IH]; intros s; cbn; [lia|].
  destruct s as [|y s]; [discriminate|].
  intros H. apply andb_prop in H. destruct H as [_ H]. apply IH in H. cbn. lia.
Qed.

Lemma scan_token_length (s : str) (t : token) (r : str) :
  scan_token s = Some (t, r) -> (List.length r < List.length s)%nat.
Proof.
  unfold scan_token. destruct s as [|c s]; [discriminate|].
  assert (Hskip : forall k, (List.length (skipn (S k) (c :: s))
                             < List.length (c :: s))%nat).
  { intros k. rewrite length_skipn. cbn. lia. }
  repeat match goal with
         | |- (if ?b then Some (_, s) else _) = _ -> _ =>
             destruct b; [intros [= _ <-]; cbn; lia|]
         end.
  destruct (c =? 34).
  { destruct (scan_string s) as [[w r']|] eqn:Hs; [|discriminate].
    apply scan_string_from_length in Hs. intros [= _ <-]. cbn. lia. }
  destruct (startswith (lit "null") (c :: s));
    [intros [= _ <-]; exact (Hskip 3%nat)|].
  destruct (startswith (lit "true") (c :: s));
    [intros [= _ <-]; exact (Hskip 3%nat)|].
  destruct (startswith (lit "false") (c :: s));
    [intros [= _ <-]; exact (Hskip 4%nat)|].
  destruct (scan_number (c :: s)) as [[v r']|] eqn:Hn.
  { apply scan_number_length in Hn. now intros [= _ <-]. }
  destruct (startswith (lit "NaN") (c :: s));
    [intros [= _ <-]; exact (Hskip 2%nat)|].
  destruct (startswith (lit "Infinity") (c :: s));
    [intros [= _ <-]; exact (Hskip 7%nat)|].
  destruct (startswith (lit "-Infinity") (c :: s));
    [intros [= _ <-]; exact (Hskip 8%nat)|].
  discriminate.
Qed.

(** Fuel above the length of the text is never used up. *)
Lemma tokens_aux_fuel (f1 : nat) :
  forall f2 s, (List.length s < f1)%nat -> (List.length s < f2)%nat ->
               tokens_aux f1 s = tokens_aux f2 s.
Proof.
  induction f1 as [|f1 IH]; intros f2 s H1 H2; [lia|].
  destruct f2 as [|f2]; [lia|].
  cbn [tokens_aux]. pose proof (skip_ws_length s) as Hws.
  destruct (skip_ws s) as [|c u]; [reflexivity|].
  destruct (scan_token (c :: u)) as [[t r]|] eqn:Ht; [|reflexivity].
  apply scan_token_length in Ht. f_equal. apply IH; lia.
Qed.

End ScannerLengths.

Section ScannerAndSpaces.

(** No character [strip] removes can start or continue a token. *)
Lemma space_outside (c : N) : isspace c = true -> c < 34 \/ 125 < c.
Proof.
  unfold isspace.
  rewrite !orb_true_iff, !andb_true_iff, !N.leb_le, !N.eqb_eq. lia.
Qed.

Ltac settle_tests Hc :=
  repeat match goal with
         | |- context [?a =? ?b] =>
             destruct (N.eqb_spec a b); [exfalso; lia|]
         | |- context [?a <=? ?b] =>
             destruct (N.leb_spec a b); try (exfalso; lia)
         | |- context [?a <? ?b] =>
             destruct (N.ltb_spec a b); try (exfalso; lia)
         end.

Lemma space_not_digit (c : N) : isspace c = true -> is_digit c = false.
Proof.
  intros H. apply space_outside in H. unfold is_digit.
  destruct (N.leb_spec 48 c), (N.leb_spec c 57); try reflexivity; lia.
Qed.

Lemma space_not_hex (c : N) : isspace c = true -> hex_value c = None.
Proof.
  intros H. apply space_outside in H. unfold hex_value.
  destruct (N.leb_spec 48 c), (N.leb_spec c 57), (N.leb_spec 97 c),
    (N.leb_spec c 102), (N.leb_spec 65 c), (N.leb_spec c 70);
    try reflexivity; lia.
Qed.

Lemma space_not_escape (c : N) : isspace c = true -> simple_escape c = None.
Proof.
  intros H. apply space_outside in H. unfold simple_escape.
  settle_tests H. reflexivity.
Qed.

Lemma space_eqb (c k : N) :
  isspace c = true -> 34 <= k <= 125 -> (c =? k) = false.
Proof.
  intros H Hk. apply space_outside in H. apply N.eqb_neq. lia.
Qed.

(** A string literal cannot end inside a run of such characters. *)
Lemma scan_string_from_spaces (t : str) :
  spaces t -> forall st, scan_string_from st t = None.
Proof.
  induction 1 as [|c t Hc _ IH]; intros st; [reflexivity|].
  cbn [scan_string_from]. unfold string_char.
  destruct (mode st) as [| |k v].
  - rewrite (space_eqb c 34 Hc), (space_eqb c 92 Hc) by lia.
    destruct (c <? 32); [reflexivity | apply IH].
  - rewrite (space_eqb c 117 Hc) by lia.
    now rewrite (space_not_escape c Hc).
  - now rewrite (space_not_hex c Hc).
Qed.

Lemma scan_string_from_app (tail : str) (tail_spaces : spaces tail) (s : str) :
  forall st, scan_string_from st (s ++ tail)
             = option_map (with_tail tail) (scan_string_from st s).
Proof.
  induction s as [|c s IH]; intros st.
  - now apply scan_string_from_spaces.
  - cbn [app scan_string_from].
    destruct (string_char st c) as [w|st'|]; [reflexivity | apply IH | reflexivity].
Qed.

Lemma tail_head_not_digit (tail : str) (tail_spaces : spaces tail) :
  match tail with
  | [] => True
  | c :: _ => isspace c = true
  end.
Proof. destruct tail_spaces; [exact I | assumption]. Qed.

Lemma scan_digits_app (tail : str) (tail_spaces : spaces tail) (s : str) :
  scan_digits (s ++ tail) = with_tail tail (scan_digits s).
Proof.
  induction s as [|c s IH].
  - cbn [app]. pose proof (tail_head_not_digit tail tail_spaces) as H.
    destruct tail as [|c t]; [reflexivity|].
    cbn. now rewrite (space_not_digit c H).
  - cbn [app scan_digits]. rewrite IH.
    destruct (is_digit c); [|reflexivity].
    now destruct (scan_digits s).
Qed.

Lemma scan_int_app (tail : str) (tail_spaces : spaces tail) (s : str) :
  scan_int (s ++ tail) = option_map (with_tail tail) (scan_int s).
Proof.
  destruct s as [|c s].
  - cbn [app]. pose proof (tail_head_not_digit tail tail_spaces) as H.
    destruct tail as [|c t]; [reflexivity|].
    cbn. rewrite (space_eqb c 48 H) by lia. now rewrite (space_not_digit c H).
  - cbn [app scan_int]. destruct (c =? 48); [reflexivity|].
    destruct (is_digit c); [|reflexivity].
    rewrite (scan_digits_app tail tail_spaces). now destruct (scan_digits s).
Qed.

Lemma scan_frac_app (tail : str) (tail_spaces : spaces tail) (s : str) :
  scan_frac (s ++ tail) = with_tail tail (scan_frac s).
Proof.
  unfold scan_frac. destruct s as [|c s].
  - cbn [app]. pose proof (tail_head_not_digit tail tail_spaces) as H.
    destruct tail as [|c t]; [reflexivity|].
    now rewrite (space_eqb c 46 H) by lia.
  - cbn [app]. destruct (c =? 46); [|reflexivity].
    rewrite (scan_digits_app tail tail_spaces). now destruct (scan_digits s) as [[|d ds] r].
Qed.

Lemma scan_exp_app (tail : str) (tail_spaces : spaces tail) (s : str) :
  scan_exp (s ++ tail) = with_tail tail (scan_exp s).
Proof.
  unfold scan_exp. pose proof (tail_head_not_digit tail tail_spaces) as H.
  destruct s as [|e s].
  - cbn [app]. destruct tail as [|c t]; [reflexivity|].
    now rewrite (space_eqb c 101 H), (space_eqb c 69 H) by lia.
  - cbn [app]. destruct ((e =? 101) || (e =? 69)); [|reflexivity].
    destruct s as [|sg s].
    + cbn [app]. destruct tail as [|c t]; [reflexivity|].
      rewrite (space_eqb c 43 H), (space_eqb c 45 H) by lia.
      cbn [orb scan_digits]. now rewrite (space_not_digit c H).
    + cbn [app]. destruct ((sg =? 43) || (sg =? 45)).
      * rewrite (scan_digits_app tail tail_spaces). now destruct (scan_digits s) as [[|d ds] r].
      * change (sg :: s ++ tail) with ((sg :: s) ++ tail).
        rewrite (scan_digits_app tail tail_spaces).
        now destruct (scan_digits (sg :: s)) as [[|d ds] r].
Qed.

Lemma scan_unsigned_app (tail : str) (tail_spaces : spaces tail)
    (neg : bool) (s : str) :
  scan_unsigned neg (s ++ tail) = option_map (with_tail tail) (scan_unsigned neg s).
Proof.
  unfold scan_unsigned. rewrite (scan_int_app tail tail_spaces).
  destruct (scan_int s) as [[ip r1]|]; [|reflexivity].
  cbn [option_map with_tail fst snd].
  rewrite (scan_frac_app tail tail_spaces). destruct (scan_frac r1) as [fp r2].
  unfold with_tail at 1. cbn [fst snd].
  rewrite (scan_exp_app tail tail_spaces). destruct (scan_exp r2) as [ep r3].
  unfold with_tail at 1. cbn [fst snd].
  now destruct fp, ep.
Qed.

Lemma scan_number_app (tail : str) (tail_spaces : spaces tail) (s : str) :
  scan_number (s ++ tail) = option_map (with_tail tail) (scan_number s).
Proof.
  unfold scan_number. destruct s as [|c s]; cbn [app].
  - pose proof (tail_head_not_digit tail tail_spaces) as H.
    destruct tail as [|c t]; [reflexivity|].
    rewrite (space_eqb c 45 H) by lia.
    unfold scan_unsigned, scan_int.
    rewrite (space_eqb c 48 H) by lia. now rewrite (space_not_digit c H).
  - destruct (c =? 45).
    + apply (scan_unsigned_app tail tail_spaces).
    + apply (scan_unsigned_app tail tail_spaces false (c :: s)).
Qed.

(** A keyword is not completed by [tail]. *)
Lemma startswith_app_spaces (tail : str) (tail_spaces : spaces tail) (p : str) :
  Forall (fun c => isspace c = false) p ->
  forall s, startswith p (s ++ tail) = startswith p s.
Proof.
  intros Hp. induction Hp as [|x p Hx _ IH]; intros s; [reflexivity|].
  destruct s as [|y s]; cbn [app startswith].
  - pose proof (tail_head_not_digit tail tail_spaces) as H.
    destruct tail as [|c t]; [reflexivity|]. cbn [startswith].
    destruct (N.eqb_spec x c) as [->|_]; [congruence | reflexivity].
  - now rewrite IH.
Qed.

Lemma skipn_app_le {A} (k : nat) (s t : list A) :
  (k <= List.length s)%nat -> skipn k (s ++ t) = skipn k s ++ t.
Proof.
  intros H. rewrite skipn_app.
  replace (k - List.length s)%nat with 0%nat by lia. reflexivity.
Qed.

Lemma keyword_app (tail : str) (tail_spaces : spaces tail) (p : str) (v : json) (s : str) (rest : option (token * str))
    (rest' : option (token * str)) :
  Forall (fun c => isspace c = false) p ->
  rest' = option_map (with_tail tail) rest ->
  (if startswith p (s ++ tail)
   then Some (TScalar v, skipn (List.length p) (s ++ tail)) else rest')
  = option_map (with_tail tail)
      (if startswith p s then Some (TScalar v, skipn (List.length p) s) else rest).
Proof.
  intros Hp ->. rewrite (startswith_app_spaces tail tail_spaces p Hp).
  destruct (startswith p s) eqn:Hs; [|reflexivity].
  cbn [option_map]. unfold with_tail. cbn [fst snd].
  now rewrite (skipn_app_le _ _ _ (startswith_length _ _ Hs)).
Qed.

End ScannerAndSpaces.

Section TokensAndSpaces.

Lemma keyword_has_no_space (p : str) :
  forallb (fun c => negb (isspace c)) p = true ->
  Forall (fun c => isspace c = false) p.
Proof.
  intros H. apply Forall_forall. intros c Hc.
  rewrite forallb_forall in H. apply H in Hc. now destruct (isspace c).
Qed.

(** A token that ends before a run of spaces is found with or without
    the run. *)
Lemma scan_token_app (tail : str) (tail_spaces : spaces tail) (s : str) :
  s <> [] ->
  scan_token (s ++ tail) = option_map (with_tail tail) (scan_token s).
Proof.
  intros Hs. destruct s as [|c s]; [contradiction|].
  change ((c :: s) ++ tail) with (c :: s ++ tail) at 1.
  unfold scan_token.
  repeat match goal with
         | |- (if ?b then Some (?t, s ++ tail) else _) = _ =>
             destruct b; [reflexivity|]
         end.
  destruct (c =? 34).
  { unfold scan_string. rewrite (scan_string_from_app tail tail_spaces).
    now destruct (scan_string_from _ s) as [[w r]|]. }
  change (c :: s ++ tail) with ((c :: s) ++ tail).
  apply (keyword_app tail tail_spaces (lit "null"));
    [now apply keyword_has_no_space|].
  apply (keyword_app tail tail_spaces (lit "true"));
    [now apply keyword_has_no_space|].
  apply (keyword_app tail tail_spaces (lit "false"));
    [now apply keyword_has_no_space|].
  rewrite (scan_number_app tail tail_spaces).
  destruct (scan_number (c :: s)) as [[v r]|]; [reflexivity|].
  apply (keyword_app tail tail_spaces (lit "NaN"));
    [now apply keyword_has_no_space|].
  apply (keyword_app tail tail_spaces (lit "Infinity"));
    [now apply keyword_has_no_space|].
  apply (keyword_app tail tail_spaces (lit "-Infinity"));
    [now apply keyword_has_no_space|].
  reflexivity.
Qed.

(** No token starts with a character [strip] removes. *)
Lemma scan_token_space (c : N) (r : str) :
  isspace c = true -> scan_token (c :: r) = None.
Proof.
  intros Hc. unfold scan_token.
  rewrite (space_eqb c 123 Hc), (space_eqb c 125 Hc), (space_eqb c 91 Hc),
    (space_eqb c 93 Hc), (space_eqb c 58 Hc), (space_eqb c 44 Hc),
    (space_eqb c 34 Hc) by lia.
  cbn [startswith lit List.map list_ascii_of_string].
  change (N_of_ascii "n") with 110. change (N_of_ascii "t") with 116.
  change (N_of_ascii "f") with 102. change (N_of_ascii "N") with 78.
  change (N_of_ascii "I") with 73. change (N_of_ascii "-") with 45.
  rewrite (N.eqb_sym 110 c), (N.eqb_sym 116 c), (N.eqb_sym 102 c),
    (N.eqb_sym 78 c), (N.eqb_sym 73 c), (N.eqb_sym 45 c).
  rewrite (space_eqb c 110 Hc), (space_eqb c 116 Hc), (space_eqb c 102 Hc),
    (space_eqb c 78 Hc), (space_eqb c 73 Hc), (space_eqb c 45 Hc) by lia.
  cbn [andb]. unfold scan_number.
  rewrite (space_eqb c 45 Hc) by lia. unfold scan_unsigned, scan_int.
  rewrite (space_eqb c 48 Hc) by lia. now rewrite (space_not_digit c Hc).
Qed.

Lemma spaces_skip_ws (t : str) : spaces t -> spaces (skip_ws t).
Proof.
  induction 1 as [|c t Hc Ht IH]; cbn; [constructor|].
  destruct (is_json_ws c); [exact IH | now constructor].
Qed.

Lemma skip_ws_app (tail s : str) :
  skip_ws (s ++ tail)
  = match skip_ws s with
    | [] => skip_ws tail
    | u => u ++ tail
    end.
Proof.
  induction s as [|c s IH]; cbn [app skip_ws].
  - now destruct (skip_ws tail).
  - destruct (is_json_ws c); [exact IH | reflexivity].
Qed.

(** Trailing spaces do not change the tokens of a text. *)
Lemma tokens_aux_app (tail : str) (tail_spaces : spaces tail) (f : nat) :
  forall s ts, tokens_aux f (s ++ tail) = Some ts -> tokens_aux f s = Some ts.
Proof.
  induction f as [|f IH]; intros s ts.
  - cbn [tokens_aux]. rewrite skip_ws_app.
    destruct (skip_ws s) as [|c u]; [|discriminate].
    destruct (skip_ws tail); [trivial | discriminate].
  - cbn [tokens_aux]. rewrite skip_ws_app.
    destruct (skip_ws s) as [|c u].
    + pose proof (spaces_skip_ws tail tail_spaces) as Hsk.
      destruct (skip_ws tail) as [|c t]; [trivial|].
      inversion Hsk as [|? ? Hc _]; subst.
      now rewrite (scan_token_space c t Hc).
    + cbn [app]. change (c :: u ++ tail) with ((c :: u) ++ tail).
      rewrite (scan_token_app tail tail_spaces) by discriminate.
      destruct (scan_token (c :: u)) as [[t r]|]; [|discriminate].
      cbn [option_map with_tail fst snd].
      destruct (tokens_aux f (r ++ tail)) as [ts'|] eqn:Hr; [|discriminate].
      intros [= <-]. now rewrite (IH r ts' Hr).
Qed.

Lemma lstrip_spaces (s : str) : exists sp, s = sp ++ lstrip s /\ spaces sp.
Proof.
  induction s as [|c s (sp & Heq & Hsp)].
  - exists []. split; [reflexivity | constructor].
  - cbn [lstrip]. destruct (isspace c) eqn:Hc.
    + exists (c :: sp). split; [cbn; now f_equal | now constructor].
    + exists []. split; [reflexivity | constructor].
Qed.

Lemma rstrip_spaces (s : str) : exists sp, s = rstrip s ++ sp /\ spaces sp.
Proof.
  unfold rstrip. destruct (lstrip_spaces (rev s)) as (sp & Heq & Hsp).
  exists (rev sp). split.
  - rewrite <- rev_app_distr, <- Heq. now rewrite rev_involutive.
  - now apply Forall_rev.
Qed.

Lemma tokens_rstrip (s : str) (ts : list token) :
  tokens s = Some ts -> tokens (rstrip s) = Some ts.
Proof.
  unfold tokens. destruct (rstrip_spaces s) as (sp & Heq & Hsp).
  intros H. rewrite Heq in H at 2.
  apply (tokens_aux_app sp Hsp) in H. rewrite <- H.
  apply tokens_aux_fuel; [lia|].
  rewrite Heq at 2. rewrite length_app. lia.
Qed.

Lemma tokens_aux_ws (f : nat) (c : N) (s : str) :
  is_json_ws c = true -> tokens_aux f (c :: s) = tokens_aux f s.
Proof.
  intros H. destruct f; cbn [tokens_aux skip_ws]; now rewrite H.
Qed.

Lemma tokens_aux_space (f : nat) (c : N) (s : str) :
  isspace c = true -> is_json_ws c = false -> tokens_aux f (c :: s) = None.
Proof.
  intros Hc Hws. destruct f; cbn [tokens_aux skip_ws]; rewrite Hws;
    [reflexivity|]. now rewrite (scan_token_space c s Hc).
Qed.

Lemma tokens_lstrip (s : str) (ts : list token) :
  tokens s = Some ts -> tokens (lstrip s) = Some ts.
Proof.
  unfold tokens. induction s as [|c s IH]; [trivial|].
  cbn [lstrip]. destruct (isspace c) eqn:Hc; [|trivial].
  destruct (is_json_ws c) eqn:Hws.
  - rewrite (tokens_aux_ws _ c s Hws). intros H. apply IH. rewrite <- H.
    apply tokens_aux_fuel; cbn [List.length]; lia.
  - now rewrite (tokens_aux_space _ c s Hc Hws).
Qed.

(** [json.loads] gives the same document for a text with or without the
    white space [strip] removes around it. *)
Lemma json_loads_strip (s : str) (v : json) :
  json_loads s = Some v -> json_loads (strip s) = Some v.
Proof.
  unfold json_loads, strip.
  destruct (tokens s) as [ts|] eqn:Ht; [|discriminate].
  apply tokens_lstrip, tokens_rstrip in Ht. now rewrite Ht.
Qed.

End TokensAndSpaces.

(* ------------------------------------------------------------------ *)
(** ** More on the reader *)

Section ReaderEncodings.

Lemma cp1252_high_unassigned (b : byte) :
  cp1252_high (Byte.to_N b) = None <-> cp1252_unassigned b = true.
Proof. destruct b; split; intros H; solve [reflexivity | discriminate H]. Qed.

Lemma cp1252_decode_defined (bs : list byte) :
  existsb cp1252_unassigned bs = false <-> exists s, cp1252_decode bs = Some s.
Proof.
  induction bs as [|b r IH]; cbn [existsb cp1252_decode].
  - split; [now exists [] | reflexivity].
  - pose proof (cp1252_high_unassigned b) as Hb.
    destruct (cp1252_high (Byte.to_N b)) as [c|].
    + destruct (cp1252_unassigned b).
      * discriminate (proj2 Hb eq_refl).
      * cbn [orb]. rewrite IH. destruct (cp1252_decode r) as [s|].
        -- split; intros _; [now exists (c :: s) | now exists s].
        -- split; intros [s Hs]; discriminate Hs.
    + rewrite (proj1 Hb eq_refl). cbn [orb].
      split; [discriminate | intros [s Hs]; discriminate Hs].
Qed.

Lemma translate_newlines_no_cr (s : str) :
  ~ In 13 (translate_newlines s) /\ ~ In 13 (translate_newlines (tl s)).
Proof.
  induction s as [|c rest [IH IHtl]]; cbn [tl translate_newlines].
  - split; intros [].
  - split; [|exact IH].
    destruct (N.eqb_spec c 13) as [->|Hc].
    + destruct rest as [|d rest'].
      * intros [H|[]]. discriminate H.
      * cbn [tl] in IHtl. destruct (d =? 10).
        -- intros [H|H]; [discriminate H | now apply IHtl].
        -- intros [H|H]; [discriminate H | now apply IH].
    + intros [H|H]; [now apply Hc | now apply IH].
Qed.

(** The reader is a function of the content. *)
Lemma read_text_decoded (content : list byte) :
  exists text,
    decode (reported_encoding content) content = Some text
    /\ read_text content = translate_newlines text.
Proof.
  unfold read_text, reported_encoding.
  destruct (utf8_decode content) as [t|] eqn:Hutf.
  - exists t. cbn [decode]. rewrite Hutf. now split.
  - destruct (existsb cp1252_unassigned content) eqn:Hun.
    + exists (List.map Byte.to_N content). now split.
    + apply cp1252_decode_defined in Hun. destruct Hun as [s Hs].
      exists s. cbn [decode]. rewrite Hs. now split.
Qed.

Lemma read_file_with_encoding_eq (file_path : str) (content : list byte) :
  read_file_with_encoding file_path content
  = Return (read_text content, reported_encoding content).
Proof.
  unfold read_file_with_encoding, read_with, encodings, read_text,
    reported_encoding.
  cbn [try_encodings decode].
  destruct (utf8_decode content) as [t|] eqn:Hutf.
  - cbn [decode]. now rewrite Hutf.
  - destruct (existsb cp1252_unassigned content) eqn:Hun.
    + destruct (cp1252_decode content) as [s|] eqn:Hcp; [|reflexivity].
      assert (Hex : exists s, cp1252_decode content = Some s) by now exists s.
      apply cp1252_decode_defined in Hex. congruence.
    + apply cp1252_decode_defined in Hun. destruct Hun as [s Hs].
      cbn [decode]. now rewrite Hs.
Qed.

End ReaderEncodings.

(** X1.  The encoding the reader reports is decided by the content alone:
    utf-8 when the content is valid UTF-8; otherwise latin-1 when one of
    the five bytes code page 1252 leaves unassigned (81, 8D, 8F, 90, 9D)
    occurs in it, and windows-1252 when none does.  The text returned is
    the content decoded with that encoding, line ends translated. *)
Theorem reader_reports_encoding (file_path : str) (content : list byte) :
  exists text,
    decode (reported_encoding content) content = Some text
    /\ read_file_with_encoding file_path content
       = Return (translate_newlines text, reported_encoding content).
Proof.
  destruct (read_text_decoded content) as (t & Hdec & Htext).
  exists t. split; [exact Hdec|].
  now rewrite read_file_with_encoding_eq, Htext.
Qed.

(** X2.  Whatever the reader returns holds no carriage return: every
    CR LF pair and every lone CR of the file reaches the caller as one
    line feed. *)
Theorem reader_text_has_no_carriage_return (file_path : str)
    (content : list byte) (text : str) (enc : encoding) :
  read_file_with_encoding file_path content = Return (text, enc) ->
  ~ In 13 text.
Proof.
  rewrite read_file_with_encoding_eq. intros [= <- _].
  destruct (read_text_decoded content) as (t & _ & ->).
  apply (translate_newlines_no_cr t).
Qed.

Lemma reader_text_has_no_carriage_return_witness :
  read_file_with_encoding (lit "upload.md") [x41; x0d; x0a; x42; x0d]
  = Return ([65; 10; 66; 10], Utf8)
  /\ ~ In 13 [65; 10; 66; 10].
Proof.
  split; [reflexivity|].
  apply (reader_text_has_no_carriage_return (lit "upload.md")
           [x41; x0d; x0a; x42; x0d] [65; 10; 66; 10] Utf8).
  reflexivity.
Defined.

(* ------------------------------------------------------------------ *)
(** ** UTF-8 content is read without loss *)

Section Utf8Inverse.

Lemma byte_of_N_to_N (b : byte) : byte_of_N (Byte.to_N b) = b.
Proof. unfold byte_of_N. now rewrite Byte.of_to_N. Qed.

Lemma encode_two (n0 n1 : N) :
  194 <= n0 <= 223 -> 128 <= n1 <= 191 ->
  utf8_encode_cp ((n0 - 192) * 64 + (n1 - 128))
  = Some [byte_of_N n0; byte_of_N n1].
Proof.
  intros H0 H1. set (c := (n0 - 192) * 64 + (n1 - 128)).
  assert (Hd : c / 64 = n0 - 192)
    by (symmetry; apply (N.div_unique c 64 _ (n1 - 128)); unfold c; lia).
  assert (Hm : c mod 64 = n1 - 128)
    by (symmetry; apply (N.mod_unique c 64 (n0 - 192)); unfold c; lia).
  unfold utf8_encode_cp. rewrite Hd, Hm.
  destruct (N.ltb_spec c 128); [unfold c in *; lia|].
  destruct (N.ltb_spec c 2048); [|unfold c in *; lia].
  repeat f_equal; lia.
Qed.

Lemma encode_three (n0 n1 n2 : N) :
  224 <= n0 <= 239 -> 128 <= n1 <= 191 -> 128 <= n2 <= 191 ->
  (n0 = 224 -> 160 <= n1) -> (n0 = 237 -> n1 <= 159) ->
  utf8_encode_cp ((n0 - 224) * 4096 + (n1 - 128) * 64 + (n2 - 128))
  = Some [byte_of_N n0; byte_of_N n1; byte_of_N n2].
Proof.
  intros H0 H1 H2 Hlow Hsur.
  set (c := (n0 - 224) * 4096 + (n1 - 128) * 64 + (n2 - 128)).
  assert (Hd : c / 64 = (n0 - 224) * 64 + (n1 - 128))
    by (symmetry; apply (N.div_unique c 64 _ (n2 - 128)); unfold c; lia).
  assert (Hm : c mod 64 = n2 - 128)
    by (symmetry;
        apply (N.mod_unique c 64 ((n0 - 224) * 64 + (n1 - 128))); unfold c; lia).
  assert (Hm1 : ((n0 - 224) * 64 + (n1 - 128)) mod 64 = n1 - 128)
    by (symmetry; apply (N.mod_unique _ 64 (n0 - 224)); lia).
  assert (Hd2 : c / 4096 = n0 - 224)
    by (symmetry;
        apply (N.div_unique c 4096 _ ((n1 - 128) * 64 + (n2 - 128)));
        unfold c; lia).
  unfold utf8_encode_cp, is_surrogate. rewrite Hd, Hm, Hm1, Hd2.
  destruct (N.ltb_spec c 128); [unfold c in *; lia|].
  destruct (N.ltb_spec c 2048); [unfold c in *; lia|].
  destruct (N.ltb_spec c 65536); [|unfold c in *; lia].
  destruct (N.leb_spec 55296 c); destruct (N.leb_spec c 57343);
    cbn [andb]; try (unfold c in *; lia);
    (repeat f_equal; lia).
Qed.

Lemma encode_four (n0 n1 n2 n3 : N) :
  240 <= n0 <= 244 -> 128 <= n1 <= 191 -> 128 <= n2 <= 191 ->
  128 <= n3 <= 191 ->
  (n0 = 240 -> 144 <= n1) -> (n0 = 244 -> n1 <= 143) ->
  utf8_encode_cp ((n0 - 240) * 262144 + (n1 - 128) * 4096
                  + (n2 - 128) * 64 + (n3 - 128))
  = Some [byte_of_N n0; byte_of_N n1; byte_of_N n2; byte_of_N n3].
Proof.
  intros H0 H1 H2 H3 Hlow Hhigh.
  set (c := (n0 - 240) * 262144 + (n1 - 128) * 4096
            + (n2 - 128) * 64 + (n3 - 128)).
  assert (Hd : c / 64 = (n0 - 240) * 4096 + (n1 - 128) * 64 + (n2 - 128))
    by (symmetry; apply (N.div_unique c 64 _ (n3 - 128)); unfold c; lia).
  assert (Hm : c mod 64 = n3 - 128)
    by (symmetry;
        apply (N.mod_unique c 64
                 ((n0 - 240) * 4096 + (n1 - 128) * 64 + (n2 - 128)));
        unfold c; lia).
  assert (Hm1 : ((n0 - 240) * 4096 + (n1 - 128) * 64 + (n2 - 128)) mod 64
                = n2 - 128)
    by (symmetry;
        apply (N.mod_unique _ 64 ((n0 - 240) * 64 + (n1 - 128))); lia).
  assert (Hd2 : c / 4096 = (n0 - 240) * 64 + (n1 - 128))
    by (symmetry;
        apply (N.div_unique c 4096 _ ((n2 - 128) * 64 + (n3 - 128)));
        unfold c; lia).
  assert (Hm2 : ((n0 - 240) * 64 + (n1 - 128)) mod 64 = n1 - 128)
    by (symmetry; apply (N.mod_unique _ 64 (n0 - 240)); lia).
  assert (Hd3 : c / 262144 = n0 - 240)
    by (symmetry;
        apply (N.div_unique c 262144 _
                 ((n1 - 128) * 4096 + (n2 - 128) * 64 + (n3 - 128)));
        unfold c; lia).
  unfold utf8_encode_cp. rewrite Hd, Hm, Hm1, Hd2, Hm2, Hd3.
  destruct (N.ltb_spec c 128); [unfold c in *; lia|].
  destruct (N.ltb_spec c 2048); [unfold c in *; lia|].
  destruct (N.ltb_spec c 65536); [unfold c in *; lia|].
  destruct (N.ltb_spec c 1114112); [|unfold c in *; lia].
  repeat f_equal; lia.
Qed.

Lemma is_cont_bounds (n : N) : is_cont n = true -> 128 <= n <= 191.
Proof.
  unfold is_cont. intros H. apply andb_true_iff in H. destruct H as [H1 H2].
  apply N.leb_le in H1, H2. lia.
Qed.

Lemma range_bounds (lo hi n : N) :
  (lo <=? n) && (n <=? hi) = true -> lo <= n <= hi.
Proof.
  intros H. apply andb_true_iff in H. destruct H as [H1 H2].
  apply N.leb_le in H1, H2. lia.
Qed.

Lemma guard_low (n0 n1 k lo : N) :
  negb (n0 =? k) || (lo <=? n1) = true -> n0 = k -> lo <= n1.
Proof.
  intros H ->. rewrite N.eqb_refl in H. cbn [negb orb] in H.
  now apply N.leb_le.
Qed.

Lemma guard_high (n0 n1 k hi : N) :
  negb (n0 =? k) || (n1 <=? hi) = true -> n0 = k -> n1 <= hi.
Proof.
  intros H ->. rewrite N.eqb_refl in H. cbn [negb orb] in H.
  now apply N.leb_le.
Qed.

Lemma option_map_some {A B} (f : A -> B) (o : option A) (b : B) :
  option_map f o = Some b -> exists a, o = Some a /\ b = f a.
Proof. destruct o as [a|]; [intros [= <-]; now exists a | discriminate]. Qed.

(** Strict decoding has one preimage: the text encodes back to the very
    bytes it was decoded from. *)
Lemma utf8_encode_decode (n : nat) :
  forall (bs : list byte) (s : str),
    (List.length bs <= n)%nat ->
    utf8_decode bs = Some s -> encode_with utf8_encode_cp s = Some bs.
Proof.
  induction n as [|n IH]; intros bs s Hlen.
  - destruct bs; [|cbn in Hlen; lia]. now intros [= <-].
  - destruct bs as [|b0 r0]; [now intros [= <-]|].
    cbn [utf8_decode]. cbn [List.length] in Hlen.
    destruct (Byte.to_N b0 <? 128) eqn:T1.
    { intros H. apply option_map_some in H. destruct H as (s' & Hs' & ->).
      apply IH in Hs'; [|lia]. cbn [encode_with].
      unfold utf8_encode_cp at 1. rewrite T1, Hs'. cbn [app].
      now rewrite byte_of_N_to_N. }
    destruct ((194 <=? Byte.to_N b0) && (Byte.to_N b0 <=? 223)) eqn:T2.
    { destruct r0 as [|b1 r1]; [discriminate|].
      destruct (is_cont (Byte.to_N b1)) eqn:C1; [|discriminate].
      intros H. apply option_map_some in H. destruct H as (s' & Hs' & ->).
      cbn [List.length] in Hlen. apply IH in Hs'; [|lia]. cbn [encode_with].
      rewrite encode_two, Hs';
        [|now apply range_bounds | now apply is_cont_bounds].
      cbn [app]. now rewrite !byte_of_N_to_N. }
    destruct ((224 <=? Byte.to_N b0) && (Byte.to_N b0 <=? 239)) eqn:T3.
    { destruct r0 as [|b1 [|b2 r2]]; try discriminate.
      destruct (is_cont (Byte.to_N b1)) eqn:C1; [|discriminate].
      destruct (is_cont (Byte.to_N b2)) eqn:C2; [|discriminate].
      cbn [andb].
      destruct (negb (Byte.to_N b0 =? 224) || (160 <=? Byte.to_N b1)) eqn:G1;
        [|discriminate].
      destruct (negb (Byte.to_N b0 =? 237) || (Byte.to_N b1 <=? 159)) eqn:G2;
        [|discriminate].
      cbn [andb].
      intros H. apply option_map_some in H. destruct H as (s' & Hs' & ->).
      cbn [List.length] in Hlen. apply IH in Hs'; [|lia]. cbn [encode_with].
      rewrite encode_three, Hs';
        [| now apply range_bounds | now apply is_cont_bounds
         | now apply is_cont_bounds | now apply guard_low
         | now apply guard_high].
      cbn [app]. now rewrite !byte_of_N_to_N. }
    destruct ((240 <=? Byte.to_N b0) && (Byte.to_N b0 <=? 244)) eqn:T4;
      [|discriminate].
    destruct r0 as [|b1 [|b2 [|b3 r3]]]; try discriminate.
    destruct (is_cont (Byte.to_N b1)) eqn:C1; [|discriminate].
    destruct (is_cont (Byte.to_N b2)) eqn:C2; [|discriminate].
    destruct (is_cont (Byte.to_N b3)) eqn:C3; [|discriminate].
    cbn [andb].
    destruct (negb (Byte.to_N b0 =? 240) || (144 <=? Byte.to_N b1)) eqn:G1;
      [|discriminate].
    destruct (negb (Byte.to_N b0 =? 244) || (Byte.to_N b1 <=? 143)) eqn:G2;
      [|discriminate].
    cbn [andb].
    intros H. apply option_map_some in H. destruct H as (s' & Hs' & ->).
    cbn [List.length] in Hlen. apply IH in Hs'; [|lia]. cbn [encode_with].
    rewrite encode_four, Hs';
      [| now apply range_bounds | now apply is_cont_bounds
       | now apply is_cont_bounds | now apply is_cont_bounds
       | now apply guard_low | now apply guard_high].
    cbn [app]. now rewrite !byte_of_N_to_N.
Qed.

Lemma encode_with_mentions (f : N -> option (list byte)) (c : N) (b : byte) :
  f c = Some [b] ->
  forall (s : str) (bs : list byte),
    encode_with f s = Some bs -> In c s -> In b bs.
Proof.
  intros Hc. induction s as [|d s IH]; intros bs; cbn [encode_with].
  - intros _ [].
  - destruct (f d) as [db|] eqn:Hd; [|discriminate].
    destruct (encode_with f s) as [rest|]; [|discriminate].
    intros [= <-] [->|Hin].
    + rewrite Hc in Hd. injection Hd as <-. now left.
    + apply in_or_app. right. now apply IH.
Qed.

End Utf8Inverse.

(** X3.  Reading loses nothing of a UTF-8 file that has no carriage
    return: when the reader reports utf-8, the bytes of the file are
    exactly the UTF-8 encoding of the text it returned. *)
Theorem reader_utf8_lossless (file_path : str) (content : list byte)
    (text : str) :
  read_file_with_encoding file_path content = Return (text, Utf8) ->
  ~ In x0d content ->
  encode Utf8 text = Some content.
Proof.
  intros Hread Hcr.
  rewrite read_file_with_encoding_eq in Hread. injection Hread as <- Henc.
  destruct (read_text_decoded content) as (t & Ht & ->).
  rewrite Henc in Ht. cbn [decode] in Ht.
  apply (utf8_encode_decode (List.length content)) in Ht; [|lia].
  cbn [encode]. rewrite translate_newlines_id; [exact Ht|].
  intros Hin. apply Hcr.
  now apply (encode_with_mentions utf8_encode_cp 13 x0d eq_refl t content).
Qed.

Lemma reader_utf8_lossless_witness :
  read_file_with_encoding (lit "upload.md") [xc3; xa9; x0a; xe2; x82; xac]
  = Return ([233; 10; 8364], Utf8)
  /\ encode Utf8 [233; 10; 8364] = Some [xc3; xa9; x0a; xe2; x82; xac].
Proof.
  split; [reflexivity|].
  apply (reader_utf8_lossless (lit "upload.md")
           [xc3; xa9; x0a; xe2; x82; xac] [233; 10; 8364]).
  - reflexivity.
  - intros H. repeat (destruct H as [H|H]; [discriminate H|]). exact H.
Defined.

(* ------------------------------------------------------------------ *)
(** ** More on [split], [strip] and the splitter *)

Section SplitPieces.

Variable sep : str.
Hypothesis sep_nonempty : sep <> [].

Lemma sep_length : (0 < List.length sep)%nat.
Proof.
  destruct (List.length sep) eqn:H; [|lia].
  apply length_zero_iff_nil in H. contradiction.
Qed.

Lemma first_piece_free (s pre post : str) :
  FirstOcc sep s pre post -> NoOcc sep pre.
Proof.
  intros [Heq Hmin] a b ->.
  specialize (Hmin a (b ++ sep ++ post)).
  rewrite <- !app_assoc in Heq. specialize (Hmin Heq).
  rewrite !length_app in Hmin. pose proof sep_length. lia.
Qed.

Lemma split_join_bounded (n : nat) :
  forall s, (List.length s <= n)%nat ->
            join sep (split sep s) = s /\ Forall (NoOcc sep) (split sep s).
Proof.
  induction n as [|n IH]; intros s Hlen; rewrite (split_partition sep sep_nonempty);
    destruct (partition sep s) as [[pre post]|] eqn:Hp.
  - apply partition_some in Hp. destruct Hp as [-> _].
    rewrite !length_app in Hlen. pose proof sep_length. lia.
  - split; [reflexivity|]. constructor; [now apply partition_none | constructor].
  - apply partition_some in Hp. pose proof Hp as [Heq _].
    assert (Hpost : (List.length post <= n)%nat).
    { rewrite Heq, !length_app in Hlen. pose proof sep_length. lia. }
    destruct (IH post Hpost) as [Hjoin Hfree].
    destruct (split_head sep sep_nonempty post) as [rest Hrest].
    split.
    + rewrite Hrest in *. cbn [join]. cbn [join] in Hjoin.
      now rewrite Hjoin.
    + constructor; [now apply first_piece_free with s post | exact Hfree].
  - split; [reflexivity|]. constructor; [now apply partition_none | constructor].
Qed.

End SplitPieces.

Section StripFacts.

Lemma lstrip_head (s : str) (c : N) (t : str) :
  lstrip s = c :: t -> isspace c = false.
Proof.
  induction s as [|d s IH]; cbn [lstrip]; [discriminate|].
  destruct (isspace d) eqn:Hd; [exact IH|]. now intros [= <- _].
Qed.

Lemma lstrip_fixed (s : str) :
  (forall c t, s = c :: t -> isspace c = false) -> lstrip s = s.
Proof.
  destruct s as [|c t]; [reflexivity|]. intros H. cbn [lstrip].
  now rewrite (H c t eq_refl).
Qed.

Lemma rstrip_last (s t : str) (c : N) :
  rstrip s = t ++ [c] -> isspace c = false.
Proof.
  unfold rstrip. intros H. apply (f_equal (@rev N)) in H.
  rewrite rev_involutive, rev_app_distr in H. cbn [rev app] in H.
  now apply lstrip_head in H.
Qed.

Lemma rstrip_fixed (s : str) :
  (forall t c, s = t ++ [c] -> isspace c = false) -> rstrip s = s.
Proof.
  intros H. unfold rstrip. rewrite lstrip_fixed; [apply rev_involutive|].
  intros c t Hrev. apply (H (rev t) c).
  rewrite <- (rev_involutive s), Hrev. reflexivity.
Qed.

Lemma strip_head (s : str) (c : N) (t : str) :
  strip s = c :: t -> isspace c = false.
Proof.
  unfold strip. intros H.
  destruct (rstrip_spaces (lstrip s)) as (sp & Heq & _).
  rewrite H in Heq. cbn [app] in Heq. now apply lstrip_head in Heq.
Qed.

Lemma strip_last (s t : str) (c : N) :
  strip s = t ++ [c] -> isspace c = false.
Proof. unfold strip. apply rstrip_last. Qed.

Lemma strip_idempotent (s : str) : strip (strip s) = strip s.
Proof.
  unfold strip at 1. rewrite (lstrip_fixed (strip s)).
  - apply rstrip_fixed. intros t c. apply strip_last.
  - intros c t. apply strip_head.
Qed.

End StripFacts.

(** X4.  When the answer closes its fence and the text between the marker
    and the fence is a JSON document as it stands, that document is the
    enhanced document, and the report is the stripped text before the
    marker: stripping the slice never spoils a document that parses. *)
Theorem fenced_document_is_returned (text : str) (json_data : json)
    (pre rest body post : str) (v : json) :
  FirstOcc json_marker text pre rest ->
  FirstOcc fence rest body post ->
  (forall post', post <> 96 :: post') ->
  json_loads body = Some v ->
  split_response text json_data = Return (strip pre, v).
Proof.
  intros Hmarker Hfence Hpost Hloads.
  rewrite split_response_eq.
  rewrite (partition_first_occ json_marker text pre rest Hmarker).
  rewrite (candidate_closed rest body post Hfence
             (fun p => Hpost (lit "json" ++ p))
             (fun p => Hpost (lit "`json" ++ p))).
  now rewrite (json_loads_strip body v Hloads).
Qed.

Lemma fenced_document_is_returned_witness :
  split_response
    (lit "Report " ++ json_marker ++ newline ++ lit "[1, 2] " ++ fence
     ++ lit " end")
    JNull
  = Return (strip (lit "Report "), JList [JInt 1; JInt 2]).
Proof.
  apply (fenced_document_is_returned _ JNull (lit "Report ")
           (newline ++ lit "[1, 2] " ++ fence ++ lit " end")
           (newline ++ lit "[1, 2] ") (lit " end")).
  - apply partition_some. reflexivity.
  - apply partition_some. reflexivity.
  - intros post' H. discriminate H.
  - reflexivity.
Defined.

(** X5.  Cutting a text at a non-empty separator loses nothing: joining
    the pieces of [split] with the separator gives the text back, and no
    piece holds the separator. *)
Theorem split_join_round_trip (sep s : str) :
  sep <> [] ->
  join sep (split sep s) = s /\ Forall (NoOcc sep) (split sep s).
Proof.
  intros Hsep. now apply (split_join_bounded sep Hsep (List.length s)).
Qed.

Lemma split_join_round_trip_witness :
  join json_marker (split json_marker (lit "a```json{}```jsonb"))
  = lit "a```json{}```jsonb"
  /\ Forall (NoOcc json_marker) (split json_marker (lit "a```json{}```jsonb")).
Proof.
  apply (split_join_round_trip json_marker (lit "a```json{}```jsonb")).
  discriminate.
Defined.

(** X6.  When the answer holds the marker, the report part comes out
    trimmed: it neither begins nor ends with a character [strip] removes,
    and stripping it again changes nothing. *)
Theorem report_is_trimmed (text : str) (json_data : json) (md : str)
    (doc : json) :
  contains json_marker text = true ->
  split_response text json_data = Return (md, doc) ->
  strip md = md
  /\ (forall c t, md = c :: t -> isspace c = false)
  /\ (forall t c, md = t ++ [c] -> isspace c = false).
Proof.
  intros Hin. rewrite split_response_eq.
  destruct (partition json_marker text) as [[pre rest]|] eqn:Hp.
  - intros [= <- _]. split; [apply strip_idempotent|]. split.
    + intros c t. apply strip_head.
    + intros t c. apply strip_last.
  - apply partition_none in Hp. apply contains_spec in Hin.
    destruct Hin as (a & b & Heq). now apply Hp in Heq.
Qed.

Lemma report_is_trimmed_witness :
  split_response (lit "  Report " ++ newline ++ json_marker ++ lit "{}") JNull
  = Return (lit "Report", JDict [])
  /\ strip (lit "Report") = lit "Report"
  /\ (forall c t, lit "Report" = c :: t -> isspace c = false)
  /\ (forall t c, lit "Report" = t ++ [c] -> isspace c = false).
Proof.
  split; [reflexivity|].
  apply (report_is_trimmed (lit "  Report " ++ newline ++ json_marker ++ lit "{}")
           JNull (lit "Report") (JDict [])); reflexivity.
Defined.

(* ------------------------------------------------------------------ *)
(** ** More on the API client *)

Section TraceFacts.

Lemma posts_app (tr tr' : list event) : posts (tr ++ tr') = posts tr ++ posts tr'.
Proof. unfold posts. apply flat_map_app. Qed.

Lemma posts_none (tr : list event) : none_of is_http tr -> posts tr = [].
Proof.
  unfold none_of. induction tr as [|ev tr IH]; [reflexivity|].
  cbn [existsb]. intros H. apply orb_false_iff in H. destruct H as [Hev Htr].
  destruct ev; try discriminate Hev; cbn; now apply IH.
Qed.

Lemma mbind_lift_return {A B} (a : A) (k : A -> M B) :
  mbind (lift (Return a)) k = k a.
Proof. unfold mbind, lift. now destruct (k a). Qed.

Lemma posts_mbind_log {B} (lg : option logger) (lv : level) (msg : list piece)
    (k : unit -> M B) :
  posts (fst (mbind (log lg lv msg) k)) = posts (fst (k tt)).
Proof.
  rewrite fst_mbind, snd_log, posts_app. now destruct lg.
Qed.

Lemma snd_mbind_log {B} (lg : option logger) (lv : level) (msg : list piece)
    (k : unit -> M B) :
  snd (mbind (log lg lv msg) k) = snd (k tt).
Proof. now rewrite snd_mbind, snd_log. Qed.

Lemma snd_api_failure {A} (lg : option logger) (prefix detail : str) :
  snd (@api_failure A lg prefix detail)
  = Raise (Exn PlainException (prefix ++ detail)).
Proof. unfold api_failure. now rewrite snd_mbind_log. Qed.

Lemma none_of_log_quiet (p : event -> bool) (lg : option logger) (lv : level)
    (msg : list piece) :
  quiet p lg -> none_of p (fst (log lg lv msg)).
Proof.
  intros [-> | Hlog]; [reflexivity | now apply none_of_log].
Qed.

Lemma none_of_emit (p : event -> bool) (ev : event) :
  p ev = false -> none_of p (fst (emit ev)).
Proof. intros H. unfold none_of. cbn. now rewrite H. Qed.

Lemma none_of_api_failure {A} (p : event -> bool) (lg : option logger)
    (prefix detail : str) :
  quiet p lg ->
  none_of p (fst (@api_failure A lg prefix detail)).
Proof.
  intros Hlog. unfold api_failure.
  apply none_of_mbind; [now apply none_of_log_quiet | reflexivity].
Qed.

Lemma none_of_log_with {A} (p : event -> bool) (lg : option logger)
    (lv : level) (arg : result A) (msg : A -> list piece) :
  quiet p lg ->
  none_of p (fst (log_with lg lv arg msg)).
Proof.
  intros [-> | Hlog]; [reflexivity|]. destruct lg; [|reflexivity].
  cbn [log_with].
  apply none_of_mbind; [apply none_of_lift | intros a _].
  now apply none_of_emit.
Qed.

Lemma none_of_log_unguarded {A} (p : event -> bool) (lg : option logger)
    (lv : level) (arg : result A) (msg : A -> list piece) :
  quiet p lg ->
  none_of p (fst (log_unguarded lg lv arg msg)).
Proof.
  intros [-> | Hlog]; [reflexivity|]. destruct lg; [|reflexivity].
  cbn [log_unguarded].
  apply none_of_mbind; [apply none_of_lift | intros a _].
  now apply none_of_emit.
Qed.

Lemma status_is_error (n : N) :
  400 <= n < 600 -> (400 <=? n) && (n <? 600) = true.
Proof.
  intros [H1 H2]. apply andb_true_iff.
  split; [now apply N.leb_le | now apply N.ltb_lt].
Qed.

Lemma status_is_no_error (n : N) :
  n < 400 \/ 600 <= n -> (400 <=? n) && (n <? 600) = false.
Proof.
  intros H. apply andb_false_iff.
  destruct H as [H|H]; [left; apply N.leb_gt | right; apply N.ltb_ge]; exact H.
Qed.

End TraceFacts.

Section ClientFacts.

Variables (E : env) (c : config) (prompt : str) (lg : option logger).

(** What the client does once the request has been posted. *)
Lemma none_of_after_post (p : event -> bool) (outcome : post_outcome) :
  quiet p lg ->
  none_of p
    (fst (match outcome with
          | PostRaises detail => api_failure lg (lit "API request failed: ") detail
          | PostReturns response =>
              log lg INFO [Text (lit "API Response Status: ");
                           Shown (JInt (Z.of_N (status_code response)))] ;;;
              if (400 <=? status_code response) && (status_code response <? 600)
              then api_failure lg (lit "API request failed: ")
                     (status_detail response)
              else
                match body response with
                | BodyRequestError detail =>
                    api_failure lg (lit "API request failed: ") detail
                | BodyJsonError detail =>
                    api_failure lg (lit "Failed to parse API response: ") detail
                | BodyJson result =>
                    log lg DEBUG [Text (lit "=== API RESPONSE START ===")] ;;;
                    log lg DEBUG [Shown result] ;;;
                    log lg DEBUG [Text (lit "=== API RESPONSE END ===")] ;;;
                    ok <- lift (has_choices result) ;;
                    if ok then
                      content <- lift (extract_content result) ;;
                      log_with lg INFO (py_len content)
                        (fun n => [Text (lit "Successfully received response (");
                                   Count n; Text (lit " characters)")]) ;;;
                      ret content
                    else
                      log lg ERROR [Text unexpected_format] ;;;
                      raise (Exn ValueError unexpected_format)
                end
          end : M json)).
Proof.
  intros Hlog. destruct outcome as [detail|response].
  - now apply none_of_api_failure.
  - apply none_of_mbind; [now apply none_of_log_quiet | intros _ _].
    destruct ((400 <=? status_code response) && (status_code response <? 600)).
    + now apply none_of_api_failure.
    + destruct (body response) as [result|detail|detail];
        try now apply none_of_api_failure.
      do 3 (apply none_of_mbind; [now apply none_of_log_quiet | intros _ _]).
      apply none_of_mbind; [apply none_of_lift | intros ok _].
      destruct ok.
      * apply none_of_mbind; [apply none_of_lift | intros content _].
        apply none_of_mbind; [now apply none_of_log_with | reflexivity].
      * apply none_of_mbind; [now apply none_of_log_quiet | reflexivity].
Qed.

(** The log lines and the look-ups of the client raise no event but log
    lines; the one request is the only other event. *)
Lemma client_events (p : event -> bool) :
  quiet p lg ->
  (forall r, p (HttpPost r) = false) ->
  none_of p (fst (call_abacus_api E c prompt lg)).
Proof.
  intros Hlog Hpost. unfold call_abacus_api.
  do 8 (apply none_of_mbind; [now apply none_of_log_quiet | intros _ _]).
  destruct (truthy (config_get c (lit "just_log_prompts") (JBool false))).
  - do 2 (apply none_of_mbind; [now apply none_of_log_quiet | intros _ _]).
    reflexivity.
  - apply none_of_mbind; [apply none_of_lift | intros key _].
    apply none_of_mbind; [now apply none_of_log_quiet | intros _ _].
    apply none_of_mbind; [apply none_of_lift | intros url _].
    apply none_of_mbind; [now apply none_of_emit | intros _ _].
    now apply none_of_after_post.
Qed.

Hypothesis live_mode :
  truthy (config_get c (lit "just_log_prompts") (JBool false)) = false.

Lemma posts_without_key :
  dict_lookup (lit "abacus_api_key") c = None ->
  snd (call_abacus_api E c prompt lg)
  = Raise (Exn KeyError (lit "'abacus_api_key'"))
  /\ posts (fst (call_abacus_api E c prompt lg)) = [].
Proof.
  intros Hkey. unfold call_abacus_api. rewrite live_mode.
  rewrite !snd_mbind_log, !posts_mbind_log.
  unfold config_item. rewrite Hkey. split; reflexivity.
Qed.

Variable key : json.
Hypothesis has_key : dict_lookup (lit "abacus_api_key") c = Some key.

Lemma posts_without_url :
  dict_lookup (lit "abacus_api_url") c = None ->
  snd (call_abacus_api E c prompt lg)
  = Raise (Exn KeyError (lit "'abacus_api_url'"))
  /\ posts (fst (call_abacus_api E c prompt lg)) = [].
Proof.
  intros Hurl. unfold call_abacus_api. rewrite live_mode.
  rewrite !snd_mbind_log, !posts_mbind_log.
  unfold config_item. rewrite has_key, !mbind_lift_return.
  rewrite !snd_mbind_log, !posts_mbind_log.
  rewrite Hurl. split; reflexivity.
Qed.

Variable url : json.
Hypothesis has_url : dict_lookup (lit "abacus_api_url") c = Some url.

Lemma posts_with_credentials :
  posts (fst (call_abacus_api E c prompt lg)) = [request_for c prompt key url].
Proof.
  unfold call_abacus_api. rewrite live_mode.
  rewrite !posts_mbind_log.
  unfold config_item. rewrite has_key, !mbind_lift_return.
  rewrite !posts_mbind_log.
  rewrite has_url, !mbind_lift_return.
  rewrite fst_mbind, posts_app. cbn [fst snd emit posts flat_map app].
  rewrite posts_none; [reflexivity|].
  apply none_of_after_post. now right.
Qed.

(** The client's result in terms of what the post gave. *)
Lemma client_after_post :
  snd (call_abacus_api E c prompt lg)
  = match post E (request_for c prompt key url) with
    | PostRaises detail =>
        Raise (Exn PlainException (lit "API request failed: " ++ detail))
    | PostReturns response =>
        if (400 <=? status_code response) && (status_code response <? 600)
        then Raise (Exn PlainException
                      (lit "API request failed: " ++ status_detail response))
        else
          match body response with
          | BodyRequestError detail =>
              Raise (Exn PlainException (lit "API request failed: " ++ detail))
          | BodyJsonError detail =>
              Raise (Exn PlainException
                       (lit "Failed to parse API response: " ++ detail))
          | BodyJson reply =>
              match has_choices reply with
              | Return true =>
                  match extract_content reply with
                  | Return content =>
                      match lg with
                      | Some _ => Py.bind (py_len content) (fun _ => Return content)
                      | None => Return content
                      end
                  | Raise e => Raise e
                  end
              | Return false => Raise (Exn ValueError unexpected_format)
              | Raise e => Raise e
              end
          end
    end.
Proof.
  unfold call_abacus_api. rewrite live_mode.
  rewrite !snd_mbind_log.
  unfold config_item. rewrite has_key, !mbind_lift_return.
  rewrite !snd_mbind_log.
  rewrite has_url, !mbind_lift_return.
  rewrite snd_mbind. cbn [snd emit]. unfold request_for.
  destruct (post E _) as [detail|response].
  - apply snd_api_failure.
  - rewrite snd_mbind_log.
    destruct ((400 <=? status_code response) && (status_code response <? 600)).
    + apply snd_api_failure.
    + destruct (body response) as [reply|detail|detail];
        try apply snd_api_failure.
      rewrite !snd_mbind_log. rewrite snd_mbind. cbn [snd lift].
      destruct (has_choices reply) as [[|]|e]; [| |reflexivity].
      * rewrite snd_mbind. cbn [snd lift].
        destruct (extract_content reply) as [content|e]; [|reflexivity].
        rewrite snd_mbind. destruct lg as [l|]; cbn [log_with snd ret].
        -- rewrite snd_mbind. cbn [snd lift Py.bind].
           now destruct (py_len content).
        -- reflexivity.
      * rewrite snd_mbind_log. reflexivity.
Qed.

End ClientFacts.

(** X7.  Outside prompt-only mode, with both credentials configured, a
    call posts exactly one request, whatever the server does: the URL and
    key of the configuration, the prompt as the single user message, the
    model, [max_tokens] and [temperature] of the configuration or their
    defaults, and the configured timeout or 300.  There is no second
    attempt. *)
Theorem live_call_posts_once (E : env) (c : config) (prompt : str)
    (lg : option logger) (key url : json) :
  truthy (config_get c (lit "just_log_prompts") (JBool false)) = false ->
  dict_lookup (lit "abacus_api_key") c = Some key ->
  dict_lookup (lit "abacus_api_url") c = Some url ->
  posts (fst (call_abacus_api E c prompt lg)) = [request_for c prompt key url].
Proof. intros. now apply posts_with_credentials. Qed.

Lemma live_call_posts_once_witness :
  posts (fst (call_abacus_api sample_env live_config (lit "prompt")
                (Some Logger)))
  = [ {| req_url := JStr (lit "https://api.example/v1/chat");
         req_authorization := JStr (lit "secret");
         req_payload :=
           JDict [(lit "model", JStr (lit "claude-sonnet-4"));
                  (lit "messages",
                   JList [JDict [(lit "role", JStr (lit "user"));
                                 (lit "content", JStr (lit "prompt"))]]);
                  (lit "max_tokens", JInt 4000);
                  (lit "temperature", JFloat (lit "0.1"))];
         req_timeout := JInt 300 |} ].
Proof.
  apply (live_call_posts_once sample_env live_config (lit "prompt")
           (Some Logger) (JStr (lit "secret"))
           (JStr (lit "https://api.example/v1/chat"))); reflexivity.
Defined.

(** X8.  Outside prompt-only mode a configuration without
    [abacus_api_key] makes the call raise [KeyError] for that key; with
    the key but without [abacus_api_url] it raises [KeyError] for the
    URL.  In both cases nothing is posted. *)
Theorem missing_credentials_raise (E : env) (c : config) (prompt : str)
    (lg : option logger) :
  truthy (config_get c (lit "just_log_prompts") (JBool false)) = false ->
  (dict_lookup (lit "abacus_api_key") c = None ->
   snd (call_abacus_api E c prompt lg)
   = Raise (Exn KeyError (lit "'abacus_api_key'"))
   /\ posts (fst (call_abacus_api E c prompt lg)) = [])
  /\ (forall key,
         dict_lookup (lit "abacus_api_key") c = Some key ->
         dict_lookup (lit "abacus_api_url") c = None ->
         snd (call_abacus_api E c prompt lg)
         = Raise (Exn KeyError (lit "'abacus_api_url'"))
         /\ posts (fst (call_abacus_api E c prompt lg)) = []).
Proof.
  intros Hlive. split.
  - now apply posts_without_key.
  - intros key. now apply posts_without_url.
Qed.

Lemma missing_credentials_raise_witness :
  (snd (call_abacus_api sample_env [(lit "model", JStr (lit "m"))]
          (lit "prompt") None)
   = Raise (Exn KeyError (lit "'abacus_api_key'"))
   /\ posts (fst (call_abacus_api sample_env [(lit "model", JStr (lit "m"))]
                    (lit "prompt") None)) = [])
  /\ (snd (call_abacus_api sample_env [(lit "abacus_api_key", JStr (lit "k"))]
             (lit "prompt") None)
      = Raise (Exn KeyError (lit "'abacus_api_url'"))
      /\ posts (fst (call_abacus_api sample_env
                       [(lit "abacus_api_key", JStr (lit "k"))]
                       (lit "prompt") None)) = []).
Proof.
  split.
  - apply (missing_credentials_raise sample_env [(lit "model", JStr (lit "m"))]
             (lit "prompt") None); reflexivity.
  - apply (proj2 (missing_credentials_raise sample_env
                    [(lit "abacus_api_key", JStr (lit "k"))]
                    (lit "prompt") None eq_refl) (JStr (lit "k")));
      reflexivity.
Defined.

(** X9.  Every failure of the transport comes out of the client as a
    plain [Exception] whose message names the cause.  A post that raises,
    a status from 400 to 599 and a body whose decoding raises a
    [RequestException] give [API request failed: ...]: the first
    [except] clause catches them, and with requests 2.27 or later the
    error of a body that is not JSON is such a [RequestException].  Only
    a [json.JSONDecodeError] that is no [RequestException], as older
    versions of requests raise it, reaches the second clause and gives
    [Failed to parse API response: ...].  The logger makes no
    difference. *)
Theorem transport_failure_is_plain_exception (E : env) (c : config)
    (prompt : str) (lg : option logger) (key url : json) :
  truthy (config_get c (lit "just_log_prompts") (JBool false)) = false ->
  dict_lookup (lit "abacus_api_key") c = Some key ->
  dict_lookup (lit "abacus_api_url") c = Some url ->
  (forall detail,
      post E (request_for c prompt key url) = PostRaises detail ->
      snd (call_abacus_api E c prompt lg)
      = Raise (Exn PlainException (lit "API request failed: " ++ detail)))
  /\ (forall response,
         post E (request_for c prompt key url) = PostReturns response ->
         (400 <= status_code response < 600 ->
          snd (call_abacus_api E c prompt lg)
          = Raise (Exn PlainException
                     (lit "API request failed: " ++ status_detail response)))
         /\ (status_code response < 400 \/ 600 <= status_code response ->
             (forall detail,
                 body response = BodyRequestError detail ->
                 snd (call_abacus_api E c prompt lg)
                 = Raise (Exn PlainException
                            (lit "API request failed: " ++ detail)))
             /\ (forall detail,
                    body response = BodyJsonError detail ->
                    snd (call_abacus_api E c prompt lg)
                    = Raise (Exn PlainException
                               (lit "Failed to parse API response: "
                                ++ detail))))).
Proof.
  intros Hlive Hkey Hurl.
  rewrite (client_after_post E c prompt lg Hlive key Hkey url Hurl).
  split.
  - now intros detail ->.
  - intros response ->. split.
    + intros Hst. now rewrite (status_is_error _ Hst).
    + intros Hst. rewrite (status_is_no_error _ Hst).
      split; now intros detail ->.
Qed.

Lemma transport_failure_is_plain_exception_witness :
  snd (call_abacus_api sample_env live_config (lit "prompt") None)
  = Raise (Exn PlainException (lit "API request failed: connection refused")).
Proof.
  apply (proj1 (transport_failure_is_plain_exception sample_env live_config
                  (lit "prompt") None (JStr (lit "secret"))
                  (JStr (lit "https://api.example/v1/chat"))
                  eq_refl eq_refl eq_refl)).
  reflexivity.
Defined.

(** X10.  A reply with a status outside 400 to 599 whose first choice
    carries a message with a string as content makes the client return
    that string, with or without a logger, whatever else the reply
    holds. *)
Theorem well_formed_reply_is_returned (E : env) (c : config) (prompt : str)
    (lg : option logger) (key url : json) (response : http_response)
    (reply first message : list (str * json)) (others : list json)
    (content : str) :
  truthy (config_get c (lit "just_log_prompts") (JBool false)) = false ->
  dict_lookup (lit "abacus_api_key") c = Some key ->
  dict_lookup (lit "abacus_api_url") c = Some url ->
  post E (request_for c prompt key url) = PostReturns response ->
  status_code response < 400 \/ 600 <= status_code response ->
  body response = BodyJson (JDict reply) ->
  dict_lookup (lit "choices") reply = Some (JList (JDict first :: others)) ->
  dict_lookup (lit "message") first = Some (JDict message) ->
  dict_lookup (lit "content") message = Some (JStr content) ->
  snd (call_abacus_api E c prompt lg) = Return (JStr content).
Proof.
  intros Hlive Hkey Hurl Hpost Hst Hbody Hchoices Hmessage Hcontent.
  rewrite (client_after_post E c prompt lg Hlive key Hkey url Hurl).
  rewrite Hpost, (status_is_no_error _ Hst), Hbody.
  unfold has_choices, extract_content, py_contains, py_getitem.
  rewrite Hchoices. cbn [Py.bind py_len py_first List.length Nat.ltb Nat.leb].
  rewrite Hmessage. cbn [Py.bind]. rewrite Hcontent.
  now destruct lg.
Qed.

Lemma well_formed_reply_is_returned_witness :
  snd (call_abacus_api
         (replying_env {| status_code := 200; status_detail := [];
                          body := BodyJson (reply_with (JStr (lit "# Report"))) |})
         live_config (lit "prompt") (Some Logger))
  = Return (JStr (lit "# Report")).
Proof.
  apply (well_formed_reply_is_returned _ live_config (lit "prompt")
           (Some Logger) (JStr (lit "secret"))
           (JStr (lit "https://api.example/v1/chat"))
           {| status_code := 200; status_detail := [];
              body := BodyJson (reply_with (JStr (lit "# Report"))) |}
           [(lit "choices",
             JList [JDict [(lit "message",
                            JDict [(lit "content", JStr (lit "# Report"))])]])]
           [(lit "message", JDict [(lit "content", JStr (lit "# Report"))])]
           [(lit "content", JStr (lit "# Report"))] [] (lit "# Report"));
    try reflexivity.
  left. reflexivity.
Defined.

(** X11.  A reply that parses but has no [choices] entry, or an empty
    list of choices, makes the client raise [ValueError] with the message
    [Unexpected API response format]. *)
Theorem reply_without_choices_is_rejected (E : env) (c : config)
    (prompt : str) (lg : option logger) (key url : json)
    (response : http_response) (reply : list (str * json)) :
  truthy (config_get c (lit "just_log_prompts") (JBool false)) = false ->
  dict_lookup (lit "abacus_api_key") c = Some key ->
  dict_lookup (lit "abacus_api_url") c = Some url ->
  post E (request_for c prompt key url) = PostReturns response ->
  status_code response < 400 \/ 600 <= status_code response ->
  body response = BodyJson (JDict reply) ->
  dict_lookup (lit "choices") reply = None
  \/ dict_lookup (lit "choices") reply = Some (JList []) ->
  snd (call_abacus_api E c prompt lg)
  = Raise (Exn ValueError (lit "Unexpected API response format")).
Proof.
  intros Hlive Hkey Hurl Hpost Hst Hbody Hchoices.
  rewrite (client_after_post E c prompt lg Hlive key Hkey url Hurl).
  rewrite Hpost, (status_is_no_error _ Hst), Hbody.
  unfold has_choices, py_contains, py_getitem.
  destruct Hchoices as [-> | ->]; reflexivity.
Qed.

Lemma reply_without_choices_is_rejected_witness :
  snd (call_abacus_api
         (replying_env {| status_code := 200; status_detail := [];
                          body := BodyJson (JDict [(lit "choices", JList [])]) |})
         live_config (lit "prompt") None)
  = Raise (Exn ValueError (lit "Unexpected API response format")).
Proof.
  apply (reply_without_choices_is_rejected _ live_config (lit "prompt") None
           (JStr (lit "secret")) (JStr (lit "https://api.example/v1/chat"))
           {| status_code := 200; status_detail := [];
              body := BodyJson (JDict [(lit "choices", JList [])]) |}
           [(lit "choices", JList [])]);
    try reflexivity.
  - left. reflexivity.
  - right. reflexivity.
Defined.

(* ------------------------------------------------------------------ *)
(** ** The request, stage by stage *)

Section MonadSteps.

Lemma snd_mbind_bind {A B} (m : M A) (k : A -> M B) :
  snd (mbind m k) = Py.bind (snd m) (fun a => snd (k a)).
Proof. rewrite snd_mbind. reflexivity. Qed.

Lemma snd_mbind_emit {B} (ev : event) (k : unit -> M B) :
  snd (mbind (emit ev) k) = snd (k tt).
Proof. now rewrite snd_mbind. Qed.

Lemma snd_log_with {A} (lg : option logger) (lv : level) (arg : result A)
    (msg : A -> list piece) :
  snd (log_with lg lv arg msg)
  = match lg with
    | Some _ => Py.bind arg (fun _ => Return tt)
    | None => Return tt
    end.
Proof.
  destruct lg; [|reflexivity]. cbn [log_with]. rewrite snd_mbind.
  now destruct arg.
Qed.

Lemma snd_log_unguarded {A} (lg : option logger) (lv : level) (arg : result A)
    (msg : A -> list piece) :
  snd (log_unguarded lg lv arg msg)
  = match lg with
    | Some _ => Py.bind arg (fun _ => Return tt)
    | None => Raise (no_attribute JNull (lit "info"))
    end.
Proof.
  destruct lg; [|reflexivity]. cbn [log_unguarded]. rewrite snd_mbind.
  now destruct arg.
Qed.

End MonadSteps.

Section AnalyzeSteps.

Variables (E : env) (c : config) (lg : option logger) (sev js : upload).

(** The result of the [try] block, stage by stage. *)
Lemma snd_analyze_files :
  snd (analyze_files E c lg sev js)
  = match json_loads (read_text (data js)) with
    | None =>
        Return (Failure (lit "Invalid JSON file: "
                         ++ json_error_detail E (read_text (data js))))
    | Some json_data =>
        Py.bind (ticket_stage lg json_data) (fun _ =>
        Py.bind (snd (call_abacus_api E c
                        (build_prompt (read_text (data sev))
                                      (read_text (data js))) lg))
                (finish E c json_data))
    end.
Proof.
  unfold analyze_files. rewrite !read_file_with_encoding_eq.
  rewrite snd_mbind_log, snd_mbind_emit, mbind_lift_return.
  rewrite snd_mbind_emit, mbind_lift_return.
  cbn [fst snd]. rewrite !snd_mbind_log.
  destruct (json_loads (read_text (data js))) as [json_data|];
    [|now rewrite snd_mbind_log].
  unfold ticket_stage.
  rewrite snd_mbind_bind, snd_log_with.
  destruct (match lg with
            | Some _ => Py.bind (py_keys json_data) (fun _ => Return tt)
            | None => Return tt
            end) as [u|e]; cbn [Py.bind]; [|reflexivity].
  rewrite snd_mbind_bind. cbn [snd lift].
  destruct (py_contains (lit "tickets") json_data) as [has|e];
    cbn [Py.bind]; [|reflexivity].
  destruct has; rewrite snd_mbind_bind;
    [rewrite snd_log_unguarded;
     destruct (match lg with
               | Some _ =>
                   Py.bind (Py.bind (py_getitem json_data (lit "tickets")) py_len)
                           (fun _ => Return tt)
               | None => Raise (no_attribute JNull (lit "info"))
               end) as [u'|e]
    | cbn [snd ret] ];
    cbn [Py.bind]; try reflexivity.
  all: rewrite snd_mbind_log, snd_mbind_bind.
  all: destruct (snd (call_abacus_api E c _ lg)) as [answer|e];
    cbn [Py.bind]; [|reflexivity].
  all: rewrite snd_mbind_log; unfold finish.
  all: destruct answer; try reflexivity.
  all: rewrite snd_mbind_bind; cbn [snd lift].
  all: destruct (split_response s json_data) as [parts|e];
    cbn [Py.bind]; [|reflexivity].
  all: destruct (encode Utf8 (fst parts)); [|now rewrite snd_mbind_emit].
  all: rewrite !snd_mbind_emit, !snd_mbind_log, !snd_mbind_emit.
  all: rewrite snd_mbind_bind; cbn [snd lift]; unfold ticket_count.
  all: destruct (py_get json_data (lit "tickets") (JList [])) as [tickets|e];
    cbn [Py.bind]; [|reflexivity].
  all: rewrite snd_mbind_bind; cbn [snd lift].
  all: now destruct (py_len tickets).
Qed.

(** The result of the [try] block with its two checks of the request. *)
Lemma snd_analyze_try (req : request) :
  snd (analyze_try E c lg req)
  = match severity_file req, json_file req with
    | Some sev', Some js' =>
        if is_empty (filename sev') || is_empty (filename js')
        then Return (Failure (lit "Both files must be selected"))
        else snd (analyze_files E c lg sev' js')
    | _, _ => Return (Failure (lit "Both severity_file and json_file are required"))
    end.
Proof.
  unfold analyze_try.
  destruct (severity_file req) as [sev'|], (json_file req) as [js'|];
    try (now rewrite snd_mbind_log).
  destruct (is_empty (filename sev') || is_empty (filename js'));
    [now rewrite snd_mbind_log | reflexivity].
Qed.

Lemma snd_analyze_logged (req : request) :
  snd (analyze_logged E c lg req)
  = match snd (analyze_try E c lg req) with
    | Return r => r
    | Raise e => Failure (lit "Analysis failed: " ++ exn_str e)
    end.
Proof.
  unfold analyze_logged.
  destruct (analyze_try E c lg req) as [tr [r|e]]; cbn [snd]; [reflexivity|].
  now destruct (mbind _ _).
Qed.

Lemma fst_analyze_logged (req : request) :
  fst (analyze_logged E c lg req)
  = fst (analyze_try E c lg req)
    ++ match snd (analyze_try E c lg req) with
       | Return _ => []
       | Raise e =>
           fst (log lg ERROR [Text (lit "Analysis failed: " ++ exn_str e)])
           ++ fst (log lg ERROR [Text (lit "=== Analysis Request Failed ===")])
       end.
Proof.
  unfold analyze_logged.
  destruct (analyze_try E c lg req) as [tr [r|e]]; cbn [fst snd].
  - now rewrite app_nil_r.
  - now destruct lg.
Qed.

End AnalyzeSteps.

(* ------------------------------------------------------------------ *)
(** ** The events of a request *)

Section AnalyzeEvents.

Variables (E : env) (c : config) (lg : option logger).

(** The events of the [try] block: log lines, the two uploads, the post
    of the client and, once the client has returned, the artifacts and
    the clean-up. *)
Lemma analyze_files_events (p : event -> bool) (sev js : upload) :
  quiet p lg ->
  (forall path bs, p (SaveUpload path bs) = false) ->
  (forall r, p (HttpPost r) = false) ->
  ((forall path text, p (WriteText path text) = false)
   /\ (forall path doc, p (WriteJson path doc) = false)
   /\ (forall path, p (Unlink path) = false))
  \/ (forall answer,
         snd (call_abacus_api E c
                (build_prompt (read_text (data sev)) (read_text (data js))) lg)
         <> Return answer) ->
  none_of p (fst (analyze_files E c lg sev js)).
Proof.
  intros Hlog Hsave Hpost Hlate. unfold analyze_files.
  rewrite !read_file_with_encoding_eq.
  apply none_of_mbind; [now apply none_of_log_quiet | intros _ _].
  apply none_of_mbind; [now apply none_of_emit | intros _ _].
  apply none_of_mbind; [apply none_of_lift | intros sr Hsr].
  apply none_of_mbind; [now apply none_of_emit | intros _ _].
  apply none_of_mbind; [apply none_of_lift | intros jr Hjr].
  cbn [snd lift] in Hsr, Hjr. injection Hsr as <-. injection Hjr as <-.
  cbn [fst snd].
  do 2 (apply none_of_mbind; [now apply none_of_log_quiet | intros _ _]).
  destruct (json_loads (read_text (data js))) as [json_data|].
  2: { apply none_of_mbind; [now apply none_of_log_quiet | reflexivity]. }
  apply none_of_mbind; [now apply none_of_log_with | intros _ _].
  apply none_of_mbind; [apply none_of_lift | intros has _].
  apply none_of_mbind;
    [destruct has; [now apply none_of_log_unguarded | reflexivity]
    | intros _ _].
  apply none_of_mbind; [now apply none_of_log_quiet | intros _ _].
  apply none_of_mbind; [now apply client_events | intros answer Hanswer].
  destruct Hlate as [(Htext & Hjson & Hunlink) | Hnever];
    [|now apply Hnever in Hanswer].
  apply none_of_mbind; [now apply none_of_log_quiet | intros _ _].
  destruct answer; try reflexivity.
  apply none_of_mbind; [apply none_of_lift | intros parts _].
  destruct (encode Utf8 (fst parts));
    [|apply none_of_mbind; [now apply none_of_emit | reflexivity]].
  do 2 (apply none_of_mbind; [now apply none_of_emit | intros _ _]).
  do 2 (apply none_of_mbind; [now apply none_of_log_quiet | intros _ _]).
  do 2 (apply none_of_mbind; [now apply none_of_emit | intros _ _]).
  apply none_of_mbind; [apply none_of_lift | intros tickets _].
  apply none_of_mbind; [apply none_of_lift | intros n _].
  reflexivity.
Qed.

(** The same for the whole request once the logger is known; the checks
    of the request and the [except] clause only log. *)
Lemma analyze_logged_events (p : event -> bool) (req : request) :
  quiet p lg ->
  (forall path bs, p (SaveUpload path bs) = false) ->
  (forall r, p (HttpPost r) = false) ->
  ((forall path text, p (WriteText path text) = false)
   /\ (forall path doc, p (WriteJson path doc) = false)
   /\ (forall path, p (Unlink path) = false))
  \/ (forall sev' js' answer,
         severity_file req = Some sev' -> json_file req = Some js' ->
         snd (call_abacus_api E c
                (build_prompt (read_text (data sev')) (read_text (data js')))
                lg)
         <> Return answer) ->
  none_of p (fst (analyze_logged E c lg req)).
Proof.
  intros Hlog Hsave Hpost Hlate. rewrite fst_analyze_logged.
  apply none_of_app.
  - unfold analyze_try.
    destruct (severity_file req) as [sev'|] eqn:Hs,
             (json_file req) as [js'|] eqn:Hj;
      try (apply none_of_mbind; [now apply none_of_log_quiet | reflexivity]).
    destruct (is_empty (filename sev') || is_empty (filename js')).
    + apply none_of_mbind; [now apply none_of_log_quiet | reflexivity].
    + apply analyze_files_events; try assumption.
      destruct Hlate as [Hlate | Hnever]; [now left | right].
      intros answer. now apply Hnever.
  - destruct (snd (analyze_try E c lg req)); [reflexivity|].
    apply none_of_app; now apply none_of_log_quiet.
Qed.

End AnalyzeEvents.

Section AnalyzePosts.

Variables (E : env) (c : config) (lg : option logger).

Lemma posts_mbind_emit {B} (ev : event) (k : unit -> M B) :
  is_http ev = false ->
  posts (fst (mbind (emit ev) k)) = posts (fst (k tt)).
Proof.
  intros Hev. rewrite fst_mbind, posts_app. cbn [fst snd emit].
  destruct ev; try discriminate Hev; reflexivity.
Qed.

Lemma posts_mbind {A B} (m : M A) (k : A -> M B) :
  posts (fst (mbind m k))
  = posts (fst m) ++ match snd m with
                     | Return a => posts (fst (k a))
                     | Raise _ => []
                     end.
Proof. rewrite fst_mbind, posts_app. now destruct (snd m). Qed.

Lemma is_http_quiet : quiet is_http lg.
Proof. now right. Qed.

(** Whatever the [try] block posts, the client posted for the prompt
    built from the two decoded uploads. *)
Lemma posts_analyze_files (sev js : upload) :
  posts (fst (analyze_files E c lg sev js)) = []
  \/ posts (fst (analyze_files E c lg sev js))
     = posts (fst (call_abacus_api E c
                     (build_prompt (read_text (data sev)) (read_text (data js)))
                     lg)).
Proof.
  unfold analyze_files. rewrite !read_file_with_encoding_eq.
  rewrite posts_mbind_log, posts_mbind_emit, mbind_lift_return by reflexivity.
  rewrite posts_mbind_emit, mbind_lift_return by reflexivity.
  cbn [fst snd]. rewrite !posts_mbind_log.
  destruct (json_loads (read_text (data js))) as [json_data|].
  2: { left. now rewrite posts_mbind_log. }
  rewrite posts_mbind.
  rewrite (posts_none (fst (log_with _ _ _ _)))
    by (apply none_of_log_with, is_http_quiet).
  cbn [app]. destruct (snd (log_with _ _ _ _)); [|now left].
  rewrite posts_mbind. cbn [fst lift posts flat_map app].
  destruct (snd (lift _)) as [has|]; [|now left].
  rewrite posts_mbind.
  destruct has.
  1: rewrite (posts_none (fst (log_unguarded _ _ _ _)))
       by apply none_of_log_unguarded, is_http_quiet.
  1: destruct (snd (log_unguarded _ _ _ _)); [|now left].
  all: cbn [app fst snd ret posts flat_map].
  all: rewrite posts_mbind_log, posts_mbind; right.
  all: destruct (snd (call_abacus_api E c _ lg)) as [answer|]; cbv beta iota;
    [|now rewrite app_nil_r].
  all: rewrite (posts_none (fst (mbind (log lg INFO _) _)));
    [now rewrite app_nil_r|].
  all: apply none_of_mbind;
    [apply none_of_log_quiet, is_http_quiet | intros _ _].
  all: destruct answer; try reflexivity.
  all: apply none_of_mbind; [apply none_of_lift | intros parts _].
  all: destruct (encode Utf8 (fst parts));
    [|apply none_of_mbind; [now apply none_of_emit | reflexivity]].
  all: do 2 (apply none_of_mbind; [now apply none_of_emit | intros _ _]).
  all: do 2 (apply none_of_mbind;
             [apply none_of_log_quiet, is_http_quiet | intros _ _]).
  all: do 2 (apply none_of_mbind; [now apply none_of_emit | intros _ _]).
  all: apply none_of_mbind; [apply none_of_lift | intros tickets _].
  all: apply none_of_mbind; [apply none_of_lift | intros n _].
  all: reflexivity.
Qed.

(** What a call posts: nothing, or the one request for its prompt. *)
Lemma posts_call (prompt : str) :
  posts (fst (call_abacus_api E c prompt lg)) = []
  \/ exists key url,
       dict_lookup (lit "abacus_api_key") c = Some key
       /\ dict_lookup (lit "abacus_api_url") c = Some url
       /\ posts (fst (call_abacus_api E c prompt lg))
          = [request_for c prompt key url].
Proof.
  destruct (truthy (config_get c (lit "just_log_prompts") (JBool false)))
    eqn:Hmode.
  - left. apply posts_none. unfold call_abacus_api. rewrite Hmode.
    do 10 (apply none_of_mbind;
           [apply none_of_log_quiet, is_http_quiet | intros _ _]).
    reflexivity.
  - destruct (dict_lookup (lit "abacus_api_key") c) as [key|] eqn:Hkey.
    + destruct (dict_lookup (lit "abacus_api_url") c) as [url|] eqn:Hurl.
      * right. exists key, url. repeat split.
        now apply posts_with_credentials.
      * left. now apply (posts_without_url E c prompt lg Hmode key).
    + left. now apply posts_without_key.
Qed.

Lemma posts_analyze_logged (req : request) :
  posts (fst (analyze_logged E c lg req)) = posts (fst (analyze_try E c lg req)).
Proof.
  rewrite fst_analyze_logged, posts_app.
  destruct (snd (analyze_try E c lg req)); cbv beta iota;
    [now rewrite app_nil_r|].
  rewrite (posts_none (_ ++ _)); [now rewrite app_nil_r|].
  apply none_of_app; apply none_of_log_quiet, is_http_quiet.
Qed.

End AnalyzePosts.

(* ------------------------------------------------------------------ *)
(** ** A request that succeeds *)

Section SuccessTrace.

Variables (E : env) (c : config) (lg : option logger).

Lemma reaches_step {A B} (T : list event) (m : M A) (k : A -> M B) (b : B) :
  (exists before, T = before ++ fst (mbind m k)) ->
  snd (mbind m k) = Return b ->
  exists a, snd m = Return a /\ snd (k a) = Return b
            /\ exists before, T = before ++ fst (k a).
Proof.
  intros [before HT]. rewrite snd_mbind. rewrite fst_mbind in HT.
  destruct (snd m) as [a|e]; [|discriminate].
  intros Hk. exists a. repeat split; [exact Hk|].
  exists (before ++ fst m). now rewrite <- app_assoc.
Qed.

Lemma finish_succeeds (json_data answer : json) (r : response) :
  finish E c json_data answer = Return r -> success r = true.
Proof.
  unfold finish. destruct answer; try discriminate.
  destruct (split_response s json_data) as [parts|]; [|discriminate].
  cbn [Py.bind]. destruct (encode Utf8 (fst parts)); [|discriminate].
  destruct (ticket_count json_data); [|discriminate].
  now intros [= <-].
Qed.

(** A [try] block that returns a success went through every stage, and
    its events end with the artifacts and the clean-up. *)
Lemma analyze_files_success (sev js : upload) (r : response) :
  snd (analyze_files E c lg sev js) = Return r ->
  success r = true ->
  exists json_data a parts n before,
    json_loads (read_text (data js)) = Some json_data
    /\ snd (call_abacus_api E c
              (build_prompt (read_text (data sev)) (read_text (data js))) lg)
       = Return (JStr a)
    /\ split_response a json_data = Return parts
    /\ ticket_count json_data = Return n
    /\ r = Success (markdown_name E) (json_name E) n
             (config_get c (lit "model") default_model)
             (config_get c (lit "just_log_prompts") (JBool false))
             (preview a) a (snd parts)
    /\ fst (analyze_files E c lg sev js) = before ++ persist_events E lg parts.
Proof.
  intros H Hok.
  assert (HT : exists before,
             fst (analyze_files E c lg sev js)
             = before ++ fst (analyze_files E c lg sev js))
    by now exists [].
  unfold analyze_files in H. unfold analyze_files in HT at 2.
  rewrite !read_file_with_encoding_eq in H, HT.
  do 2 (destruct (reaches_step _ _ _ _ HT H) as (? & _ & H' & HT');
        clear H HT; rename H' into H; rename HT' into HT).
  destruct (reaches_step _ _ _ _ HT H) as (sr & Hsr & H' & HT');
    clear H HT; rename H' into H; rename HT' into HT.
  destruct (reaches_step _ _ _ _ HT H) as (? & _ & H' & HT');
    clear H HT; rename H' into H; rename HT' into HT.
  destruct (reaches_step _ _ _ _ HT H) as (jr & Hjr & H' & HT');
    clear H HT; rename H' into H; rename HT' into HT.
  cbn [snd lift] in Hsr, Hjr. injection Hsr as <-. injection Hjr as <-.
  cbn [fst snd] in H, HT.
  do 2 (destruct (reaches_step _ _ _ _ HT H) as (? & _ & H' & HT');
        clear H HT; rename H' into H; rename HT' into HT).
  destruct (json_loads (read_text (data js))) as [json_data|].
  2: { destruct (reaches_step _ _ _ _ HT H) as (? & _ & H' & _).
       cbn [snd ret] in H'. injection H' as <-. discriminate Hok. }
  do 4 (destruct (reaches_step _ _ _ _ HT H) as (? & _ & H' & HT');
        clear H HT; rename H' into H; rename HT' into HT).
  destruct (reaches_step _ _ _ _ HT H) as (answer & Hanswer & H' & HT');
    clear H HT; rename H' into H; rename HT' into HT.
  destruct (reaches_step _ _ _ _ HT H) as (? & _ & H' & HT');
    clear H HT; rename H' into H; rename HT' into HT.
  destruct answer as [| | | |a| |]; try discriminate H.
  destruct (reaches_step _ _ _ _ HT H) as (parts & Hparts & H' & HT');
    clear H HT; rename H' into H; rename HT' into HT.
  cbn [snd lift] in Hparts.
  destruct (encode Utf8 (fst parts)); [|discriminate H].
  destruct HT as [before HT].
  exists json_data, a, parts.
  rewrite !snd_mbind_emit, !snd_mbind_log, !snd_mbind_emit in H.
  rewrite snd_mbind_bind in H. cbn [snd lift] in H.
  destruct (py_get json_data (lit "tickets") (JList [])) as [tickets|] eqn:Ht;
    [|discriminate H].
  cbn [Py.bind] in H. rewrite snd_mbind_bind in H. cbn [snd lift] in H.
  destruct (py_len tickets) as [n|] eqn:Hn; [|discriminate H].
  cbn [Py.bind snd ret] in H. injection H as <-.
  exists n, before. repeat split; try assumption.
  - unfold ticket_count. rewrite Ht. exact Hn.
  - rewrite HT. f_equal. unfold persist_events.
    rewrite !fst_mbind. cbn [fst snd emit].
    rewrite !snd_log. cbn [fst snd emit lift ret app].
    now rewrite Hn, mbind_lift_return.
Qed.

(** The same for the whole request. *)
Lemma analyze_logged_success_trace (req : request) (r : response) :
  snd (analyze_logged E c lg req) = r ->
  success r = true ->
  exists sev js json_data a parts n before,
    severity_file req = Some sev /\ json_file req = Some js
    /\ json_loads (read_text (data js)) = Some json_data
    /\ snd (call_abacus_api E c
              (build_prompt (read_text (data sev)) (read_text (data js))) lg)
       = Return (JStr a)
    /\ split_response a json_data = Return parts
    /\ ticket_count json_data = Return n
    /\ r = Success (markdown_name E) (json_name E) n
             (config_get c (lit "model") default_model)
             (config_get c (lit "just_log_prompts") (JBool false))
             (preview a) a (snd parts)
    /\ fst (analyze_logged E c lg req) = before ++ persist_events E lg parts.
Proof.
  intros Hr Hok.
  pose proof (analyze_logged_success E c lg req r Hr Hok) as Htry.
  rewrite (analyze_logged_of_return E c lg req r Htry). cbn [fst].
  revert Htry. unfold analyze_try.
  destruct (severity_file req) as [sev|], (json_file req) as [js|];
    try (rewrite snd_mbind_log; intros [= <-]; discriminate Hok).
  destruct (is_empty (filename sev) || is_empty (filename js)).
  { rewrite snd_mbind_log. intros [= <-]. discriminate Hok. }
  intros Hfiles.
  destruct (analyze_files_success sev js r Hfiles Hok)
    as (json_data & a & parts & n & before & H1 & H2 & H3 & H4 & H5 & H6).
  exists sev, js, json_data, a, parts, n, before. repeat split; assumption.
Qed.

End SuccessTrace.

(* ------------------------------------------------------------------ *)
(** ** The route [/analyze] as a whole *)

Section RouteFacts.

Variables (E : env) (c : config).

Lemma setup_logging_events (p : event -> bool) :
  (forall lv msg, p (Log lv msg) = false) ->
  (forall f, p (TruncateLog f) = false) ->
  (forall f, p (OpenLog f) = false) ->
  none_of p (fst (setup_logging c)).
Proof.
  intros Hlog Htrunc Hopen. unfold setup_logging.
  destruct (negb (truthy (config_get c (lit "debug_logging") (JBool false))));
    [reflexivity|].
  cbn [fst]. apply none_of_app.
  - destruct (truthy _); [|reflexivity].
    unfold none_of. cbn. now rewrite Htrunc.
  - unfold none_of. cbn. now rewrite Hopen, !Hlog.
Qed.

Lemma fst_analyze (req : request) :
  c <> [] ->
  fst (analyze E (Some c) req)
  = fst (setup_logging c)
    ++ fst (log (snd (setup_logging c)) INFO
              [Text (lit "=== New Analysis Request ===")])
    ++ fst (analyze_logged E c (snd (setup_logging c)) req).
Proof.
  intros Hc. unfold analyze. destruct c as [|kv c']; [contradiction|].
  destruct (setup_logging (kv :: c')) as [tr0 lg]. cbn [fst snd].
  destruct (log lg INFO _) as [tr1 u].
  now destruct (analyze_logged E (kv :: c') lg req).
Qed.

Lemma ticket_stage_passes (lg : option logger) (d : list (str * json))
    (n : nat) :
  ticket_count (JDict d) = Return n ->
  (lg = None -> dict_lookup (lit "tickets") d = None) ->
  ticket_stage lg (JDict d) = Return tt.
Proof.
  unfold ticket_count, ticket_stage, py_get, py_keys, py_contains, py_getitem.
  intros Hn Hguard.
  destruct (dict_lookup (lit "tickets") d) as [t|] eqn:Ht.
  - destruct lg as [l|]; [|now discriminate Hguard].
    cbn [Py.bind] in *. now rewrite Hn.
  - now destruct lg.
Qed.

Lemma failure_inj (e e' : str) : Failure e = Failure e' -> e = e'.
Proof. intros H. exact (f_equal (fun r => match r with
                                          | Failure x => x
                                          | _ => e
                                          end) H). Qed.

End RouteFacts.

(** X12.  A request that lacks one of the two files is answered with
    [Both severity_file and json_file are required]; one whose files are
    both there but one without a name, with
    [Both files must be selected].  In both cases nothing happens but log
    lines: no upload is saved, nothing is posted, no artifact is
    written. *)
Theorem incomplete_request_is_refused (E : env) (c : config)
    (lg : option logger) (req : request) :
  (severity_file req = None \/ json_file req = None ->
   snd (analyze_logged E c lg req)
   = Failure (lit "Both severity_file and json_file are required")
   /\ forallb is_logging (fst (analyze_logged E c lg req)) = true)
  /\ (forall sev js,
         severity_file req = Some sev -> json_file req = Some js ->
         filename sev = [] \/ filename js = [] ->
         snd (analyze_logged E c lg req)
         = Failure (lit "Both files must be selected")
         /\ forallb is_logging (fst (analyze_logged E c lg req)) = true).
Proof.
  split.
  - intros Hmiss.
    assert (Htry : analyze_try E c lg req
                   = (log lg ERROR
                        [Text (lit "Both severity_file and json_file are required")] ;;;
                      ret (Failure (lit "Both severity_file and json_file are required")))).
    { unfold analyze_try.
      destruct Hmiss as [-> | ->]; [reflexivity|].
      now destruct (severity_file req). }
    unfold analyze_logged. rewrite Htry. now destruct lg.
  - intros sev js Hs Hj Hempty.
    assert (Htry : analyze_try E c lg req
                   = (log lg ERROR [Text (lit "Both files must be selected")] ;;;
                      ret (Failure (lit "Both files must be selected")))).
    { unfold analyze_try. rewrite Hs, Hj.
      destruct Hempty as [-> | ->]; [reflexivity|].
      now rewrite orb_true_r. }
    unfold analyze_logged. rewrite Htry. now destruct lg.
Qed.

(** X13.  Every failure the route reports carries one of five messages:
    the configuration error, one of the two refusals of an incomplete
    request, [Invalid JSON file: ...] or [Analysis failed: ...]. *)
Theorem failure_messages (E : env) (loaded : option config) (req : request)
    (e : str) :
  snd (analyze E loaded req) = Failure e ->
  e = lit "Configuration file not found or invalid"
  \/ e = lit "Both severity_file and json_file are required"
  \/ e = lit "Both files must be selected"
  \/ startswith (lit "Invalid JSON file: ") e = true
  \/ startswith (lit "Analysis failed: ") e = true.
Proof.
  destruct loaded as [[|kv c']|];
    try (cbn [analyze snd]; intros [= <-]; now left).
  rewrite analyze_with_config by discriminate.
  rewrite snd_analyze_logged, snd_analyze_try.
  destruct (severity_file req) as [sev|], (json_file req) as [js|];
    try (intros [= <-]; right; now left).
  destruct (is_empty (filename sev) || is_empty (filename js)).
  { intros [= <-]. right. right. now left. }
  rewrite snd_analyze_files.
  destruct (json_loads (read_text (data js))) as [json_data|].
  2: { intros H. apply failure_inj in H. subst e.
       do 3 right. left. apply startswith_app. }
  destruct (ticket_stage _ json_data) as [u|ex]; cbn [Py.bind].
  2: { intros H. apply failure_inj in H. subst e.
       do 4 right. apply startswith_app. }
  destruct (snd (call_abacus_api E _ _ _)) as [answer|ex]; cbn [Py.bind].
  2: { intros H. apply failure_inj in H. subst e.
       do 4 right. apply startswith_app. }
  destruct (finish E _ json_data answer) as [r|ex] eqn:Hfin.
  2: { intros H. apply failure_inj in H. subst e.
       do 4 right. apply startswith_app. }
  intros ->. apply finish_succeeds in Hfin. discriminate Hfin.
Qed.

Lemma failure_messages_witness :
  snd (analyze sample_env (Some mock_config) scenario_request)
  = Failure (lit "Analysis failed: 'NoneType' object has no attribute 'info'")
  /\ startswith (lit "Analysis failed: ")
       (lit "Analysis failed: 'NoneType' object has no attribute 'info'") = true.
Proof.
  split; [reflexivity|].
  destruct (failure_messages sample_env (Some mock_config) scenario_request
              (lit "Analysis failed: 'NoneType' object has no attribute 'info'")
              eq_refl)
    as [H|[H|[H|[H|H]]]];
    solve [discriminate H | exact H].
Defined.

(** X14.  Every field of a success response is fixed by the request: the
    two file names are the artifacts just created, the count is the
    length of the dataset's [tickets] entry, model and mode come from the
    configuration, [analysis] is the string the client returned for the
    prompt built from the two decoded uploads, the preview is cut from
    it, and [modified_json] is the document the splitter took from it. *)
Theorem success_fields (E : env) (c : config) (lg : option logger)
    (req : request) (md jn : str) (n : nat) (m p : json) (pv a : str)
    (mj : json) :
  snd (analyze_logged E c lg req) = Success md jn n m p pv a mj ->
  exists sev js json_data text,
    severity_file req = Some sev /\ json_file req = Some js
    /\ json_loads (read_text (data js)) = Some json_data
    /\ snd (call_abacus_api E c
              (build_prompt (read_text (data sev)) (read_text (data js))) lg)
       = Return (JStr a)
    /\ split_response a json_data = Return (text, mj)
    /\ ticket_count json_data = Return n
    /\ md = markdown_name E /\ jn = json_name E
    /\ m = config_get c (lit "model") default_model
    /\ p = config_get c (lit "just_log_prompts") (JBool false)
    /\ pv = preview a.
Proof.
  intros H.
  destruct (analyze_logged_success_trace E c lg req _ H eq_refl)
    as (sev & js & json_data & a' & parts & n' & before
        & Hs & Hj & Hloads & Hcall & Hsplit & Hcount & Heq & _).
  injection Heq as -> -> -> -> -> -> -> ->.
  exists sev, js, json_data, (fst parts).
  rewrite <- surjective_pairing. repeat split; assumption.
Qed.

Lemma success_fields_witness :
  exists sev js json_data text,
    severity_file scenario_request = Some sev
    /\ json_file scenario_request = Some js
    /\ json_loads (read_text (data js)) = Some json_data
    /\ snd (call_abacus_api sample_env mock_config
              (build_prompt (read_text (data sev)) (read_text (data js)))
              (Some Logger))
       = Return (JStr mock_response)
    /\ split_response mock_response json_data
       = Return (text, JDict scenario_document)
    /\ ticket_count json_data = Return 1%nat
    /\ lit "/tmp/tmpc3.md" = markdown_name sample_env
    /\ lit "/tmp/tmpd4.json" = json_name sample_env
    /\ default_model = config_get mock_config (lit "model") default_model
    /\ JBool true = config_get mock_config (lit "just_log_prompts") (JBool false)
    /\ preview mock_response = preview mock_response.
Proof.
  apply (success_fields sample_env mock_config (Some Logger) scenario_request).
  reflexivity.
Defined.

(** X15.  With [debug_logging] off the request writes no log line and
    touches no log file, whatever else the configuration says and however
    the request ends. *)
Theorem logging_off_leaves_no_log (E : env) (c : config) (req : request) :
  truthy (config_get c (lit "debug_logging") (JBool false)) = false ->
  none_of is_logging (fst (analyze E (Some c) req)).
Proof.
  intros Hoff. destruct c as [|kv c'] eqn:Hc; [reflexivity|].
  rewrite <- Hc in *. rewrite fst_analyze by (rewrite Hc; discriminate).
  assert (Hsetup : setup_logging c = ([], None))
    by (unfold setup_logging; now rewrite Hoff).
  rewrite Hsetup. cbn [fst snd log ret app].
  apply analyze_logged_events; try reflexivity; [now left | now left].
Qed.

Lemma logging_off_leaves_no_log_witness :
  none_of is_logging (fst (analyze sample_env (Some live_config) scenario_request)).
Proof.
  apply (logging_off_leaves_no_log sample_env live_config scenario_request).
  reflexivity.
Defined.

(** X16.  A request posts at most once: either nothing is posted, or the
    one request the client builds from the configured key and URL for the
    prompt made of the two decoded uploads. *)
Theorem analyze_posts_at_most_once (E : env) (loaded : option config)
    (req : request) :
  posts (fst (analyze E loaded req)) = []
  \/ exists c sev js key url,
       loaded = Some c
       /\ severity_file req = Some sev /\ json_file req = Some js
       /\ dict_lookup (lit "abacus_api_key") c = Some key
       /\ dict_lookup (lit "abacus_api_url") c = Some url
       /\ posts (fst (analyze E loaded req))
          = [request_for c
               (build_prompt (read_text (data sev)) (read_text (data js)))
               key url].
Proof.
  destruct loaded as [c|]; [|now left].
  destruct c as [|kv c'] eqn:Hc; [now left|]. rewrite <- Hc.
  assert (Hne : c <> []) by (rewrite Hc; discriminate).
  rewrite (fst_analyze E c req Hne), !posts_app.
  rewrite (posts_none (fst (setup_logging c)))
    by (apply setup_logging_events; reflexivity).
  rewrite (posts_none (fst (log _ _ _)))
    by (apply none_of_log_quiet, is_http_quiet).
  cbn [app]. rewrite posts_analyze_logged.
  unfold analyze_try.
  destruct (severity_file req) as [sev|], (json_file req) as [js|];
    try (left; now rewrite posts_mbind_log).
  destruct (is_empty (filename sev) || is_empty (filename js));
    [left; now rewrite posts_mbind_log|].
  destruct (posts_analyze_files E c (snd (setup_logging c)) sev js)
    as [-> | ->]; [now left|].
  destruct (posts_call E c (snd (setup_logging c))
              (build_prompt (read_text (data sev)) (read_text (data js))))
    as [-> | (key & url & Hkey & Hurl & ->)]; [now left|].
  right. exists c, sev, js, key, url. repeat split; assumption.
Qed.

(* ------------------------------------------------------------------ *)
(** ** Uploads, artifacts and the download routes *)

Section FilesFacts.

Lemma str_eqb_eq (a b : str) : str_eqb a b = true <-> a = b.
Proof.
  revert b. induction a as [|x a IH]; intros [|y b]; cbn [str_eqb];
    try (split; [discriminate | discriminate]); [now split|].
  rewrite andb_true_iff, N.eqb_eq, IH.
  split; [intros [-> ->]; reflexivity | intros [= -> ->]; now split].
Qed.

Lemma str_eqb_refl (a : str) : str_eqb a a = true.
Proof. now apply str_eqb_eq. Qed.

Lemma str_eqb_neq (a b : str) : a <> b -> str_eqb a b = false.
Proof.
  intros H. destruct (str_eqb a b) eqn:Heq; [|reflexivity].
  now apply str_eqb_eq in Heq.
Qed.

Lemma files_after_app (tr tr' : list event) (fs : files) :
  files_after (tr ++ tr') fs = files_after tr' (files_after tr fs).
Proof. unfold files_after. apply fold_left_app. Qed.

Lemma files_after_log (lg : option logger) (lv : level) (msg : list piece)
    (fs : files) :
  files_after (fst (log lg lv msg)) fs = fs.
Proof. now destruct lg. Qed.

(** The files once the artifacts are written and the uploads removed. *)
Lemma files_after_persist (E : env) (lg : option logger) (parts : str * json)
    (fs : files) :
  NoDup [markdown_name E; json_name E; severity_tmp E; json_tmp E] ->
  files_after (persist_events E lg parts) fs (markdown_name E)
  = Some (TextFile (fst parts))
  /\ files_after (persist_events E lg parts) fs (json_name E)
     = Some (JsonFile (snd parts))
  /\ files_after (persist_events E lg parts) fs (severity_tmp E) = None
  /\ files_after (persist_events E lg parts) fs (json_tmp E) = None.
Proof.
  intros Hnames.
  assert (Hmj : markdown_name E <> json_name E
                /\ markdown_name E <> severity_tmp E
                /\ markdown_name E <> json_tmp E
                /\ json_name E <> severity_tmp E
                /\ json_name E <> json_tmp E).
  { inversion Hnames as [|? ? H1 Hrest]; subst.
    inversion Hrest as [|? ? H2 _]; subst.
    cbn [In] in H1, H2. repeat split; intros Heq.
    - apply H1. now left.
    - apply H1. right. now left.
    - apply H1. right. right. now left.
    - apply H2. now left.
    - apply H2. right. now left. }
  destruct Hmj as (H1 & H2 & H3 & H4 & H5).
  unfold persist_events.
  rewrite !files_after_app, !files_after_log.
  unfold files_after.
  cbn [fold_left app apply_event]. unfold write_file, remove_file.
  rewrite !str_eqb_refl.
  rewrite (str_eqb_neq _ _ H1), (str_eqb_neq _ _ H2), (str_eqb_neq _ _ H3).
  rewrite (str_eqb_neq _ _ H4), (str_eqb_neq _ _ H5).
  repeat split; try reflexivity.
  now destruct (str_eqb (severity_tmp E) (json_tmp E)).
Qed.

Lemma path_join_plain (temp_dir filename : str) :
  ~ In 47 filename ->
  path_join temp_dir filename = temp_dir ++ filename
  \/ path_join temp_dir filename = temp_dir ++ lit "/" ++ filename.
Proof.
  intros Hslash. unfold path_join.
  assert (Hstart : startswith (lit "/") filename = false).
  { change (lit "/") with [47]. destruct filename as [|ch rest]; [reflexivity|].
    cbn [startswith]. destruct (N.eqb_spec 47 ch) as [<-|_]; [|reflexivity].
    exfalso. apply Hslash. now left. }
  rewrite Hstart.
  destruct (is_empty temp_dir || endswith (lit "/") temp_dir);
    [left | right]; reflexivity.
Qed.

Lemma uploads_saved (E : env) (c : config) (lg : option logger)
    (sev js : upload) :
  In (SaveUpload (severity_tmp E) (data sev)) (fst (analyze_files E c lg sev js))
  /\ In (SaveUpload (json_tmp E) (data js)) (fst (analyze_files E c lg sev js)).
Proof.
  unfold analyze_files. rewrite !read_file_with_encoding_eq.
  rewrite fst_mbind, snd_log. rewrite fst_mbind. cbn [fst snd emit].
  rewrite mbind_lift_return. rewrite fst_mbind. cbn [fst snd emit].
  split; apply in_or_app; right.
  - now left.
  - right. now left.
Qed.

End FilesFacts.

(** X17.  When the client raises, the request ends with
    [Analysis failed: ...] and the message of the exception; no artifact
    has been written, and the two uploads saved under temporary names
    are not removed: the clean-up is reached only on success. *)
Theorem failed_call_keeps_uploads (E : env) (c : config) (lg : option logger)
    (sev js : upload) (d : list (str * json)) (n : nat) (e : exn) :
  is_empty (filename sev) = false ->
  is_empty (filename js) = false ->
  json_loads (read_text (data js)) = Some (JDict d) ->
  ticket_count (JDict d) = Return n ->
  (lg = None -> dict_lookup (lit "tickets") d = None) ->
  snd (call_abacus_api E c
         (build_prompt (read_text (data sev)) (read_text (data js))) lg)
  = Raise e ->
  snd (analyze_logged E c lg (request_of sev js))
  = Failure (lit "Analysis failed: " ++ exn_str e)
  /\ In (SaveUpload (severity_tmp E) (data sev))
        (fst (analyze_logged E c lg (request_of sev js)))
  /\ In (SaveUpload (json_tmp E) (data js))
        (fst (analyze_logged E c lg (request_of sev js)))
  /\ none_of is_unlink (fst (analyze_logged E c lg (request_of sev js)))
  /\ none_of is_artifact_write
       (fst (analyze_logged E c lg (request_of sev js))).
Proof.
  intros Hsev Hjs Hloads Hcount Hguard Hcall.
  assert (Hnever : forall sev' js' answer,
             severity_file (request_of sev js) = Some sev' ->
             json_file (request_of sev js) = Some js' ->
             snd (call_abacus_api E c
                    (build_prompt (read_text (data sev')) (read_text (data js')))
                    lg)
             <> Return answer).
  { intros sev' js' answer [= <-] [= <-]. rewrite Hcall. discriminate. }
  split; [|split; [|split; [|split]]].
  - rewrite snd_analyze_logged, snd_analyze_try. cbn [request_of severity_file json_file].
    rewrite Hsev, Hjs. cbn [orb]. rewrite snd_analyze_files, Hloads.
    rewrite (ticket_stage_passes lg d n Hcount Hguard). cbn [Py.bind].
    now rewrite Hcall.
  - rewrite fst_analyze_logged, (analyze_try_files E c lg sev js Hsev Hjs).
    apply in_or_app. left. apply uploads_saved.
  - rewrite fst_analyze_logged, (analyze_try_files E c lg sev js Hsev Hjs).
    apply in_or_app. left. apply uploads_saved.
  - apply analyze_logged_events; try reflexivity; [now right | now right].
  - apply analyze_logged_events; try reflexivity; [now right | now right].
Qed.

Lemma failed_call_keeps_uploads_witness :
  let sev := {| filename := lit "severity.md";
                data := utf8_bytes scenario_severity |} in
  let js := {| filename := lit "tickets.json"; data := utf8_bytes (lit "{}") |} in
  snd (analyze_logged sample_env live_config None (request_of sev js))
  = Failure (lit "Analysis failed: API request failed: connection refused")
  /\ In (SaveUpload (lit "/tmp/tmpa1.md") (data sev))
        (fst (analyze_logged sample_env live_config None (request_of sev js)))
  /\ In (SaveUpload (lit "/tmp/tmpb2.json") (data js))
        (fst (analyze_logged sample_env live_config None (request_of sev js)))
  /\ none_of is_unlink
       (fst (analyze_logged sample_env live_config None (request_of sev js)))
  /\ none_of is_artifact_write
       (fst (analyze_logged sample_env live_config None (request_of sev js))).
Proof.
  intros sev js.
  apply (failed_call_keeps_uploads sample_env live_config None sev js [] 0
           (Exn PlainException (lit "API request failed: connection refused")));
    reflexivity.
Defined.

(** X18.  After a request that succeeds, the two download routes hand
    back what was written: given the base names of the two artifacts in
    the temporary directory, [download_markdown] sends the report part
    the splitter took from the analysis and [download_json] sends the
    document the response carries as [modified_json]; the two uploads
    are gone.  The four temporary names are taken to differ. *)
Theorem artifacts_can_be_downloaded (E : env) (c : config)
    (lg : option logger) (req : request) (fs : files)
    (temp_dir md_base json_base : str)
    (md jn : str) (n : nat) (m p : json) (pv a : str) (mj : json) :
  snd (analyze_logged E c lg req) = Success md jn n m p pv a mj ->
  NoDup [markdown_name E; json_name E; severity_tmp E; json_tmp E] ->
  markdown_name E = path_join temp_dir md_base ->
  endswith (lit ".md") md_base = true ->
  json_name E = path_join temp_dir json_base ->
  endswith (lit ".json") json_base = true ->
  (exists json_data text,
      split_response a json_data = Return (text, mj)
      /\ download_markdown temp_dir
           (files_after (fst (analyze_logged E c lg req)) fs) md_base
         = Sent md (TextFile text) (lit "vulnerability_analysis.md"))
  /\ download_json temp_dir
       (files_after (fst (analyze_logged E c lg req)) fs) json_base
     = Sent jn (JsonFile mj) (lit "enhanced_tickets.json")
  /\ files_after (fst (analyze_logged E c lg req)) fs (severity_tmp E) = None
  /\ files_after (fst (analyze_logged E c lg req)) fs (json_tmp E) = None.
Proof.
  intros H Hnames Hmd Hmdext Hjn Hjnext.
  destruct (analyze_logged_success_trace E c lg req _ H eq_refl)
    as (sev & js & json_data & a' & parts & n' & before
        & _ & _ & _ & _ & Hsplit & _ & Heq & Htrace).
  injection Heq as -> -> -> -> -> -> -> ->.
  rewrite Htrace, files_after_app.
  destruct (files_after_persist E lg parts (files_after before fs) Hnames)
    as (Hfmd & Hfjn & Hfs & Hfj).
  split; [|split; [|split]]; try assumption.
  - exists json_data, (fst parts). rewrite <- surjective_pairing.
    split; [exact Hsplit|].
    unfold download_markdown. rewrite Hmdext. cbn [negb].
    now rewrite <- Hmd, Hfmd.
  - unfold download_json. rewrite Hjnext. cbn [negb].
    now rewrite <- Hjn, Hfjn.
Qed.

Lemma artifacts_can_be_downloaded_witness :
  let fs0 : files := fun _ => None in
  let out := analyze_logged sample_env mock_config (Some Logger) scenario_request in
  (exists json_data text,
      split_response mock_response json_data
      = Return (text, JDict scenario_document)
      /\ download_markdown (lit "/tmp") (files_after (fst out) fs0)
           (lit "tmpc3.md")
         = Sent (lit "/tmp/tmpc3.md") (TextFile text)
             (lit "vulnerability_analysis.md"))
  /\ download_json (lit "/tmp") (files_after (fst out) fs0) (lit "tmpd4.json")
     = Sent (lit "/tmp/tmpd4.json") (JsonFile (JDict scenario_document))
         (lit "enhanced_tickets.json")
  /\ files_after (fst out) fs0 (lit "/tmp/tmpa1.md") = None
  /\ files_after (fst out) fs0 (lit "/tmp/tmpb2.json") = None.
Proof.
  intros fs0 out.
  apply (artifacts_can_be_downloaded sample_env mock_config (Some Logger)
           scenario_request fs0 (lit "/tmp") (lit "tmpc3.md") (lit "tmpd4.json")
           (lit "/tmp/tmpc3.md") (lit "/tmp/tmpd4.json") 1
           default_model (JBool true) (preview mock_response) mock_response
           (JDict scenario_document)); try reflexivity.
  repeat constructor; cbn [In]; intros H;
    repeat (destruct H as [H|H]; [discriminate H|]); exact H.
Defined.

(** X19.  A download route sends a file only for a name with its own
    extension, and for a name without a slash (the only names the route
    pattern lets through) the file sent lies directly in the temporary
    directory; any other extension is refused with status 400 and
    [Invalid file type], whether or not such a file exists. *)
Theorem downloads_check_the_name (temp_dir : str) (fs : files)
    (filename : str) :
  ~ In 47 filename ->
  (forall path content name,
      download_markdown temp_dir fs filename = Sent path content name ->
      endswith (lit ".md") filename = true
      /\ fs path = Some content
      /\ (path = temp_dir ++ filename \/ path = temp_dir ++ lit "/" ++ filename))
  /\ (forall path content name,
         download_json temp_dir fs filename = Sent path content name ->
         endswith (lit ".json") filename = true
         /\ fs path = Some content
         /\ (path = temp_dir ++ filename
             \/ path = temp_dir ++ lit "/" ++ filename))
  /\ (endswith (lit ".md") filename = false ->
      download_markdown temp_dir fs filename
      = Refused 400 (lit "Invalid file type"))
  /\ (endswith (lit ".json") filename = false ->
      download_json temp_dir fs filename
      = Refused 400 (lit "Invalid file type")).
Proof.
  intros Hslash. pose proof (path_join_plain temp_dir filename Hslash) as Hjoin.
  split; [|split; [|split]].
  - intros path content name. unfold download_markdown.
    destruct (endswith (lit ".md") filename); [|discriminate]. cbn [negb].
    destruct (fs (path_join temp_dir filename)) as [f|] eqn:Hf; [|discriminate].
    intros [= <- <- _]. repeat split; assumption.
  - intros path content name. unfold download_json.
    destruct (endswith (lit ".json") filename); [|discriminate]. cbn [negb].
    destruct (fs (path_join temp_dir filename)) as [f|] eqn:Hf; [|discriminate].
    intros [= <- <- _]. repeat split; assumption.
  - intros Hext. unfold download_markdown. now rewrite Hext.
  - intros Hext. unfold download_json. now rewrite Hext.
Qed.

Lemma downloads_check_the_name_witness :
  let fs : files :=
    fun p => if str_eqb p (lit "/tmp/report.md") then Some (TextFile (lit "# R"))
             else None in
  download_markdown (lit "/tmp") fs (lit "report.md")
  = Sent (lit "/tmp/report.md") (TextFile (lit "# R"))
      (lit "vulnerability_analysis.md")
  /\ download_json (lit "/tmp") fs (lit "report.md")
     = Refused 400 (lit "Invalid file type").
Proof.
  intros fs. split; [reflexivity|].
  apply (downloads_check_the_name (lit "/tmp") fs (lit "report.md")).
  - cbn [In lit List.map list_ascii_of_string]. intros H.
    repeat (destruct H as [H|H]; [discriminate H|]). exact H.
  - reflexivity.
Defined.

(** X20.  The route answers
    [Configuration file not found or invalid], and does nothing else,
    when [config.json] is missing, is not JSON, or holds a value that is
    false in a condition ([null], [false], zero, an empty string, list or
    object).  A true value that is no object (a non-empty string or
    list, a number other than zero, [true]) is not reported that way:
    [setup_logging] calls its [get] outside the [try] block and the
    [AttributeError] leaves the route.  Float literals are left out of
    this last case. *)
Theorem unusable_configuration (E : env) (req : request) :
  analyze_route E None req
  = Return ([], Failure (lit "Configuration file not found or invalid"))
  /\ (forall text,
         json_loads text = None ->
         analyze_route E (Some text) req
         = Return ([], Failure (lit "Configuration file not found or invalid")))
  /\ (forall text v,
         json_loads text = Some v -> truthy v = false ->
         analyze_route E (Some text) req
         = Return ([], Failure (lit "Configuration file not found or invalid")))
  /\ (forall text v,
         json_loads text = Some v -> truthy v = true ->
         (forall d, v <> JDict d) -> (forall lexeme, v <> JFloat lexeme) ->
         analyze_route E (Some text) req = Raise (no_attribute v (lit "get"))).
Proof.
  unfold analyze_route, load_config. split; [reflexivity|].
  split; [|split].
  - intros text ->. reflexivity.
  - intros text v -> Hv. destruct v as [| | | | | |d];
      try (now rewrite Hv).
    destruct d; [reflexivity | discriminate Hv].
  - intros text v -> Hv Hd _. destruct v as [| | | | | |d];
      try (now rewrite Hv).
    now destruct (Hd d).
Qed.

(** X21.  The preview of an analysis is the analysis itself up to 500
    characters and its first 500 characters followed by three dots
    beyond, so it never has more than 503 characters. *)
Theorem preview_bound (analysis_result : str) :
  (List.length (preview analysis_result) <= 503)%nat
  /\ ((List.length analysis_result <= 500)%nat ->
      preview analysis_result = analysis_result)
  /\ ((500 < List.length analysis_result)%nat ->
      preview analysis_result = firstn 500 analysis_result ++ lit "..."
      /\ List.length (preview analysis_result) = 503%nat).
Proof.
  unfold preview, slice_to.
  destruct (Nat.ltb_spec 500 (List.length analysis_result)) as [Hlong|Hshort].
  - assert (Hlen : List.length (firstn 500 analysis_result ++ lit "...") = 503%nat).
    { rewrite length_app, firstn_length_le by lia. reflexivity. }
    split; [lia|]. split; [lia|]. intros _. now split.
  - split; [lia|]. split; [reflexivity|]. lia.
Qed.
